(** * HarpyOTP: a shallow embedding of the attack engine

    The development follows the three Python modules of the repository:
    - [harpy_ai_otp.py]  (class [HarpyAIOTP]: verify, train_model,
      predict_likelihood, ai_attack, adaptive_attack, visualize, save_state,
      load_state),
    - [otp_attacker.py]  (class [OTPAttacker]: verify_otp, brute_force,
      replay_attack, race_attack, random_bypass),
    - [run_harpy.py]     (class [ProxyMonitor], [proxy_alive],
      [detect_proxy_type]).

    Python objects are modelled by records, mutation by explicit state
    passing over a [World], exceptions by a [result] type, the network, the
    clock and the proxy probe by oracles that are part of the world. *)

From Stdlib Require Import ZArith NArith List String Ascii Lia Bool.
From Stdlib Require Import Decimal DecimalFacts DecimalPos DecimalN.
From stdpp Require Import base list gmap strings.

Local Open Scope N_scope.

(* ===================================================================== *)
(** ** Python text *)
(* ===================================================================== *)

(** A Python [str] is a sequence of Unicode code points. *)
Abbreviation pystr := (list N).

Definition py (s : string) : pystr :=
  map N_of_ascii (list_ascii_of_string s).

Module Char.
Definition quote : N := 34.      (* the double quote *)
Definition plus : N := 43.
Definition comma : N := 44.
Definition minus : N := 45.
Definition dot : N := 46.
Definition slash : N := 47.
Definition zero : N := 48.
Definition colon : N := 58.
Definition lbracket : N := 91.
Definition backslash : N := 92.
Definition rbracket : N := 93.
Definition lbrace : N := 123.
Definition rbrace : N := 125.
Definition space : N := 32.
Definition newline : N := 10.
End Char.

(** [c.isdigit()] and [int(c)], on the ASCII characters.  Outside ASCII,
    Python's [isdigit] also holds of the digits of other scripts and of
    characters such as the superscript two, on which [int] raises
    [ValueError]; the candidates the engine formats are ASCII, and a
    statement about other strings carries the hypothesis [ascii_head]. *)
Definition isdigit (c : N) : bool := (48 <=? c) && (c <=? 57).
Definition digit_value (c : N) : N := c - 48.

(** [str.isspace] for one code point: the characters [str.strip()] removes. *)
Definition isspace (c : N) : bool :=
  ((9 <=? c) && (c <=? 13)) || ((28 <=? c) && (c <=? 32))
  || (c =? 133) || (c =? 160) || (c =? 5760)
  || ((8192 <=? c) && (c <=? 8202)) || (c =? 8232) || (c =? 8233)
  || (c =? 8239) || (c =? 8287) || (c =? 12288).

Fixpoint lstrip (s : pystr) : pystr :=
  match s with
  | c :: s' => if isspace c then lstrip s' else s
  | [] => []
  end.

Definition strip (s : pystr) : pystr := rev (lstrip (rev (lstrip s))).

(** [str.lower()]: the ASCII letters are folded; code points outside ASCII
    are left as they are (the Unicode case tables are not part of the model). *)
Definition lower_char (c : N) : N :=
  if (65 <=? c) && (c <=? 90) then c + 32 else c.
Definition lower (s : pystr) : pystr := map lower_char s.

Fixpoint startswith (p s : pystr) : bool :=
  match p, s with
  | [], _ => true
  | _ :: _, [] => false
  | a :: p', b :: s' => (a =? b) && startswith p' s'
  end.

(** [sub in s] for strings. *)
Fixpoint str_contains (sub s : pystr) : bool :=
  startswith sub s ||
  match s with
  | [] => false
  | _ :: s' => str_contains sub s'
  end.

Definition str_eqb (a b : pystr) : bool := bool_decide (a = b).

(** [s.rstrip("/")] *)
Fixpoint lstrip_char (c : N) (s : pystr) : pystr :=
  match s with
  | d :: s' => if d =? c then lstrip_char c s' else s
  | [] => []
  end.
Definition rstrip_char (c : N) (s : pystr) : pystr :=
  rev (lstrip_char c (rev s)).

(* --------------------------------------------------------------------- *)
(** *** Decimal numerals *)

Fixpoint chars_of_uint (u : Decimal.uint) : pystr :=
  match u with
  | Nil => []
  | D0 u => 48 :: chars_of_uint u
  | D1 u => 49 :: chars_of_uint u
  | D2 u => 50 :: chars_of_uint u
  | D3 u => 51 :: chars_of_uint u
  | D4 u => 52 :: chars_of_uint u
  | D5 u => 53 :: chars_of_uint u
  | D6 u => 54 :: chars_of_uint u
  | D7 u => 55 :: chars_of_uint u
  | D8 u => 56 :: chars_of_uint u
  | D9 u => 57 :: chars_of_uint u
  end.

(** [str(n)] for a natural number. *)
Definition str_of_N (n : N) : pystr := chars_of_uint (N.to_uint n).

(** [str(z)] for an [int]. *)
Definition str_of_Z (z : Z) : pystr :=
  match z with
  | Zneg p => Char.minus :: str_of_N (Npos p)
  | _ => str_of_N (Z.to_N z)
  end.

(** The format [f"{i:0{digits}d}"] for [i >= 0]: decimal, padded on the left
    with zeros up to the width; a longer numeral is not truncated. *)
Definition format_0d (digits : nat) (i : N) : pystr :=
  let ds := str_of_N i in
  repeat Char.zero (digits - length ds)%nat ++ ds.

(* ===================================================================== *)
(** ** Exceptions *)
(* ===================================================================== *)

(** The classes of [requests.exceptions]. *)
Inductive requests_exception :=
| RequestException | InvalidJSONError | HTTPError
| ConnectionError | ProxyError | SSLError
| Timeout | ConnectTimeout | ReadTimeout
| URLRequired | TooManyRedirects | MissingSchema | InvalidSchema
| InvalidURL | InvalidProxyURL | InvalidHeader | ChunkedEncodingError
| ContentDecodingError | StreamConsumedError | RetryError
| UnrewindableBodyError.

#[global] Instance requests_exception_eq_dec : EqDecision requests_exception.
Proof. solve_decision. Defined.

(** The method resolution order of each class, cut at [RequestException]:
    [class ProxyError(ConnectionError)], [class SSLError(ConnectionError)],
    [class ConnectTimeout(ConnectionError, Timeout)],
    [class ReadTimeout(Timeout)], [class InvalidProxyURL(InvalidURL)],
    and every other class derives from [RequestException] directly. *)
Definition mro (c : requests_exception) : list requests_exception :=
  match c with
  | RequestException => [RequestException]
  | ProxyError => [ProxyError; ConnectionError; RequestException]
  | SSLError => [SSLError; ConnectionError; RequestException]
  | ConnectTimeout =>
      [ConnectTimeout; ConnectionError; Timeout; RequestException]
  | ReadTimeout => [ReadTimeout; Timeout; RequestException]
  | InvalidProxyURL => [InvalidProxyURL; InvalidURL; RequestException]
  | c => [c; RequestException]
  end.

(** [issubclass(c, d)] *)
Definition issubclass (c d : requests_exception) : bool :=
  bool_decide (d ∈ mro c).

(** The exceptions that occur in the three modules. *)
Inductive exn :=
| Requests (c : requests_exception)
| NameError (name : string)
| AttributeError
| TypeError
| KeyError
| IndexError
| ValueError
| NotFittedError
| FileNotFoundError
| JSONDecodeError
| OSError.

Inductive result (A : Type) :=
| Ok (a : A)
| Raise (e : exn).
Arguments Ok {A} a.
Arguments Raise {A} e.

(* ===================================================================== *)
(** ** Floats *)
(* ===================================================================== *)

(** A JSON number with a fraction or an exponent, as [NUMBER_RE] of
    [json.scanner] splits it: an optional minus and an integer part ([0], or
    digits that start with a non-zero one), an optional fraction (a dot and
    at least one digit), an optional exponent ([e] or [E], an optional sign,
    at least one digit).  The exponent keeps its sign character:
    [Some true] for [-], [Some false] for [+], [None] when there is
    none. *)
Record float_literal := {
  fl_neg : bool;
  fl_int : N;
  fl_frac : option Decimal.uint;
  fl_exp : option (option bool * Decimal.uint)
}.

Definition uint_nonnil (u : Decimal.uint) : bool :=
  match u with Nil => false | _ => true end.

Definition wf_float_literal (l : float_literal) : bool :=
  match fl_frac l, fl_exp l with
  | None, None => false
  | fr, ex =>
      match fr with Some u => uint_nonnil u | None => true end
      && match ex with Some (_, u) => uint_nonnil u | None => true end
  end.

(** The finite binary64 values, kept abstract: what the engine needs of
    them is the constants it uses, their order, and the guarantee of Python
    that [float(repr(x)) == x], with [repr(x)] a decimal literal that has a
    fraction or an exponent. *)
Class PyFloat := {
  float : Type;
  float_eq_dec :: EqDecision float;
  float_zero : float;                      (* [0.0] *)
  float_tenth : float;                     (* [0.1] *)
  float_ltb : float -> float -> bool;      (* [x < y] *)
  float_repr : float -> float_literal;     (* [float.__repr__] *)
  float_of_literal : float_literal -> option float;
                                           (* [float(text)], when finite *)
  float_ltb_irrefl : forall x, float_ltb x x = false;
  float_repr_wf : forall x, wf_float_literal (float_repr x) = true;
  float_of_repr : forall x, float_of_literal (float_repr x) = Some x
}.

(** An instance with few values, used to run the model on examples: the
    non-negative multiples of one tenth, [n] standing for [n/10]. *)
Definition tenths_repr (n : N) : float_literal :=
  {| fl_neg := false;
     fl_int := n / 10;
     fl_frac := Some (N.to_uint (n mod 10));
     fl_exp := None |}.

Definition first_digit_of (u : Decimal.uint) : N :=
  match u with
  | D1 _ => 1 | D2 _ => 2 | D3 _ => 3 | D4 _ => 4 | D5 _ => 5
  | D6 _ => 6 | D7 _ => 7 | D8 _ => 8 | D9 _ => 9 | _ => 0
  end.

Definition tenths_of_literal (l : float_literal) : N :=
  10 * fl_int l +
  match fl_frac l with Some u => first_digit_of u | None => 0 end.

(* ===================================================================== *)
(** ** Python values *)
(* ===================================================================== *)

Section Values.
Context `{PyFloat}.

(** The values that [json] reads and writes.  A [dict] keeps its insertion
    order; its keys are strings. *)
#[warnings="-register-all"]
Inductive pyval :=
| PNone
| PBool (b : bool)
| PInt (z : Z)
| PFloat (x : float)
| PNaN
| PInf (neg : bool)
| PStr (s : pystr)
| PList (l : list pyval)
| PDict (d : list (pystr * pyval)).

(** [d[k]] of a dict given by its items. *)
Fixpoint dict_get (d : list (pystr * pyval)) (k : pystr) : option pyval :=
  match d with
  | [] => None
  | (k', v) :: d' => if str_eqb k' k then Some v else dict_get d' k
  end.

(** [d[k] = v]: an existing key keeps its position. *)
Fixpoint dict_set (d : list (pystr * pyval)) (k : pystr) (v : pyval)
  : list (pystr * pyval) :=
  match d with
  | [] => [(k, v)]
  | (k', v') :: d' =>
      if str_eqb k' k then (k', v) :: d' else (k', v') :: dict_set d' k v
  end.

(** Truth value of an object, as [if not x] tests it. *)
Definition truthy (v : pyval) : bool :=
  match v with
  | PNone => false
  | PBool b => b
  | PInt z => negb (z =? 0)%Z
  | PFloat x => negb (bool_decide (x = float_zero))
  | PNaN | PInf _ => true
  | PStr s => negb (bool_decide (s = []))
  | PList l => negb (bool_decide (length l = 0%nat))
  | PDict d => negb (bool_decide (length d = 0%nat))
  end.

End Values.

(* ===================================================================== *)
(** ** The [json] module: [dump] with [indent=4] and [load] *)
(* ===================================================================== *)

Module Json.
Section Json.
Context `{PyFloat}.

(* --------------------------------------------------------------------- *)
(** *** Encoder *)

Definition hexdigit (d : N) : N := if d <? 10 then 48 + d else 87 + d.

(** ['{0:04x}'.format(n)] for [n < 0x10000] *)
Definition hex4 (n : N) : pystr :=
  [hexdigit (n / 4096 mod 16); hexdigit (n / 256 mod 16);
   hexdigit (n / 16 mod 16); hexdigit (n mod 16)].

(** [replace] of [py_encode_basestring_ascii]: the characters that
    [ESCAPE_ASCII] matches (backslash, double quote, anything outside
    space .. tilde) become an escape sequence, [ESCAPE_DCT] first. *)
Definition escape_char (c : N) : pystr :=
  if c =? 92 then [92; 92]
  else if c =? 34 then [92; 34]
  else if c =? 8 then [92; 98]
  else if c =? 12 then [92; 102]
  else if c =? 10 then [92; 110]
  else if c =? 13 then [92; 114]
  else if c =? 9 then [92; 116]
  else if (32 <=? c) && (c <=? 126) then [c]
  else if c <? 0x10000 then 92 :: 117 :: hex4 c
  else
    let n := c - 0x10000 in
    let s1 := N.lor 0xd800 (N.land (N.shiftr n 10) 0x3ff) in
    let s2 := N.lor 0xdc00 (N.land n 0x3ff) in
    (92 :: 117 :: hex4 s1) ++ (92 :: 117 :: hex4 s2).

Definition encode_basestring_ascii (s : pystr) : pystr :=
  Char.quote :: flat_map escape_char s ++ [Char.quote].

Definition sign_chars (sg : option bool) : pystr :=
  match sg with
  | Some true => [Char.minus]
  | Some false => [Char.plus]
  | None => []
  end.

Definition chars_of_float_literal (l : float_literal) : pystr :=
  (if fl_neg l then [Char.minus] else [])
  ++ str_of_N (fl_int l)
  ++ match fl_frac l with
     | Some u => Char.dot :: chars_of_uint u
     | None => []
     end
  ++ match fl_exp l with
     | Some (sg, u) => 101 :: sign_chars sg ++ chars_of_uint u
     | None => []
     end.

(** [_floatstr] *)
Definition floatstr (x : float) : pystr :=
  chars_of_float_literal (float_repr x).

(** ['\n' + _indent * _current_indent_level], with [_indent] four spaces *)
Definition newline_indent (level : nat) : pystr :=
  Char.newline :: repeat Char.space (4 * level).

(** The loop of [_iterencode_list]: the first chunk follows the opening
    bracket, the others the separator. *)
Definition encode_items (enc : pyval -> pystr) (separator : pystr)
  : list pyval -> pystr :=
  fix go (l : list pyval) : pystr :=
    match l with
    | [] => []
    | [v] => enc v
    | v :: l' => enc v ++ separator ++ go l'
    end.

(** The loop of [_iterencode_dict], with [_key_separator = ': ']. *)
Definition encode_pairs (enc : pyval -> pystr) (separator : pystr)
  : list (pystr * pyval) -> pystr :=
  fix go (d : list (pystr * pyval)) : pystr :=
    match d with
    | [] => []
    | [(k, v)] => encode_basestring_ascii k ++ [Char.colon; Char.space] ++ enc v
    | (k, v) :: d' =>
        encode_basestring_ascii k ++ [Char.colon; Char.space] ++ enc v
        ++ separator ++ go d'
    end.

(** [_iterencode] at indentation level [level]; with an indent the item
    separator is a bare comma. *)
Fixpoint iterencode (level : nat) (v : pyval) : pystr :=
  match v with
  | PStr s => encode_basestring_ascii s
  | PNone => py "null"
  | PBool true => py "true"
  | PBool false => py "false"
  | PInt z => str_of_Z z
  | PFloat x => floatstr x
  | PNaN => py "NaN"
  | PInf false => py "Infinity"
  | PInf true => py "-Infinity"
  | PList [] => py "[]"
  | PList l =>
      Char.lbracket :: newline_indent (S level)
      ++ encode_items (iterencode (S level))
           (Char.comma :: newline_indent (S level)) l
      ++ newline_indent level ++ [Char.rbracket]
  | PDict [] => py "{}"
  | PDict d =>
      Char.lbrace :: newline_indent (S level)
      ++ encode_pairs (iterencode (S level))
           (Char.comma :: newline_indent (S level)) d
      ++ newline_indent level ++ [Char.rbrace]
  end.

(** [json.dumps(obj, indent=4)] *)
Definition dumps (v : pyval) : pystr := iterencode 0 v.

(* --------------------------------------------------------------------- *)
(** *** Decoder *)

(** [WHITESPACE]: the characters of [' \t\n\r'] *)
Definition is_ws (c : N) : bool :=
  (c =? 32) || (c =? 9) || (c =? 10) || (c =? 13).

Fixpoint skip_ws (s : pystr) : pystr :=
  match s with
  | c :: s' => if is_ws c then skip_ws s' else s
  | [] => []
  end.

Definition hexval (c : N) : option N :=
  if (48 <=? c) && (c <=? 57) then Some (c - 48)
  else if (97 <=? c) && (c <=? 102) then Some (c - 87)
  else if (65 <=? c) && (c <=? 70) then Some (c - 55)
  else None.

(** [_decode_uXXXX]: four hexadecimal digits. *)
Definition decode_uXXXX (s : pystr) : option (N * pystr) :=
  match s with
  | a :: b :: c :: d :: rest =>
      match hexval a, hexval b, hexval c, hexval d with
      | Some x3, Some x2, Some x1, Some x0 =>
          Some (4096 * x3 + 256 * x2 + 16 * x1 + x0, rest)
      | _, _, _, _ => None
      end
  | _ => None
  end.

(** [BACKSLASH]: the one-letter escapes. *)
Definition backslash_escape (c : N) : option N :=
  if c =? 34 then Some 34
  else if c =? 92 then Some 92
  else if c =? 47 then Some 47
  else if c =? 98 then Some 8
  else if c =? 102 then Some 12
  else if c =? 110 then Some 10
  else if c =? 114 then Some 13
  else if c =? 116 then Some 9
  else None.

(** [py_scanstring] in strict mode, from the character after the opening
    quote: the decoded string and the text after the closing quote. *)
Fixpoint scanstring (fuel : nat) (s : pystr) : option (pystr * pystr) :=
  match fuel with
  | O => None
  | S fuel =>
    match s with
    | [] => None
    | c :: s1 =>
      if c =? Char.quote then Some ([], s1)
      else if c =? Char.backslash then
        match s1 with
        | [] => None
        | esc :: s2 =>
          if esc =? 117 then
            match decode_uXXXX s2 with
            | None => None
            | Some (uni, s3) =>
              let joined :=
                if (0xd800 <=? uni) && (uni <=? 0xdbff)
                   && startswith [92; 117] s3 then
                  match decode_uXXXX (drop 2 s3) with
                  | None => None
                  | Some (uni2, s4) =>
                    if (0xdc00 <=? uni2) && (uni2 <=? 0xdfff) then
                      Some (0x10000 +
                            N.lor (N.shiftl (uni - 0xd800) 10) (uni2 - 0xdc00),
                            s4)
                    else Some (uni, s3)
                  end
                else Some (uni, s3) in
              match joined with
              | None => None
              | Some (ch, s5) =>
                match scanstring fuel s5 with
                | Some (str, rest) => Some (ch :: str, rest)
                | None => None
                end
              end
            end
          else
            match backslash_escape esc with
            | None => None
            | Some ch =>
              match scanstring fuel s2 with
              | Some (str, rest) => Some (ch :: str, rest)
              | None => None
              end
            end
        end
      else if c <? 32 then None
      else
        match scanstring fuel s1 with
        | Some (str, rest) => Some (c :: str, rest)
        | None => None
        end
    end
  end.

Definition digit_of_char (c : N) : option (Decimal.uint -> Decimal.uint) :=
  if c =? 48 then Some D0 else if c =? 49 then Some D1
  else if c =? 50 then Some D2 else if c =? 51 then Some D3
  else if c =? 52 then Some D4 else if c =? 53 then Some D5
  else if c =? 54 then Some D6 else if c =? 55 then Some D7
  else if c =? 56 then Some D8 else if c =? 57 then Some D9
  else None.

(** The longest run of digits at the head of the text. *)
Fixpoint span_digits (s : pystr) : Decimal.uint * pystr :=
  match s with
  | [] => (Nil, [])
  | c :: s' =>
      match digit_of_char c with
      | Some dg => let (u, rest) := span_digits s' in (dg u, rest)
      | None => (Nil, s)
      end
  end.

Inductive number_token :=
| NumInt (neg : bool) (n : N)
| NumFloat (l : float_literal).

(** The integer part of [NUMBER_RE]: [0], or digits that start with a
    non-zero digit. *)
Definition match_integer (s : pystr) : option (N * pystr) :=
  match s with
  | [] => None
  | c :: r =>
      if c =? 48 then Some (0, r)
      else if isdigit c then
        let (u, rest) := span_digits s in Some (N.of_uint u, rest)
      else None
  end.

(** The optional fraction: a dot followed by at least one digit. *)
Definition match_frac (s : pystr) : option Decimal.uint * pystr :=
  match s with
  | c :: d :: r =>
      if (c =? Char.dot) && isdigit d then
        let (u, rest) := span_digits (d :: r) in (Some u, rest)
      else (None, s)
  | _ => (None, s)
  end.

(** The optional exponent: [e] or [E], an optional sign, at least one
    digit. *)
Definition match_exp (s : pystr)
  : option (option bool * Decimal.uint) * pystr :=
  match s with
  | c :: r =>
      if (c =? 101) || (c =? 69) then
        let (sg, r') :=
          match r with
          | x :: r1 =>
              if x =? Char.plus then (Some false, r1)
              else if x =? Char.minus then (Some true, r1)
              else (None, r)
          | [] => (None, r)
          end in
        match r' with
        | d :: _ =>
            if isdigit d then
              let (u, rest) := span_digits r' in (Some (sg, u), rest)
            else (None, s)
        | [] => (None, s)
        end
      else (None, s)
  | [] => (None, s)
  end.

(** The optional minus sign. *)
Definition match_sign (s : pystr) : bool * pystr :=
  match s with
  | c :: r => if c =? Char.minus then (true, r) else (false, s)
  | [] => (false, s)
  end.

(** [NUMBER_RE.match] *)
Definition match_number (s : pystr) : option (number_token * pystr) :=
  let (neg, s1) := match_sign s in
  match match_integer s1 with
  | None => None
  | Some (n, s2) =>
      let (fr, s3) := match_frac s2 in
      let (ex, s4) := match_exp s3 in
      match fr, ex with
      | None, None => Some (NumInt neg n, s4)
      | _, _ =>
          Some (NumFloat {| fl_neg := neg; fl_int := n;
                            fl_frac := fr; fl_exp := ex |}, s4)
      end
  end.

(** The value of a number token: [int(integer)], or
    [float(integer + frac + exp)], which overflows to an infinity when
    [float_of_literal] has no finite value for it. *)
Definition number_value (t : number_token) : pyval :=
  match t with
  | NumInt neg n => PInt (if neg then - Z.of_N n else Z.of_N n)
  | NumFloat l =>
      match float_of_literal l with
      | Some x => PFloat x
      | None => PInf (fl_neg l)
      end
  end.

(** [JSONArray], after the opening bracket and the white space: the loop
    over the items. *)
Definition array_items (scan_once : pystr -> option (pyval * pystr))
  : nat -> pystr -> option (list pyval * pystr) :=
  fix loop (fuel : nat) (s : pystr) :=
    match fuel with
    | O => None
    | S fuel =>
      match scan_once s with
      | None => None
      | Some (value, s1) =>
        match skip_ws s1 with
        | [] => None
        | c :: s2 =>
          if c =? Char.rbracket then Some ([value], s2)
          else if c =? Char.comma then
            match loop fuel (skip_ws s2) with
            | Some (values, rest) => Some (value :: values, rest)
            | None => None
            end
          else None
        end
      end
    end.

Definition JSONArray (scan_once : pystr -> option (pyval * pystr))
  (fuel : nat) (s : pystr) : option (pyval * pystr) :=
  match skip_ws s with
  | [] => None
  | c :: s1 =>
      if c =? Char.rbracket then Some (PList [], s1)
      else
        match array_items scan_once fuel (c :: s1) with
        | Some (values, rest) => Some (PList values, rest)
        | None => None
        end
  end.

(** [JSONObject], from the opening quote of a key: the loop over the
    pairs. *)
Definition object_pairs (scan_once : pystr -> option (pyval * pystr))
  : nat -> pystr -> option (list (pystr * pyval) * pystr) :=
  fix loop (fuel : nat) (s : pystr) :=
    match fuel with
    | O => None
    | S fuel =>
      match s with
      | [] => None
      | q :: s0 =>
        if negb (q =? Char.quote) then None
        else
          match scanstring (length s0) s0 with
          | None => None
          | Some (key, s1) =>
            match skip_ws s1 with
            | [] => None
            | c :: s2 =>
              if negb (c =? Char.colon) then None
              else
                match scan_once (skip_ws s2) with
                | None => None
                | Some (value, s3) =>
                  match skip_ws s3 with
                  | [] => None
                  | c' :: s4 =>
                    if c' =? Char.rbrace then Some ([(key, value)], s4)
                    else if c' =? Char.comma then
                      match loop fuel (skip_ws s4) with
                      | Some (pairs, rest) =>
                          Some ((key, value) :: pairs, rest)
                      | None => None
                      end
                    else None
                  end
                end
            end
          end
      end
    end.

(** [dict(pairs)]: a repeated key keeps its first position and takes the
    last value. *)
Definition dict_of_pairs (pairs : list (pystr * pyval))
  : list (pystr * pyval) :=
  fold_left (fun d kv => dict_set d (fst kv) (snd kv)) pairs [].

Definition JSONObject (scan_once : pystr -> option (pyval * pystr))
  (fuel : nat) (s : pystr) : option (pyval * pystr) :=
  match skip_ws s with
  | [] => None
  | c :: s1 =>
      if c =? Char.rbrace then Some (PDict [], s1)
      else
        match object_pairs scan_once fuel (c :: s1) with
        | Some (pairs, rest) => Some (PDict (dict_of_pairs pairs), rest)
        | None => None
        end
  end.

(** [scan_once] of [json.scanner]; [None] stands for the [JSONDecodeError]
    that [decode] makes of a failed scan. *)
Fixpoint scan_once (fuel : nat) (s : pystr) : option (pyval * pystr) :=
  match fuel with
  | O => None
  | S fuel =>
    match s with
    | [] => None
    | c :: s1 =>
      if c =? Char.quote then
        match scanstring (length s1) s1 with
        | Some (str, rest) => Some (PStr str, rest)
        | None => None
        end
      else if c =? Char.lbrace then JSONObject (scan_once fuel) fuel s1
      else if c =? Char.lbracket then JSONArray (scan_once fuel) fuel s1
      else if startswith (py "null") s then Some (PNone, drop 4 s)
      else if startswith (py "true") s then Some (PBool true, drop 4 s)
      else if startswith (py "false") s then Some (PBool false, drop 5 s)
      else
        match match_number s with
        | Some (t, rest) => Some (number_value t, rest)
        | None =>
          if startswith (py "NaN") s then Some (PNaN, drop 3 s)
          else if startswith (py "Infinity") s then
            Some (PInf false, drop 8 s)
          else if startswith (py "-Infinity") s then
            Some (PInf true, drop 9 s)
          else None
        end
    end
  end.

(** [json.loads]: a leading byte order mark is refused, white space is
    allowed around the one value, anything after it is ["Extra data"]. *)
Definition loads (s : pystr) : option pyval :=
  if startswith [0xfeff] s then None
  else
    match scan_once (S (length s)) (skip_ws s) with
    | Some (v, rest) =>
        match skip_ws rest with
        | [] => Some v
        | _ :: _ => None
        end
    | None => None
    end.

End Json.
End Json.

(* ===================================================================== *)
(** ** The world: engine object, shared monitor objects, network, files *)
(* ===================================================================== *)

(** Logging levels and the two module loggers. *)
Inductive level := DEBUG | INFO | WARNING | ERROR | CRITICAL.

Definition levelno (l : level) : Z :=
  match l with
  | DEBUG => 10 | INFO => 20 | WARNING => 30 | ERROR => 40 | CRITICAL => 50
  end%Z.

Inductive logger_name := harpy_ai_otp_logger | run_harpy_logger.

(** The names bound at module level in [harpy_ai_otp.py]: its imports, the
    logger and the class. *)
Definition harpy_ai_otp_globals : gset string :=
  list_to_set
    ["requests"; "random"; "time"; "json"; "statistics"; "np";
     "RandomForestClassifier"; "LabelEncoder"; "plt"; "logging";
     "List"; "Dict"; "Any"; "Optional"; "logger"; "HarpyAIOTP"]%string.

(** [from colorama import Fore, Style, init] is in [run_harpy.py] only. *)
Definition run_harpy_globals : gset string :=
  list_to_set
    ["HarpyAIOTP"; "Fore"; "Style"; "init"; "requests"; "socket";
     "urlparse"; "threading"; "time"; "os"; "logging"; "Optional"; "Dict";
     "Any"; "logger"; "ProxyMonitor"; "proxy_alive"; "detect_proxy_type";
     "banner"]%string.

(** The proxy monitor object of [run_harpy.py]. *)
Record ProxyMonitor := {
  proxy_url : pystr;
  force : bool;
  check_interval : Z;
  running : bool;
  alive : bool
}.

(** What one reachability probe of the proxy meets. *)
Inductive probe_outcome :=
| ProbeInvalidURL        (* no host or no port in the URL *)
| ProbeConnected
| ProbeSocketError       (* socket.timeout, ConnectionRefusedError, OSError *)
| ProbeUnexpected.       (* any other exception *)

(** What the monitor thread does, in order. *)
Inductive monitor_event :=
| EvProbe (url : pystr) (reachable : bool)
| EvStoreAlive (loc : nat) (b : bool)
| EvSleep (seconds : Z)
| EvExit (code : Z).

Section Engine.
Context `{PyFloat}.

(** The messages that the two modules log, one constructor per call site,
    with the values its text is formatted from. *)
Inductive message :=
| MsgProxyDown
| MsgVerified (otp : pystr) (status : Z) (elapsed : float) (text50 : pystr)
| MsgProxyError (otp : pystr)
| MsgConnectionError (otp : pystr)
| MsgTimeoutError (otp : pystr)
| MsgRequestError (otp : pystr)
| MsgNoData
| MsgTrained
| MsgTrainValueError
| MsgTrainUnexpected
| MsgNoSuccessLabel
| MsgPredictError (otp : pystr)
| MsgNotTrained
| MsgGenerating (count : N)
| MsgRanking
| MsgLaunchingAI (max_attempts : Z)
| MsgCrackedByAI (otp : pystr)
| MsgReachedMax (max_attempts : Z)
| MsgLaunchingAdaptive (max_attempts : Z)
| MsgFound (otp : pystr)
| MsgStateSaved (file : pystr)
| MsgSaveError (file : pystr)
| MsgStateLoaded (file : pystr)
| MsgNoSavedState (file : pystr)
| MsgCorrupted (file : pystr)
| MsgLoadUnexpected (file : pystr)
| MsgMonitorInit (url : pystr) (force : bool)
| MsgMonitorStarted
| MsgWentDownAbort (url : pystr)
| MsgWentDownFallback (url : pystr)
| MsgMonitorStopped
| MsgInvalidProxyURL (url : pystr)
| MsgNotReachable (url : pystr)
| MsgProbeUnexpected (url : pystr).

Definition log_record : Type := logger_name * level * message.

(** One call of [session.post]. *)
Record Request := {
  req_url : pystr;
  req_user_id : pystr;
  req_otp : pystr;
  req_proxies : option (pystr * pystr);   (* the [http] and [https] entries *)
  req_timeout : option Z
}.

(** What the call meets: a response, with the time the clock measures
    around it, or an exception. *)
Inductive post_outcome :=
| Responds (status_code : Z) (text : pystr) (elapsed : float)
| Fails (e : exn).

(** The fitted state of [RandomForestClassifier(n_estimators=100,
    random_state=42)] and of its two methods; the algorithm is outside the
    engine.  [forest_fit X y] gets the feature rows and the encoded labels,
    [forest_predict_proba] gives one probability per class seen by [fit]. *)
Class Forest := {
  forest : Type;
  forest_fit : list (list pyval) -> list nat -> result forest;
  forest_predict_proba : forest -> list pyval -> result (list float)
}.
Context `{Forest}.

(** The engine object. *)
Record HarpyAIOTP := {
  base_url : pystr;
  user_id : pystr;
  otp_verify_path : pystr;
  debug : bool;
  history : pyval;
  state_file : pystr;
  proxy_monitor : option nat;             (* a reference to the monitor *)
  proxies : option (pystr * pystr);
  encoder_classes : option (list pystr);  (* [classes_], absent before fit *)
  classifier : option forest              (* absent before fit *)
}.

Record World := {
  w_engine : HarpyAIOTP;
  w_monitors : gmap nat ProxyMonitor;     (* the monitor objects, by address *)
  w_net : list Request -> Request -> post_outcome;
  w_sent : list Request;                  (* the calls made, oldest first *)
  w_log : list log_record;                (* the records emitted *)
  w_logger_level : option level;          (* level of the engine's logger *)
  w_files : gmap pystr pystr;
  w_writable : pystr -> bool;
  w_events : list monitor_event
}.

Definition set_engine (e : HarpyAIOTP) (w : World) : World :=
  {| w_engine := e; w_monitors := w_monitors w; w_net := w_net w;
     w_sent := w_sent w; w_log := w_log w;
     w_logger_level := w_logger_level w; w_files := w_files w;
     w_writable := w_writable w; w_events := w_events w |}.

Definition set_monitors (ms : gmap nat ProxyMonitor) (w : World) : World :=
  {| w_engine := w_engine w; w_monitors := ms; w_net := w_net w;
     w_sent := w_sent w; w_log := w_log w;
     w_logger_level := w_logger_level w; w_files := w_files w;
     w_writable := w_writable w; w_events := w_events w |}.

Definition set_sent (s : list Request) (w : World) : World :=
  {| w_engine := w_engine w; w_monitors := w_monitors w; w_net := w_net w;
     w_sent := s; w_log := w_log w;
     w_logger_level := w_logger_level w; w_files := w_files w;
     w_writable := w_writable w; w_events := w_events w |}.

Definition set_log (l : list log_record) (w : World) : World :=
  {| w_engine := w_engine w; w_monitors := w_monitors w; w_net := w_net w;
     w_sent := w_sent w; w_log := l;
     w_logger_level := w_logger_level w; w_files := w_files w;
     w_writable := w_writable w; w_events := w_events w |}.

Definition set_logger_level (l : option level) (w : World) : World :=
  {| w_engine := w_engine w; w_monitors := w_monitors w; w_net := w_net w;
     w_sent := w_sent w; w_log := w_log w;
     w_logger_level := l; w_files := w_files w;
     w_writable := w_writable w; w_events := w_events w |}.

Definition set_files (f : gmap pystr pystr) (w : World) : World :=
  {| w_engine := w_engine w; w_monitors := w_monitors w; w_net := w_net w;
     w_sent := w_sent w; w_log := w_log w;
     w_logger_level := w_logger_level w; w_files := f;
     w_writable := w_writable w; w_events := w_events w |}.

Definition set_events (ev : list monitor_event) (w : World) : World :=
  {| w_engine := w_engine w; w_monitors := w_monitors w; w_net := w_net w;
     w_sent := w_sent w; w_log := w_log w;
     w_logger_level := w_logger_level w; w_files := w_files w;
     w_writable := w_writable w; w_events := ev |}.

Definition set_history (h : pyval) (e : HarpyAIOTP) : HarpyAIOTP :=
  {| base_url := base_url e; user_id := user_id e;
     otp_verify_path := otp_verify_path e; debug := debug e;
     history := h; state_file := state_file e;
     proxy_monitor := proxy_monitor e; proxies := proxies e;
     encoder_classes := encoder_classes e; classifier := classifier e |}.

Definition set_encoder_classes (c : option (list pystr)) (e : HarpyAIOTP)
  : HarpyAIOTP :=
  {| base_url := base_url e; user_id := user_id e;
     otp_verify_path := otp_verify_path e; debug := debug e;
     history := history e; state_file := state_file e;
     proxy_monitor := proxy_monitor e; proxies := proxies e;
     encoder_classes := c; classifier := classifier e |}.

Definition set_classifier (c : option forest) (e : HarpyAIOTP) : HarpyAIOTP :=
  {| base_url := base_url e; user_id := user_id e;
     otp_verify_path := otp_verify_path e; debug := debug e;
     history := history e; state_file := state_file e;
     proxy_monitor := proxy_monitor e; proxies := proxies e;
     encoder_classes := encoder_classes e; classifier := c |}.

(* --------------------------------------------------------------------- *)
(** *** Statements: state and exceptions *)

Definition M (A : Type) : Type := World -> result A * World.

Definition ret {A} (a : A) : M A := fun w => (Ok a, w).
Definition raise {A} (e : exn) : M A := fun w => (Raise e, w).

Definition bind {A B} (m : M A) (k : A -> M B) : M B :=
  fun w =>
    match m w with
    | (Ok a, w') => k a w'
    | (Raise e, w') => (Raise e, w')
    end.

Notation "'let*' x := m 'in' k" := (bind m (fun x => k))
  (at level 10, x name, m at level 100, k at level 200).
Notation "m >> k" := (bind m (fun _ => k))
  (at level 100, k at level 200, right associativity).

(** [try: body except ...]: [handler e] is the first clause that matches
    [e], if there is one. *)
Definition try_except {A} (body : M A) (handler : exn -> option (M A))
  : M A :=
  fun w =>
    match body w with
    | (Ok a, w') => (Ok a, w')
    | (Raise e, w') =>
        match handler e with
        | Some h => h w'
        | None => (Raise e, w')
        end
    end.

(** A record is emitted when its level reaches the effective level of the
    logger: the logger's own when set, else the root's, which
    [logging.basicConfig(level=logging.INFO)] sets. *)
Definition effective_level (n : logger_name) (w : World) : level :=
  match n with
  | harpy_ai_otp_logger => default INFO (w_logger_level w)
  | run_harpy_logger => INFO
  end.

Definition logger_log (n : logger_name) (l : level) (m : message) : M unit :=
  fun w =>
    if (levelno (effective_level n w) <=? levelno l)%Z
    then (Ok tt, set_log (w_log w ++ [(n, l, m)]) w)
    else (Ok tt, w).

(** The module logger of [harpy_ai_otp.py]. *)
Definition logger_info := logger_log harpy_ai_otp_logger INFO.
Definition logger_warning := logger_log harpy_ai_otp_logger WARNING.
Definition logger_error := logger_log harpy_ai_otp_logger ERROR.

(** [HarpyAIOTP._log] *)
Definition _log (l : level) (m : message) : M unit :=
  fun w =>
    if debug (w_engine w) then logger_log harpy_ai_otp_logger l m w
    else (Ok tt, w).

(** A name used in a method of [harpy_ai_otp.py] that is not a local is
    looked up in the module's globals (none of the names below is a
    builtin). *)
Definition load_global (name : string) : M unit :=
  if bool_decide (name ∈ harpy_ai_otp_globals) then ret tt
  else raise (NameError name).

(** [session.post]: the call goes on the wire and meets its outcome. *)
Definition session_post (r : Request) : M (Z * pystr * float) :=
  fun w =>
    let w' := set_sent (w_sent w ++ [r]) w in
    match w_net w (w_sent w) r with
    | Responds st tx el => (Ok (st, tx, el), w')
    | Fails e => (Raise e, w')
    end.

(** The candidates that went on the wire, oldest first. *)
Definition sent_otps (w : World) : list pystr := map req_otp (w_sent w).

(* --------------------------------------------------------------------- *)
(** *** [HarpyAIOTP.__init__] *)

(** The object the constructor builds. *)
Definition new_engine (base_url user_id otp_verify_path : pystr)
  (burp_proxy : option pystr) (debug : bool) (proxy_monitor : option nat)
  : HarpyAIOTP :=
  {| base_url := rstrip_char Char.slash base_url;
     user_id := user_id;
     otp_verify_path := otp_verify_path;
     debug := debug;
     history := PList [];
     state_file := py "ai_otp_state_" ++ user_id ++ py ".json";
     proxy_monitor := proxy_monitor;
     proxies :=
       match burp_proxy with
       | Some (c :: p) => Some (c :: p, c :: p)
       | _ => None
       end;
     encoder_classes := None;
     classifier := None |}.

(** The constructor also lowers the module logger when [debug] is off. *)
Definition init (base_url user_id otp_verify_path : pystr)
  (burp_proxy : option pystr) (debug : bool) (proxy_monitor : option nat)
  (w : World) : World :=
  let w' :=
    set_engine (new_engine base_url user_id otp_verify_path burp_proxy
                  debug proxy_monitor) w in
  if debug then w' else set_logger_level (Some WARNING) w'.

(* --------------------------------------------------------------------- *)
(** *** [HarpyAIOTP.verify] *)

(** The dict that [verify] builds and returns. *)
Definition make_record (otp : pystr) (status : Z) (text : pystr)
  (time : pyval) : pyval :=
  PDict [(py "otp", PStr otp); (py "status", PInt status);
         (py "text", PStr text); (py "time", time)].

(** [self.history.append(record)]: only a list has [append]. *)
Definition history_append (record : pyval) : M unit :=
  fun w =>
    match history (w_engine w) with
    | PList l =>
        (Ok tt, set_engine (set_history (PList (l ++ [record])) (w_engine w)) w)
    | _ => (Raise AttributeError, w)
    end.

(** [self.proxy_monitor and not self.proxy_monitor.alive] *)
Definition proxy_down (w : World) : bool :=
  match proxy_monitor (w_engine w) with
  | None => false
  | Some loc =>
      match w_monitors w !! loc with
      | Some m => negb (alive m)
      | None => false
      end
  end.

(** The [except] clauses of [verify], in their order; the first whose class
    the exception is an instance of is taken. *)
Definition verify_handler (otp : pystr) (e : exn) : option (M pyval) :=
  match e with
  | Requests c =>
      if issubclass c ProxyError then
        Some (logger_error (MsgProxyError otp) >>
              ret (make_record otp 999 (py "proxy_error") (PInt 0)))
      else if issubclass c ConnectionError then
        Some (logger_error (MsgConnectionError otp) >>
              ret (make_record otp 998 (py "connection_error") (PInt 0)))
      else if issubclass c Timeout then
        Some (logger_error (MsgTimeoutError otp) >>
              ret (make_record otp 997 (py "timeout_error") (PInt 0)))
      else if issubclass c RequestException then
        Some (logger_error (MsgRequestError otp) >>
              ret (make_record otp 996 (py "request_error") (PInt 0)))
      else None
  | _ => None
  end.

(** The call [verify] makes: the URL, the payload, the proxies in force and
    the timeout. *)
Definition verify_request (otp : pystr) (w : World) : Request :=
  let e := w_engine w in
  {| req_url := base_url e ++ otp_verify_path e;
     req_user_id := user_id e;
     req_otp := otp;
     req_proxies := if proxy_down w then None else proxies e;
     req_timeout := Some 10%Z |}.

Definition verify (otp : pystr) : M pyval :=
  fun w =>
    ((if proxy_down w then _log INFO MsgProxyDown else ret tt) >>
     try_except
       (let* r := session_post (verify_request otp w) in
        let '(status_code, r_text, elapsed_time) := r in
        let record :=
          make_record otp status_code (lower (strip r_text))
            (PFloat elapsed_time) in
        history_append record >>
        _log INFO (MsgVerified otp status_code elapsed_time (take 50 r_text)) >>
        ret record)
       (verify_handler otp)) w.

(* --------------------------------------------------------------------- *)
(** *** The ranking model *)

(** A history entry with the four fields at the types [verify] gives them.
    [train_model] is modelled on these; an entry of another shape is a
    [TypeError] of the model, whatever Python would make of it. *)
Record AttemptRecord := {
  otp : pystr;
  status : Z;
  text : pystr;
  time : pyval
}.

Definition dict_of_record (r : AttemptRecord) : pyval :=
  make_record (otp r) (status r) (text r) (time r).

Definition record_of (v : pyval) : option AttemptRecord :=
  match v with
  | PDict d =>
      match dict_get d (py "otp"), dict_get d (py "status"),
            dict_get d (py "text"), dict_get d (py "time") with
      | Some (PStr o), Some (PInt s), Some (PStr t), Some tm =>
          Some {| otp := o; status := s; text := t; time := tm |}
      | _, _, _, _ => None
      end
  | _ => None
  end.

Fixpoint records_of (l : list pyval) : option (list AttemptRecord) :=
  match l with
  | [] => Some []
  | v :: l' =>
      match record_of v, records_of l' with
      | Some r, Some rs => Some (r :: rs)
      | _, _ => None
      end
  end.

(** The history that holds the given records. *)
Definition history_of (h : list AttemptRecord) : pyval :=
  PList (map dict_of_record h).

(** [int(otp[0]) if otp and otp[0].isdigit() else 0], for a candidate that
    is empty or starts with an ASCII character ([ascii_head]): the value of
    a leading digit, [0] otherwise.  On another head the code can raise
    [ValueError] here, before the [try] of [train_model] and of
    [predict_likelihood]. *)
Definition first_digit (otp : pystr) : Z :=
  match otp with
  | c :: _ => if isdigit c then Z.of_N (digit_value c) else 0%Z
  | [] => 0%Z
  end.

(** The success predicate: ["success" in text or status == 200]. *)
Definition is_success (text : pystr) (status : Z) : bool :=
  str_contains (py "success") text || (status =? 200)%Z.

Definition features_of (r : AttemptRecord) : list pyval :=
  [PInt (Z.of_nat (length (otp r))); PInt (first_digit (otp r));
   PInt (status r); time r].

Definition label_of (r : AttemptRecord) : pystr :=
  if is_success (text r) (status r) then py "success" else py "fail".

(** Order of strings, code point by code point. *)
Fixpoint str_ltb (a b : pystr) : bool :=
  match a, b with
  | _, [] => false
  | [], _ :: _ => true
  | x :: a', y :: b' => (x <? y) || ((x =? y) && str_ltb a' b')
  end.

(** [LabelEncoder.fit]: [classes_] are the distinct labels, sorted. *)
Fixpoint insert_class (c : pystr) (cs : list pystr) : list pystr :=
  match cs with
  | [] => [c]
  | d :: cs' =>
      if str_eqb c d then cs
      else if str_ltb c d then c :: cs
      else d :: insert_class c cs'
  end.

Definition label_classes (y : list pystr) : list pystr :=
  fold_right insert_class [] y.

(** The position of a label in [classes_]. *)
Fixpoint class_index (c : pystr) (cs : list pystr) : option nat :=
  match cs with
  | [] => None
  | d :: cs' =>
      if str_eqb c d then Some 0%nat else S <$> class_index c cs'
  end.

(** [LabelEncoder.transform] *)
Definition encode_labels (cs : list pystr) (y : list pystr) : list nat :=
  map (fun c => default 0%nat (class_index c cs)) y.

(** [except ValueError]: the classes among [exn] that derive from it. *)
Definition is_ValueError (e : exn) : bool :=
  match e with
  | ValueError | NotFittedError | JSONDecodeError => true
  | Requests c =>
      bool_decide (c ∈ [MissingSchema; InvalidSchema; InvalidURL;
                        InvalidProxyURL; InvalidHeader])
  | _ => false
  end.

Definition train_model : M unit :=
  fun w =>
    let e := w_engine w in
    if negb (truthy (history e)) then _log WARNING MsgNoData w
    else
      match history e with
      | PList l =>
          match records_of l with
          | None => (Raise TypeError, w)
          | Some recs =>
              let X := map features_of recs in
              let y := map label_of recs in
              (* y_encoded = self.encoder.fit_transform(y) *)
              let classes := label_classes y in
              let y_encoded := encode_labels classes y in
              let w1 := set_engine (set_encoder_classes (Some classes) e) w in
              (* self.classifier.fit(X, y_encoded) *)
              match forest_fit X y_encoded with
              | Ok fitted =>
                  _log INFO MsgTrained
                    (set_engine (set_classifier (Some fitted) (w_engine w1)) w1)
              | Raise ex =>
                  if is_ValueError ex
                  then logger_error MsgTrainValueError w1
                  else logger_error MsgTrainUnexpected w1
              end
          end
      | _ => (Raise TypeError, w)
      end.

(** [self.classifier.predict_proba([features])[0]]; an estimator that was
    not fitted raises [NotFittedError]. *)
Definition classifier_predict_proba (features : list pyval)
  : M (list float) :=
  fun w =>
    match classifier (w_engine w) with
    | None => (Raise NotFittedError, w)
    | Some fitted => (forest_predict_proba fitted features, w)
    end.

(** [self.encoder.classes_]; the attribute exists once the encoder is
    fitted. *)
Definition encoder_classes_ : M (list pystr) :=
  fun w =>
    match encoder_classes (w_engine w) with
    | None => (Raise AttributeError, w)
    | Some cs => (Ok cs, w)
    end.

Definition predict_likelihood (otp : pystr) : M float :=
  let features :=
    [PInt (Z.of_nat (length otp)); PInt (first_digit otp); PInt 200;
     PFloat float_tenth] in
  try_except
    (let* proba := classifier_predict_proba features in
     let* classes := encoder_classes_ in
     if bool_decide (py "success" ∈ classes) then
       let success_idx := default 0%nat (class_index (py "success") classes) in
       match proba !! success_idx with
       | Some p => ret p
       | None => raise IndexError
       end
     else
       _log WARNING MsgNoSuccessLabel >>
       ret float_zero)
    (fun _ => Some (logger_error (MsgPredictError otp) >> ret float_zero)).

(* --------------------------------------------------------------------- *)
(** *** The attacks of [HarpyAIOTP] *)

(** [hasattr(self.classifier, 'predict_proba')]: [predict_proba] is a
    method of the class [RandomForestClassifier], so every instance has the
    attribute, fitted or not. *)
Definition hasattr_predict_proba (c : option forest) : bool := true.

(** [rec["text"]] and [rec["status"]] of the dict that [verify] returned. *)
Definition is_hit (rec : pyval) : M bool :=
  match rec with
  | PDict d =>
      match dict_get d (py "text"), dict_get d (py "status") with
      | Some (PStr t), Some (PInt s) => ret (is_success t s)
      | None, _ | _, None => raise KeyError
      | _, _ => raise TypeError
      end
  | _ => raise TypeError
  end.

(** [f"{i:0{digits}d}" for i in range(10**digits)] *)
Definition candidates (digits : nat) : list pystr :=
  map (fun i => format_0d digits (N.of_nat i)) (seq 0 (10 ^ digits)).

(** [sorted(..., key=..., reverse=True)] on the candidates paired with
    their keys: descending keys, candidates with equal keys in their
    original order. *)
Fixpoint insert_desc (x : pystr * float) (l : list (pystr * float))
  : list (pystr * float) :=
  match l with
  | [] => [x]
  | y :: l' =>
      if float_ltb (snd x) (snd y) then y :: insert_desc x l' else x :: l
  end.

Definition sorted_desc (l : list (pystr * float)) : list pystr :=
  map fst (fold_right insert_desc [] l).

(** The key function is called once per candidate, in order. *)
Fixpoint rank_keys (cands : list pystr) : M (list (pystr * float)) :=
  match cands with
  | [] => ret []
  | c :: cands' =>
      let* k := predict_likelihood c in
      let* ks := rank_keys cands' in
      ret ((c, k) :: ks)
  end.

(** The loop of [ai_attack] over the ranked candidates. *)
Fixpoint ai_attack_loop (max_attempts : Z) (attempts : Z)
  (ranked : list pystr) : M unit :=
  match ranked with
  | [] => ret tt
  | otp :: ranked' =>
      let* rec := verify otp in
      let attempts := (attempts + 1)%Z in
      let* hit := is_hit rec in
      if hit then
        load_global "Fore" >>
        load_global "Style" >>
        logger_info (MsgCrackedByAI otp)
      else if (max_attempts <=? attempts)%Z then
        logger_info (MsgReachedMax max_attempts)
      else ai_attack_loop max_attempts attempts ranked'
  end.

Definition ai_attack (max_attempts : Z) (digits : nat) : M unit :=
  fun w =>
    if negb (hasattr_predict_proba (classifier (w_engine w))) then
      logger_error MsgNotTrained w
    else
      (logger_info (MsgGenerating (10 ^ N.of_nat digits)) >>
       let cands := candidates digits in
       logger_info MsgRanking >>
       let* keyed := rank_keys cands in
       let ranked := sorted_desc keyed in
       logger_info (MsgLaunchingAI max_attempts) >>
       ai_attack_loop max_attempts 0 ranked) w.

(** The loop of [adaptive_attack]: [i] runs over [range(max_attempts)]. *)
Fixpoint adaptive_attack_loop (digits : nat) (range : list nat) : M unit :=
  match range with
  | [] => ret tt
  | i :: range' =>
      let otp := format_0d digits (N.of_nat i) in
      let* rec := verify otp in
      let* hit := is_hit rec in
      if hit then
        load_global "Fore" >>
        load_global "Style" >>
        logger_info (MsgFound otp)
      else adaptive_attack_loop digits range'
  end.

Definition adaptive_attack (max_attempts : Z) (digits : nat) : M unit :=
  logger_info (MsgLaunchingAdaptive max_attempts) >>
  adaptive_attack_loop digits (seq 0 (Z.to_nat max_attempts)).

(* --------------------------------------------------------------------- *)
(** *** Persistence *)

(** [open(self.state_file, "w")] and [json.dump(self.history, f, indent=4)] *)
Definition write_state : M unit :=
  fun w =>
    let e := w_engine w in
    if w_writable w (state_file e) then
      (Ok tt,
       set_files (<[state_file e := Json.dumps (history e)]> (w_files w)) w)
    else (Raise OSError, w).

Definition save_state : M unit :=
  try_except
    (write_state >>
     fun w => logger_info (MsgStateSaved (state_file (w_engine w))) w)
    (fun _ =>
       Some (fun w => logger_error (MsgSaveError (state_file (w_engine w))) w)).

(** [open(self.state_file, "r")] and [self.history = json.load(f)] *)
Definition read_state : M unit :=
  fun w =>
    let e := w_engine w in
    match w_files w !! state_file e with
    | None => (Raise FileNotFoundError, w)
    | Some content =>
        match Json.loads content with
        | None => (Raise JSONDecodeError, w)
        | Some v => (Ok tt, set_engine (set_history v e) w)
        end
    end.

Definition load_state : M unit :=
  try_except
    (read_state >>
     fun w => logger_info (MsgStateLoaded (state_file (w_engine w))) w)
    (fun ex =>
       Some (fun w =>
         let file := state_file (w_engine w) in
         match ex with
         | FileNotFoundError => logger_warning (MsgNoSavedState file) w
         | JSONDecodeError => logger_error (MsgCorrupted file) w
         | _ => logger_error (MsgLoadUnexpected file) w
         end)).

(* ===================================================================== *)
(** ** [otp_attacker.py]: class [OTPAttacker] *)
(* ===================================================================== *)

(** The object has a base URL, a user and a session; it keeps no list of
    attempts. *)
Record OTPAttacker := {
  a_base_url : pystr;
  a_user_id : pystr
}.

Definition new_attacker (base_url user_id : pystr) : OTPAttacker :=
  {| a_base_url := rstrip_char Char.slash base_url; a_user_id := user_id |}.

(** The call of [verify_otp]: no proxies, no timeout. *)
Definition verify_otp_request (a : OTPAttacker) (otp : pystr) : Request :=
  {| req_url := a_base_url a ++ py "/auth/verify-otp";
     req_user_id := a_user_id a; req_otp := otp;
     req_proxies := None; req_timeout := None |}.

(** [verify_otp]: the status and the body of the response; there is no
    [try] around the call. *)
Definition verify_otp (a : OTPAttacker) (otp : pystr) : M (Z * pystr) :=
  let* r := session_post (verify_otp_request a otp) in
  ret (fst (fst r), snd (fst r)).

(** [itertools.product(alphabet, repeat=n)], each tuple joined. *)
Fixpoint product (alphabet : pystr) (n : nat) : list pystr :=
  match n with
  | O => [[]]
  | S n' => c ← alphabet; (fun t => c :: t) <$> product alphabet n'
  end.

(** The loop of [brute_force]; [print] and [time.sleep] leave no trace in
    the world. *)
Fixpoint brute_force_loop (a : OTPAttacker) (stop_on_success : bool)
  (otps : list pystr) : M unit :=
  match otps with
  | [] => ret tt
  | otp :: otps' =>
      let* r := verify_otp a otp in
      if is_success (lower (snd r)) (fst r) && stop_on_success then ret tt
      else brute_force_loop a stop_on_success otps'
  end.

Definition brute_force (a : OTPAttacker) (digits : nat)
  (stop_on_success : bool) : M unit :=
  brute_force_loop a stop_on_success (product (py "0123456789") digits).

(** [replay_attack] *)
Definition replay_attack (a : OTPAttacker) (known_otp : pystr)
  : M (list (Z * pystr)) :=
  let* r1 := verify_otp a known_otp in
  let* r2 := verify_otp a known_otp in
  let* r3 := verify_otp a known_otp in
  ret [r1; r2; r3].

(** What the thread that called [pool.map] has seen of the results: it
    takes the futures in the order of submission and waits for each; the
    first that holds an exception ends its wait. *)
Fixpoint seen_failure (futures : gmap nat (result (Z * pystr)))
  (tasks : list nat) : bool :=
  match tasks with
  | [] => false
  | t :: tasks' =>
      match futures !! t with
      | Some (Ok _) => seen_failure futures tasks'
      | Some (Raise _) => true
      | None => false
      end
  end.

(** The worker threads of the pool run the submitted calls in an order the
    scheduler chooses: at each step [choices] picks one of the calls that
    have not run yet.  A call that raises keeps its exception in its future;
    the world keeps what the call did.  The thread that collects the results
    leaves [pool.map] at the first future, in the order of submission, that
    holds an exception, and the calls that no worker has started are then
    cancelled: [choices] also tells, at each step, whether that thread gets
    there before the next call starts, which it can only once it has seen
    the exception.  The calls that did start are waited for when the [with]
    block is left. *)
Fixpoint run_pool (a : OTPAttacker) (known_otp : pystr)
  (tasks pending : list nat) (choices : list (nat * bool)) (steps : nat)
  (futures : gmap nat (result (Z * pystr))) (w : World)
  : gmap nat (result (Z * pystr)) * World :=
  match steps with
  | O => (futures, w)
  | S steps' =>
      let choice := hd (0%nat, false) choices in
      if snd choice && seen_failure futures tasks then (futures, w)
      else
        let pick := Nat.modulo (fst choice) (length pending) in
        match pending !! pick with
        | None => (futures, w)
        | Some task =>
            let (r, w') := verify_otp a known_otp w in
            run_pool a known_otp tasks (delete pick pending) (tl choices)
              steps' (<[task := r]> futures) w'
        end
  end.

(** [list(pool.map(...))]: the results in the order of submission; the
    first future that holds an exception raises it. *)
Fixpoint collect (futures : gmap nat (result (Z * pystr)))
  (tasks : list nat) : result (list (Z * pystr)) :=
  match tasks with
  | [] => Ok []
  | t :: tasks' =>
      match futures !! t with
      | Some (Ok r) =>
          match collect futures tasks' with
          | Ok rs => Ok (r :: rs)
          | Raise e => Raise e
          end
      | Some (Raise e) => Raise e
      | None => Raise ValueError
      end
  end.

(** [race_attack]: [ThreadPoolExecutor(max_workers=attempts)] refuses a
    number of workers that is not positive; [pool.map] submits the
    [attempts] calls, and leaving the [with] block waits for every call that
    was started. *)
Definition race_attack (a : OTPAttacker) (known_otp : pystr)
  (attempts : Z) (choices : list (nat * bool)) : M (list (Z * pystr)) :=
  fun w =>
    if (attempts <=? 0)%Z then (Raise ValueError, w)
    else
      let n := Z.to_nat attempts in
      let (futures, w') :=
        run_pool a known_otp (seq 0 n) (seq 0 n) choices n ∅ w in
      (collect futures (seq 0 n), w').

(* ===================================================================== *)
(** ** [run_harpy.py]: [proxy_alive] and class [ProxyMonitor] *)
(* ===================================================================== *)

Definition run_harpy_log (l : level) (m : message) : M unit :=
  logger_log run_harpy_logger l m.

(** [proxy_alive]: one probe, its result and what it logs. *)
Definition proxy_alive (url : pystr) (o : probe_outcome) : M bool :=
  let record b :=
    fun w => (Ok b, set_events (w_events w ++ [EvProbe url b]) w) in
  match o with
  | ProbeInvalidURL =>
      run_harpy_log ERROR (MsgInvalidProxyURL url) >> record false
  | ProbeConnected => record true
  | ProbeSocketError =>
      run_harpy_log DEBUG (MsgNotReachable url) >> record false
  | ProbeUnexpected =>
      run_harpy_log ERROR (MsgProbeUnexpected url) >> record false
  end.

(** [ProxyMonitor.__init__]: the object is stored at a fresh address. *)
Definition new_monitor (loc : nat) (url : pystr) (force : bool)
  (check_interval : Z) (o : probe_outcome) : M unit :=
  let* reachable := proxy_alive url o in
  (fun w =>
     (Ok tt,
      set_monitors
        (<[loc := {| proxy_url := url; force := force;
                     check_interval := check_interval; running := true;
                     alive := reachable |}]> (w_monitors w)) w)) >>
  run_harpy_log INFO (MsgMonitorInit url force).

Definition store_alive (loc : nat) (b : bool) : M unit :=
  fun w =>
    match w_monitors w !! loc with
    | None => (Raise AttributeError, w)
    | Some m =>
        (Ok tt,
         set_events (w_events w ++ [EvStoreAlive loc b])
           (set_monitors
              (<[loc := {| proxy_url := proxy_url m; force := force m;
                           check_interval := check_interval m;
                           running := running m; alive := b |}]>
                 (w_monitors w)) w))
    end.

(** [ProxyMonitor.stop] *)
Definition stop (loc : nat) : M unit :=
  (fun w =>
     match w_monitors w !! loc with
     | None => (Raise AttributeError, w)
     | Some m =>
         (Ok tt,
          set_monitors
            (<[loc := {| proxy_url := proxy_url m; force := force m;
                         check_interval := check_interval m;
                         running := false; alive := alive m |}]>
               (w_monitors w)) w)
     end) >>
  run_harpy_log INFO MsgMonitorStopped.

(** How the monitor thread ends, when it does. *)
Inductive monitor_status :=
| Looping          (* still in the loop when the observation ends *)
| Stopped          (* [self.running] was found false *)
| Down             (* [break] after the failed probe *)
| Exited (code : Z).  (* [os._exit] *)

(** What the thread meets at one turn of its loop: whether [stop] was
    called since the last turn, and what the probe finds. *)
Record tick := {
  stop_called : bool;
  probe : probe_outcome
}.

Definition sleep (seconds : Z) : M unit :=
  fun w => (Ok tt, set_events (w_events w ++ [EvSleep seconds]) w).

(** [ProxyMonitor._monitor], run against the turns [env]. *)
Fixpoint _monitor (loc : nat) (env : list tick) (w : World)
  : monitor_status * World :=
  match env with
  | [] => (Looping, w)
  | t :: env' =>
      let w0 := if stop_called t then snd (stop loc w) else w in
      match w_monitors w0 !! loc with
      | None => (Stopped, w0)
      | Some m =>
          if negb (running m) then (Stopped, w0)
          else
            match proxy_alive (proxy_url m) (probe t) w0 with
            | (Ok true, w1) =>
                _monitor loc env' (snd (sleep (check_interval m) w1))
            | (_, w1) =>
                let w2 := snd (store_alive loc false w1) in
                if force m then
                  let w3 :=
                    snd (run_harpy_log CRITICAL
                           (MsgWentDownAbort (proxy_url m)) w2) in
                  (Exited 1, set_events (w_events w3 ++ [EvExit 1]) w3)
                else
                  (Down,
                   snd (run_harpy_log WARNING
                          (MsgWentDownFallback (proxy_url m)) w2))
            end
      end
  end.

End Engine.

Notation "'let*' x := m 'in' k" := (bind m (fun x => k))
  (at level 10, x name, m at level 100, k at level 200).
Notation "m >> k" := (bind m (fun _ => k))
  (at level 100, k at level 200, right associativity).

(* ===================================================================== *)
(** ** [otp_attacker.py]: [random_bypass] *)
(* ===================================================================== *)

Section RandomBypass.
Context `{PyFloat} `{!Forest}.

(** [random.choice(seq)] on a sequence that is not empty: the element at
    the index that the generator draws, an index below [len(seq)]. *)
Definition random_choice (seq : pystr) (draw : nat) : N :=
  nth (Nat.modulo draw (length seq)) seq 0.

(** ["".join(random.choice("0123456789") for _ in range(6))] at turn [j] of
    the loop; [draws k] is what the generator draws at its [k]-th call. *)
Definition random_otp (draws : nat -> nat) (j : nat) : pystr :=
  map (fun k => random_choice (py "0123456789") (draws (6 * j + k)%nat))
    (seq 0 6).

(** The loop of [random_bypass]; [print] leaves no trace in the world. *)
Fixpoint random_bypass_loop (a : OTPAttacker) (draws : nat -> nat)
  (range : list nat) : M unit :=
  match range with
  | [] => ret tt
  | j :: range' =>
      let* r := verify_otp a (random_otp draws j) in
      random_bypass_loop a draws range'
  end.

Definition random_bypass (a : OTPAttacker) (attempts : Z)
  (draws : nat -> nat) : M unit :=
  random_bypass_loop a draws (seq 0 (Z.to_nat attempts)).

End RandomBypass.

(* ===================================================================== *)
(** ** [visualize] and [detect_proxy_type] *)
(* ===================================================================== *)

(** These two touch nothing of the world but a logger, [matplotlib] and
    [requests.get]: each is a function of the world it runs in and of what
    the libraries answer; the records it emits and the calls it makes are
    part of its result. *)

(** What the two log. *)
Inductive report :=
| MsgNoHistory
| MsgDisplayed
| MsgVisualizeError
| MsgDetectProxyError (url : pystr)
| MsgDetectRequestError (url : pystr)
| MsgDetectUnexpected (url : pystr).

(** The figure that [visualize] draws: [plt.scatter(range(len(times)),
    times, c=statuses, cmap="cool", marker="o")]. *)
Record scatter `{PyFloat} := {
  sc_x : list nat;
  sc_y : list pyval;
  sc_c : list pyval
}.

(** One call of [requests.get] and what it meets. *)
Record get_request := {
  get_url : pystr;
  get_proxies : pystr * pystr;            (* the [http] and [https] entries *)
  get_timeout : Z;
  get_verify : bool
}.

Record response := {
  r_status_code : Z;
  r_text : pystr;
  r_server : option pystr                 (* the [Server] header *)
}.

Inductive get_outcome :=
| GetResponds (r : response)
| GetFails (e : exn).

Section Diagnostics.
Context `{PyFloat} `{!Forest}.

(** The record of a logging call, when its level reaches the effective
    level of the logger. *)
Definition emit (n : logger_name) (l : level) (m : report) (w : World)
  : list (logger_name * level * report) :=
  if (levelno (effective_level n w) <=? levelno l)%Z then [(n, l, m)] else [].

(** [for h in v]: the elements of a list, the keys of a dict, the characters
    of a string; nothing else here can be iterated. *)
Definition iterate (v : pyval) : result (list pyval) :=
  match v with
  | PList l => Ok l
  | PDict d => Ok (map (fun kv => PStr (fst kv)) d)
  | PStr s => Ok (map (fun c => PStr [c]) s)
  | _ => Raise TypeError
  end.

(** [h[key]] with a string key: only a dict takes one. *)
Definition subscript (h : pyval) (key : pystr) : result pyval :=
  match h with
  | PDict d =>
      match dict_get d key with
      | Some v => Ok v
      | None => Raise KeyError
      end
  | _ => Raise TypeError
  end.

(** [[h[key] for h in hs]] *)
Fixpoint column (key : pystr) (hs : list pyval) : result (list pyval) :=
  match hs with
  | [] => Ok []
  | h :: hs' =>
      match subscript h key with
      | Raise e => Raise e
      | Ok v =>
          match column key hs' with
          | Raise e => Raise e
          | Ok vs => Ok (v :: vs)
          end
      end
  end.

(** [HarpyAIOTP.visualize]; [plt] tells whether the calls of [matplotlib]
    inside the [try] raise on the figure.  The result, the records emitted
    and the figure displayed. *)
Definition visualize (plt : scatter -> result unit) (w : World)
  : result unit * list (logger_name * level * report) * option scatter :=
  let h := history (w_engine w) in
  if negb (truthy h) then
    (Ok tt, emit harpy_ai_otp_logger WARNING MsgNoHistory w, None)
  else
    match iterate h with
    | Raise e => (Raise e, [], None)
    | Ok hs =>
        match column (py "time") hs with
        | Raise e => (Raise e, [], None)
        | Ok times =>
            match column (py "status") hs with
            | Raise e => (Raise e, [], None)
            | Ok statuses =>
                let figure :=
                  {| sc_x := seq 0 (length times); sc_y := times;
                     sc_c := statuses |} in
                match plt figure with
                | Ok _ =>
                    (Ok tt, emit harpy_ai_otp_logger INFO MsgDisplayed w,
                     Some figure)
                | Raise _ =>
                    (Ok tt, emit harpy_ai_otp_logger ERROR MsgVisualizeError w,
                     None)
                end
            end
        end
    end.

(** [requests.get(url, proxies={"http": proxy_url, "https": proxy_url},
    timeout=..., verify=False)] *)
Definition probe_request (proxy_url url : pystr) (timeout : Z)
  : get_request :=
  {| get_url := url; get_proxies := (proxy_url, proxy_url);
     get_timeout := timeout; get_verify := false |}.

(** ["version" in v] *)
Definition contains_version (v : pyval) : result bool :=
  match v with
  | PDict d => Ok (bool_decide (is_Some (dict_get d (py "version"))))
  | PList l =>
      Ok (existsb (fun x => match x with
                            | PStr s => str_eqb s (py "version")
                            | _ => false
                            end) l)
  | PStr s => Ok (str_contains (py "version") s)
  | _ => Raise TypeError
  end.

(** [zap_r.json()]: the body read as JSON; a body that is not JSON raises
    the [JSONDecodeError] of [requests], an [InvalidJSONError]. *)
Definition response_json (r : response) : result pyval :=
  match Json.loads (r_text r) with
  | Some v => Ok v
  | None => Raise (Requests InvalidJSONError)
  end.

(** [except (requests.exceptions.RequestException, ValueError)] *)
Definition zap_probe_caught (e : exn) : bool :=
  match e with
  | Requests _ => true
  | _ => is_ValueError e
  end.

(** The second probe of [detect_proxy_type], from [urlparse(proxy_url)] to
    the end of the inner [try]: whether the proxy answered as ZAP does, and
    the calls made so far.  [urlparse] gives the scheme and the netloc. *)
Definition zap_probe (urlparse : pystr -> result (pystr * pystr))
  (get : list get_request -> get_request -> get_outcome)
  (proxy_url : pystr) (sent : list get_request)
  : result bool * list get_request :=
  match urlparse proxy_url with
  | Raise e => (Raise e, sent)
  | Ok (scheme, netloc) =>
      let zap_api_url :=
        scheme ++ py "://" ++ netloc ++ py "/JSON/core/view/version/" in
      let rq := probe_request proxy_url zap_api_url 2 in
      let answered :=
        match get sent rq with
        | GetFails e => Raise e
        | GetResponds zap_r =>
            if (r_status_code zap_r =? 200)%Z then
              match response_json zap_r with
              | Ok v => contains_version v
              | Raise e => Raise e
              end
            else Ok false
        end in
      (match answered with
       | Raise e => if zap_probe_caught e then Ok false else Raise e
       | Ok b => Ok b
       end, sent ++ [rq])
  end.

(** The body of the outer [try] of [detect_proxy_type]. *)
Definition detect_proxy_type_body
  (urlparse : pystr -> result (pystr * pystr))
  (get : list get_request -> get_request -> get_outcome)
  (proxy_url : pystr) : result pystr * list get_request :=
  let rq := probe_request proxy_url (py "http://example.com") 3 in
  match get [] rq with
  | GetFails e => (Raise e, [rq])
  | GetResponds r =>
      if str_contains (py "Burp Suite") (r_text r)
         || str_contains (py "burp") (lower (default [] (r_server r)))
      then (Ok (py "Burp Suite"), [rq])
      else
        match zap_probe urlparse get proxy_url [rq] with
        | (Ok true, sent) => (Ok (py "OWASP ZAP"), sent)
        | (Ok false, sent) => (Ok (py "Unknown Proxy"), sent)
        | (Raise e, sent) => (Raise e, sent)
        end
  end.

(** [detect_proxy_type]: the result, the calls made and the records
    emitted. *)
Definition detect_proxy_type (urlparse : pystr -> result (pystr * pystr))
  (get : list get_request -> get_request -> get_outcome)
  (proxy_url : pystr) (w : World)
  : result pystr * list get_request * list (logger_name * level * report) :=
  match detect_proxy_type_body urlparse get proxy_url with
  | (Ok kind, sent) => (Ok kind, sent, [])
  | (Raise e, sent) =>
      (Ok (py "Unreachable"), sent,
       match e with
       | Requests c =>
           if issubclass c ProxyError
           then emit run_harpy_logger DEBUG (MsgDetectProxyError proxy_url) w
           else emit run_harpy_logger DEBUG (MsgDetectRequestError proxy_url) w
       | _ => emit run_harpy_logger ERROR (MsgDetectUnexpected proxy_url) w
       end)
  end.

End Diagnostics.

(* ===================================================================== *)
(** * The vocabulary of the statements *)
(* ===================================================================== *)

Import Json.

(* --------------------------------------------------------------------- *)
(** ** Text *)

(** The text after a number: the end, or a character that cannot continue
    the number. *)
Definition number_end (rest : pystr) : bool :=
  match rest with
  | [] => true
  | c :: _ => negb (isdigit c || (c =? 46) || (c =? 101) || (c =? 69))
  end.

(** The text after a run of digits. *)
Definition digit_end (rest : pystr) : bool :=
  match rest with
  | [] => true
  | c :: _ => negb (isdigit c)
  end.

(** A Unicode scalar value: a code point that is not a surrogate.  Text
    decoded from a response or typed as digits has no other code points. *)
Definition scalar (c : N) : bool :=
  (c <? 0x110000) && negb ((0xd800 <=? c) && (c <=? 0xdfff)).

(** A string of scalar values. *)
Definition scalar_str (s : pystr) : Prop :=
  Forall (fun c => scalar c = true) s.

(** One more character in front of what [scanstring] read. *)
Definition scan_cons (c : N) (r : option (pystr * pystr))
  : option (pystr * pystr) :=
  match r with
  | Some (str, rest) => Some (c :: str, rest)
  | None => None
  end.

(* --------------------------------------------------------------------- *)
(** ** Values and records *)

Section ValueVocabulary.
Context `{PyFloat}.

(** The text after a value inside what [iterencode] writes: the end, a
    comma or a new line. *)
Definition value_end (rest : pystr) : bool :=
  match rest with
  | [] => true
  | c :: _ => (c =? 44) || (c =? 10)
  end.

(** The first character of the text of a value. *)
Definition value_start (t : pystr) : Prop :=
  exists c t', t = c :: t' /\ is_ws c = false /\ c <> 93 /\ c <> 125
               /\ c <> 0xfeff.

(** [v] is read back from its text at every indentation level, followed by
    anything that can follow a value. *)
Definition reads_back (v : pyval) : Prop :=
  (forall level, value_start (iterencode level v)) /\
  (forall fuel level rest,
     (length (iterencode level v) <= fuel)%nat ->
     value_end rest = true ->
     scan_once fuel (iterencode level v ++ rest) = Some (v, rest)).

(** The records the engine can hold: text without surrogate code points,
    and a number for the time. *)
Definition wf_record (r : AttemptRecord) : Prop :=
  scalar_str (otp r) /\ scalar_str (text r) /\
  match time r with
  | PInt _ | PFloat _ => True
  | _ => False
  end.
(** The values whose text [loads] reads back: strings without surrogate
    code points, dicts without a repeated key. *)
Fixpoint json_wf (v : pyval) : Prop :=
  match v with
  | PStr s => scalar_str s
  | PList l =>
      (fix all (l : list pyval) : Prop :=
         match l with
         | [] => True
         | x :: l' => json_wf x /\ all l'
         end) l
  | PDict d =>
      NoDup (map fst d) /\
      (fix all (d : list (pystr * pyval)) : Prop :=
         match d with
         | [] => True
         | (k, x) :: d' => (scalar_str k /\ json_wf x) /\ all d'
         end) d
  | _ => True
  end.

End ValueVocabulary.

(* --------------------------------------------------------------------- *)
(** ** Worlds, networks, events *)

Section EngineVocabulary.
Context `{PyFloat} `{!Forest}.

(** Two worlds that differ in the log only. *)
Definition same_but_log (w w' : World) : Prop :=
  w_engine w' = w_engine w /\ w_monitors w' = w_monitors w /\
  w_net w' = w_net w /\ w_sent w' = w_sent w /\
  w_logger_level w' = w_logger_level w /\ w_files w' = w_files w /\
  w_writable w' = w_writable w /\ w_events w' = w_events w.

(** The sentinel record of a failure class. *)
Definition sentinel (otp : pystr) (c : requests_exception) : pyval :=
  if issubclass c ProxyError then
    make_record otp 999 (py "proxy_error") (PInt 0)
  else if issubclass c ConnectionError then
    make_record otp 998 (py "connection_error") (PInt 0)
  else if issubclass c Timeout then
    make_record otp 997 (py "timeout_error") (PInt 0)
  else make_record otp 996 (py "request_error") (PInt 0).

(** A network that answers every call, never with a hit. *)
Definition never_hits (net : list Request -> Request -> post_outcome)
  : Prop :=
  forall sent req, exists st tx el,
    net sent req = Responds st tx el /\
    is_success (lower (strip tx)) st = false.

(** A network that answers every call, never with what [brute_force]
    takes for a hit: it lowers the body and does not strip it. *)
Definition never_succeeds (net : list Request -> Request -> post_outcome)
  : Prop :=
  forall sent req, exists st tx el,
    net sent req = Responds st tx el /\
    is_success (lower tx) st = false.

(** An event of a monitor that has met no failure: a probe that found the
    proxy, or a sleep. *)
Definition quiet (e : monitor_event) : Prop :=
  match e with
  | EvProbe _ true | EvSleep _ => True
  | _ => False
  end.

(** A network that answers every call. *)
Definition always_responds (net : list Request -> Request -> post_outcome)
  : Prop :=
  forall sent req, exists st tx el, net sent req = Responds st tx el.

(** The records that carry the [fail] label. *)
Definition fails (r : AttemptRecord) : Prop :=
  is_success (text r) (status r) = false.

(** Whether a message that satisfies [p] was logged. *)
Definition logged (p : message -> bool) (w : World) : bool :=
  existsb (fun r => p (snd r)) (w_log w).

(** Recognizers of messages. *)
Definition is_not_trained (m : message) : bool :=
  match m with MsgNotTrained => true | _ => false end.

Definition is_trained (m : message) : bool :=
  match m with MsgTrained => true | _ => false end.

Definition is_train_error (m : message) : bool :=
  match m with MsgTrainValueError | MsgTrainUnexpected => true | _ => false end.

(** A text as a Rocq string, the double quotes shown as apostrophes. *)
Definition display (s : pystr) : string :=
  string_of_list_ascii
    (map (fun c => ascii_of_N (if c =? Char.quote then 39 else c)) s).
End EngineVocabulary.

(* --------------------------------------------------------------------- *)
(** ** Numerals and characters *)

(** The number that a string of decimal digits writes, [int(s)]. *)
Definition decimal_value (s : pystr) : N :=
  fold_left (fun a c => 10 * a + digit_value c) s 0.

(** A string of ASCII digits. *)
Definition digit_str (s : pystr) : Prop :=
  Forall (fun c => isdigit c = true) s.

(** A character of the state file: a new line or a printable ASCII
    character. *)
Definition printable (c : N) : bool :=
  (c =? 10) || ((32 <=? c) && (c <=? 126)).

(** A text of such characters. *)
Abbreviation ascii_text := (Forall (fun c => printable c = true)).

(* --------------------------------------------------------------------- *)
(** ** Labels, hits and answers *)

Section ModelVocabulary.
Context `{PyFloat} `{!Forest}.

(** The first character of the text, when there is one, is an ASCII one.
    The model has [isdigit] and [int] on the ASCII digits; on such a text
    the first digit that it computes is the one that Python computes. *)
Definition ascii_head (s : pystr) : Prop :=
  match s with
  | c :: _ => c < 128
  | [] => True
  end.

(** Whether the record carries the [success] label. *)
Definition succeeded (r : AttemptRecord) : bool :=
  is_success (text r) (status r).

(** The classes of the encoder after a fit on the labels of the records:
    the labels that occur, [fail] before [success]. *)
Definition classes_of (recs : list AttemptRecord) : list pystr :=
  (if forallb succeeded recs then [] else [py "fail"])
  ++ (if existsb succeeded recs then [py "success"] else []).

(** The position of [success] among them. *)
Definition success_index (recs : list AttemptRecord) : nat :=
  if forallb succeeded recs then 0 else 1.

(** The labels of the records as the encoder transforms them. *)
Definition encoded_labels (recs : list AttemptRecord) : list nat :=
  map (fun r => if succeeded r then success_index recs else 0%nat) recs.

(** The features that [predict_likelihood] builds for a candidate. *)
Definition candidate_features (otp : pystr) : list pyval :=
  [PInt (Z.of_nat (length otp)); PInt (first_digit otp); PInt 200;
   PFloat float_tenth].

End ModelVocabulary.

Section AttackVocabulary.
Context `{PyFloat} `{!Forest}.

(** A network that answers every call, with a hit for the candidate
    [target] and for no other: a body that holds [success], in any case of
    its letters, or the status 200. *)
Definition hits_exactly (net : list Request -> Request -> post_outcome)
  (target : pystr) : Prop :=
  forall sent req, exists st tx el,
    net sent req = Responds st tx el /\
    is_success (lower (strip tx)) st = bool_decide (req_otp req = target).

(** The candidate of [adaptive_attack] at turn [i]. *)
Definition numeral (digits : nat) (i : nat) : pystr :=
  format_0d digits (N.of_nat i).

End AttackVocabulary.

Section DiagnosticsVocabulary.
Context `{PyFloat} `{!Forest}.

(** The four answers of [detect_proxy_type]. *)
Definition proxy_kinds : list pystr :=
  [py "Burp Suite"; py "OWASP ZAP"; py "Unknown Proxy"; py "Unreachable"].

(** The marks of Burp in a response: [Burp Suite] in the body, or [burp]
    in the [Server] header, in any case. *)
Definition burp_marks (r : response) : bool :=
  str_contains (py "Burp Suite") (r_text r)
  || str_contains (py "burp") (lower (default [] (r_server r))).

(** The first and the second call of [detect_proxy_type]. *)
Definition example_probe (proxy_url : pystr) : get_request :=
  probe_request proxy_url (py "http://example.com") 3.

Definition zap_version_probe (proxy_url scheme netloc : pystr)
  : get_request :=
  probe_request proxy_url
    (scheme ++ py "://" ++ netloc ++ py "/JSON/core/view/version/") 2.

(** A history entry that is a dict, and one that has no [time]. *)
Definition is_dict (h : pyval) : Prop :=
  match h with PDict _ => True | _ => False end.

Definition lacks_time (h : pyval) : Prop :=
  match h with
  | PDict d => dict_get d (py "time") = None
  | _ => False
  end.

End DiagnosticsVocabulary.

(* --------------------------------------------------------------------- *)
(** ** Instances and worlds to run the model on *)

Module Examples.

Lemma tenths_wf n : wf_float_literal (tenths_repr n) = true.
Proof.
  unfold wf_float_literal, tenths_repr. simpl.
  destruct (n mod 10) as [|p]; [reflexivity |]. simpl.
  pose proof (DecimalPos.Unsigned.to_uint_nonnil p).
  destruct (Pos.to_uint p); auto; congruence.
Qed.

Lemma tenths_of_repr n : Some (tenths_of_literal (tenths_repr n)) = Some n.
Proof.
  f_equal. unfold tenths_of_literal, tenths_repr. simpl.
  pose proof (N.mod_upper_bound n 10 ltac:(lia)) as Hd.
  pose proof (N.div_mod n 10 ltac:(lia)) as Hn.
  revert Hd Hn. generalize (n / 10) (n mod 10). intros q d Hd Hn.
  assert (Hf : first_digit_of (N.to_uint d) = d).
  { assert (Hc : d = 0 \/ d = 1 \/ d = 2 \/ d = 3 \/ d = 4 \/ d = 5
                 \/ d = 6 \/ d = 7 \/ d = 8 \/ d = 9) by lia.
    repeat (destruct Hc as [-> | Hc]; [reflexivity |]). now subst. }
  lia.
Qed.

(** Floats with one decimal: [n] stands for [n/10]. *)
#[export] Instance tenths : PyFloat := {|
  float := N;
  float_zero := 0;
  float_tenth := 1;
  float_ltb := N.ltb;
  float_repr := tenths_repr;
  float_of_literal := fun l => Some (tenths_of_literal l);
  float_ltb_irrefl := N.ltb_irrefl;
  float_repr_wf := tenths_wf;
  float_of_repr := tenths_of_repr
|}.

(** An estimator that stands for the forest in examples.  As
    [RandomForestClassifier.fit] does, it accepts any sample that is not
    empty, also one whose labels are all of one class; it predicts every
    class of the sample with its frequency there. *)
Definition frequency_fit (X : list (list pyval)) (y : list nat)
  : result (list nat) :=
  match X with
  | [] => Raise ValueError
  | _ => Ok y
  end.

(** The frequencies, in tenths. *)
Definition frequency_predict_proba (y : list nat) (features : list pyval)
  : result (list N) :=
  Ok (map (fun c =>
             N.of_nat (10 * length (filter (fun l => l = c) y) / length y))
        (seq 0 (S (list_max y)))).

#[export] Instance frequency_forest : Forest := {|
  forest := list nat;
  forest_fit := frequency_fit;
  forest_predict_proba := frequency_predict_proba
|}.

(** A server that answers every call with the same status and body, in
    three tenths of a second. *)
Definition always (status_code : Z) (body : string)
  : list Request -> Request -> post_outcome :=
  fun _ _ => Responds status_code (py body) (3 : N).

(** A network on which every call fails with the given exception. *)
Definition failing (e : exn) : list Request -> Request -> post_outcome :=
  fun _ _ => Fails e.

(** The engine of the scenarios: [base_url="https://t.test"],
    [user_id="u1"], no proxy, no monitor, nothing on disk. *)
Definition fresh_world (net : list Request -> Request -> post_outcome)
  : World :=
  init (py "https://t.test") (py "u1") (py "/auth/verify-otp") None true None
    {| w_engine := new_engine [] [] [] None true None;
       w_monitors := ∅; w_net := net; w_sent := []; w_log := [];
       w_logger_level := None; w_files := ∅;
       w_writable := fun _ => true; w_events := [] |}.

(** An engine that has made one attempt. *)
Definition after_one_attempt : World :=
  snd (verify (py "000") (fresh_world (always 400 "Bad OTP"))).

(** The record of that attempt. *)
Definition one_attempt : list AttemptRecord :=
  [{| otp := py "000"; status := 400; text := py "bad otp";
      time := PFloat (3 : N) |}].

(** A world whose state file holds the given text. *)
Definition with_file (content : string) (w : World) : World :=
  set_files (<[state_file (w_engine w) := py content]> (w_files w)) w.

(** The address of the intercepting proxy. *)
Definition burp : pystr := py "http://127.0.0.1:8080".

(** An engine behind a proxy, with a monitor that found the proxy alive
    when it was created. *)
Definition monitored_world : World :=
  snd (new_monitor 0 burp false 5 ProbeConnected
         (init (py "https://t.test") (py "u1") (py "/auth/verify-otp")
            (Some burp) true (Some 0%nat)
            (fresh_world (always 400 "Bad OTP")))).

(** Turns of the monitor loop: the proxy answers, the proxy is down. *)
Definition up : tick := {| stop_called := false; probe := ProbeConnected |}.

Definition down : tick :=
  {| stop_called := false; probe := ProbeSocketError |}.

(** The monitor object as its constructor leaves it. *)
Definition the_monitor : ProxyMonitor :=
  {| proxy_url := burp; force := false; check_interval := 5;
     running := true; alive := true |}.

(** What the monitor thread does against [up; up; down]. *)
Definition observed : list monitor_event :=
  [EvProbe burp true; EvSleep 5; EvProbe burp true; EvSleep 5;
   EvProbe burp false; EvStoreAlive 0 false].

(** The attacker object of the race examples. *)
Definition the_attacker : OTPAttacker :=
  new_attacker (py "https://t.test/") (py "u1").
End Examples.

(* --------------------------------------------------------------------- *)
(** ** More worlds and oracles to run the model on *)

Module Scenarios.
Import Examples.

(** A server that accepts the one candidate [secret]: 200 for it, 400 for
    every other. *)
Definition accepting (secret : string)
  : list Request -> Request -> post_outcome :=
  fun _ req =>
    if bool_decide (req_otp req = py secret)
    then Responds 200 (py "OK") (3 : N)
    else Responds 400 (py "Bad OTP") (3 : N).

(** An engine after a failed and a successful attempt. *)
Definition after_two_attempts : World :=
  snd (verify (py "001")
         (snd (verify (py "000") (fresh_world (accepting "001"))))).

Definition two_attempts : list AttemptRecord :=
  [{| otp := py "000"; status := 400; text := py "bad otp";
      time := PFloat (3 : N) |};
   {| otp := py "001"; status := 200; text := py "ok";
      time := PFloat (3 : N) |}].

(** An engine built with [debug=True] after one built with [debug=False]. *)
Definition second_engine : World :=
  init (py "https://t.test") (py "u2") (py "/auth/verify-otp") None true None
    (init (py "https://t.test") (py "u1") (py "/auth/verify-otp") None false
       None (fresh_world (always 400 "Bad OTP"))).

(** An engine behind a proxy that refers to a monitor not yet built. *)
Definition unmonitored_world : World :=
  init (py "https://t.test") (py "u1") (py "/auth/verify-otp")
    (Some burp) true (Some 0%nat) (fresh_world (always 400 "Bad OTP")).

(** The same engine with a monitor in force mode. *)
Definition forced_world : World :=
  snd (new_monitor 0 burp true 5 ProbeConnected unmonitored_world).

Definition forced_monitor : ProxyMonitor :=
  {| proxy_url := burp; force := true; check_interval := 5;
     running := true; alive := true |}.

(** The same engine with a monitor that found the proxy down when it was
    built. *)
Definition down_world : World :=
  snd (new_monitor 0 burp false 5 ProbeSocketError unmonitored_world).

Definition down_monitor : ProxyMonitor :=
  {| proxy_url := burp; force := false; check_interval := 5;
     running := true; alive := false |}.

(** [urlparse] on the address of the proxy. *)
Definition urlparse_burp : pystr -> result (pystr * pystr) :=
  fun _ => Ok (py "http", py "127.0.0.1:8080").

(** A proxy that passes the first call on and answers the version call
    with the given body. *)
Definition version_endpoint (body : pystr)
  : list get_request -> get_request -> get_outcome :=
  fun sent _ =>
    match sent with
    | [] => GetResponds {| r_status_code := 200; r_text := py "Example Domain";
                           r_server := Some (py "ECS") |}
    | _ => GetResponds {| r_status_code := 200; r_text := body;
                          r_server := None |}
    end.

(** The body that ZAP sends, an object with the key [version]. *)
Definition zap_body : pystr :=
  Json.dumps (PDict [(py "version", PStr (py "2.14.0"))]).

(** A generator that draws 0, 1, 2, ... *)
Definition counting : nat -> nat := fun k => k.

(** A display that works. *)
Definition display_ok : scatter -> result unit := fun _ => Ok tt.

End Scenarios.

(* ===================================================================== *)
(** * Properties *)
(* ===================================================================== *)

(* --------------------------------------------------------------------- *)
(** ** Decimal numerals and the number pattern *)

Module JsonFacts.
Import Json.

Lemma N_eqb_neq (a b : N) : a <> b -> (a =? b) = false.
Proof. apply N.eqb_neq. Qed.

(** Rewriting of the character tests once the character is known to be
    different from, or outside the range of, the constant tested. *)
Ltac char_tests :=
  repeat match goal with
  | |- context [(?a =? ?b)] =>
      first [ rewrite (N_eqb_neq a b) by lia
            | rewrite (proj2 (N.eqb_eq a b)) by lia ]
  | |- context [(?a <=? ?b)] =>
      first [ rewrite (proj2 (N.leb_le a b)) by lia
            | rewrite (proj2 (N.leb_gt a b)) by lia ]
  | |- context [(?a <? ?b)] =>
      first [ rewrite (proj2 (N.ltb_lt a b)) by lia
            | rewrite (proj2 (N.ltb_ge a b)) by lia ]
  end.

Lemma number_end_inv c rest :
  number_end (c :: rest) = true ->
  (c < 48 \/ 57 < c) /\ c <> 46 /\ c <> 101 /\ c <> 69.
Proof.
  unfold number_end, isdigit. intros Hn.
  apply negb_true_iff in Hn.
  repeat (apply orb_false_iff in Hn; destruct Hn as [Hn ?]).
  apply andb_false_iff in Hn.
  repeat match goal with H : (_ =? _) = false |- _ => apply N.eqb_neq in H end.
  rewrite N.leb_gt in Hn. rewrite N.leb_gt in Hn. lia.
Qed.

Lemma digit_end_inv c rest :
  digit_end (c :: rest) = true -> c < 48 \/ 57 < c.
Proof.
  unfold digit_end, isdigit. intros Hn.
  apply negb_true_iff, andb_false_iff in Hn.
  rewrite !N.leb_gt in Hn. lia.
Qed.

Lemma number_end_digit_end rest : number_end rest = true -> digit_end rest = true.
Proof.
  destruct rest as [|c rest]; [reflexivity|]. intros Hn.
  apply number_end_inv in Hn. unfold digit_end, isdigit.
  apply negb_true_iff, andb_false_iff. rewrite !N.leb_gt. lia.
Qed.

Lemma digit_of_char_none c : c < 48 \/ 57 < c -> digit_of_char c = None.
Proof. intros Hc. unfold digit_of_char. now char_tests. Qed.

Lemma span_digits_chars (u : Decimal.uint) (rest : pystr) :
  digit_end rest = true ->
  span_digits (chars_of_uint u ++ rest) = (u, rest).
Proof.
  intros Hr. induction u; simpl; try (rewrite IHu; reflexivity).
  destruct rest as [|c rest]; [reflexivity|].
  apply digit_end_inv in Hr. simpl.
  rewrite digit_of_char_none by tauto. reflexivity.
Qed.

Lemma to_uint_head (p : positive) :
  exists c t, chars_of_uint (Pos.to_uint p) = c :: t /\ 49 <= c <= 57.
Proof.
  pose proof (DecimalPos.Unsigned.to_uint_nonzero p) as Hnz.
  pose proof (DecimalPos.Unsigned.to_uint_nonnil p) as Hnn.
  pose proof (DecimalPos.Unsigned.to_of (Pos.to_uint p)) as Hto.
  rewrite DecimalPos.Unsigned.of_to in Hto. simpl in Hto.
  destruct (Pos.to_uint p) as [|u|u|u|u|u|u|u|u|u|u] eqn:E;
    try (simpl; eexists _, _; split; [reflexivity | lia]).
  - congruence.
  - exfalso. rewrite unorm_D0 in Hto.
    unfold unorm in Hto. pose proof (nzhead_nonzero u u) as Hh.
    destruct (nzhead u); congruence.
Qed.

Lemma str_of_N_nonempty (n : N) :
  exists c t, str_of_N n = c :: t /\ 48 <= c <= 57.
Proof.
  destruct n as [|p].
  - exists 48, []. split; [reflexivity | lia].
  - destruct (to_uint_head p) as (c & t & E & Hc).
    exists c, t. split; [exact E | lia].
Qed.

Lemma match_integer_str_of_N (n : N) (rest : pystr) :
  digit_end rest = true ->
  match_integer (str_of_N n ++ rest) = Some (n, rest).
Proof.
  intros Hr. destruct n as [|p].
  - reflexivity.
  - pose proof (span_digits_chars (Pos.to_uint p) rest Hr) as Hs.
    destruct (to_uint_head p) as (c & t & E & Hc).
    unfold str_of_N. simpl N.to_uint. rewrite E in *. simpl app in *.
    unfold match_integer, isdigit. char_tests. simpl andb. cbv iota.
    rewrite Hs. do 2 f_equal.
    exact (DecimalN.Unsigned.of_to (Npos p)).
Qed.

Lemma match_frac_end rest : number_end rest = true -> match_frac rest = (None, rest).
Proof.
  destruct rest as [|c [|d r]]; try reflexivity; intros Hn;
    apply number_end_inv in Hn; unfold match_frac, Char.dot; now char_tests.
Qed.

Lemma match_exp_end rest : number_end rest = true -> match_exp rest = (None, rest).
Proof.
  destruct rest as [|c r]; try reflexivity; intros Hn;
    apply number_end_inv in Hn; unfold match_exp; now char_tests.
Qed.

Lemma chars_of_uint_head (u : Decimal.uint) :
  uint_nonnil u = true ->
  exists c t, chars_of_uint u = c :: t /\ 48 <= c <= 57.
Proof.
  destruct u; simpl; try discriminate; intros _; eexists _, _; (split; [reflexivity | lia]).
Qed.

Lemma match_frac_some (u : Decimal.uint) rest :
  uint_nonnil u = true -> digit_end rest = true ->
  match_frac (Char.dot :: chars_of_uint u ++ rest) = (Some u, rest).
Proof.
  intros Hu Hr. pose proof (span_digits_chars u rest Hr) as Hs.
  destruct (chars_of_uint_head u Hu) as (c & t & E & Hc).
  rewrite E in *. simpl app in *. unfold match_frac, isdigit, Char.dot.
  char_tests. simpl andb. cbv iota. now rewrite Hs.
Qed.

Lemma match_exp_some (sg : option bool) (u : Decimal.uint) rest :
  uint_nonnil u = true -> digit_end rest = true ->
  match_exp (101 :: sign_chars sg ++ chars_of_uint u ++ rest)
  = (Some (sg, u), rest).
Proof.
  intros Hu Hr. pose proof (span_digits_chars u rest Hr) as Hs.
  destruct (chars_of_uint_head u Hu) as (c & t & E & Hc).
  rewrite E in *. simpl app in *. unfold match_exp, isdigit.
  destruct sg as [[|]|]; simpl; unfold Char.plus, Char.minus; char_tests; simpl;
  unfold isdigit; char_tests; simpl in Hs |- *; now rewrite Hs.
Qed.

Lemma match_sign_digits (n : N) rest :
  match_sign (str_of_N n ++ rest) = (false, str_of_N n ++ rest).
Proof.
  destruct (str_of_N_nonempty n) as (c & t & E & Hc). rewrite E. simpl.
  unfold Char.minus. now char_tests.
Qed.

Lemma match_number_int (z : Z) rest :
  number_end rest = true ->
  match_number (str_of_Z z ++ rest)
  = Some (NumInt (z <? 0)%Z (Z.abs_N z), rest).
Proof.
  intros Hr. pose proof (number_end_digit_end _ Hr) as Hd.
  unfold match_number.
  destruct z as [|p|p]; unfold str_of_Z.
  - simpl. rewrite match_frac_end, match_exp_end by assumption. reflexivity.
  - change (Z.to_N (Z.pos p)) with (N.pos p).
    rewrite match_sign_digits.
    rewrite match_integer_str_of_N by assumption.
    rewrite match_frac_end, match_exp_end by assumption. reflexivity.
  - simpl app. simpl match_sign. cbv beta iota.
    rewrite match_integer_str_of_N by assumption.
    rewrite match_frac_end, match_exp_end by assumption. reflexivity.
Qed.

Lemma match_number_float (l : float_literal) rest :
  wf_float_literal l = true ->
  number_end rest = true ->
  match_number (chars_of_float_literal l ++ rest) = Some (NumFloat l, rest).
Proof.
  intros Hwf Hr. pose proof (number_end_digit_end _ Hr) as Hd.
  destruct l as [neg n fr ex]. unfold chars_of_float_literal, wf_float_literal in *.
  simpl in *. unfold match_number.
  rewrite <- !app_assoc.
  assert (Hsign : forall t, match_sign ((if neg then [Char.minus] else []) ++ str_of_N n ++ t)
                   = (neg, str_of_N n ++ t)).
  { intros t. destruct neg; [reflexivity | apply match_sign_digits]. }
  rewrite Hsign.
  destruct fr as [fu|], ex as [[sg eu]|]; try discriminate.
  - apply andb_true_iff in Hwf as [Hf He].
    rewrite match_integer_str_of_N by reflexivity.
    simpl app. rewrite <- app_assoc.
    rewrite (match_frac_some fu) by (assumption || reflexivity).
    rewrite (match_exp_some sg eu rest) by assumption. reflexivity.
  - rewrite andb_true_r in Hwf.
    rewrite match_integer_str_of_N by reflexivity.
    simpl app.
    rewrite (match_frac_some fu) by assumption.
    rewrite match_exp_end by assumption. reflexivity.
  - simpl in Hwf.
    rewrite match_integer_str_of_N by reflexivity.
    simpl app. rewrite <- app_assoc.
    assert (Hfr : forall t, match_frac (101 :: t) = (None, 101 :: t)).
    { intros [|d t]; reflexivity. }
    rewrite Hfr.
    rewrite (match_exp_some sg eu rest) by assumption. reflexivity.
Qed.

(* --------------------------------------------------------------------- *)
(** ** String escapes *)

Lemma scalar_inv c : scalar c = true -> c < 0xd800 \/ (0xdfff < c /\ c < 0x110000).
Proof.
  unfold scalar. intros Hs. apply andb_true_iff in Hs as [Hlt Hs].
  apply negb_true_iff, andb_false_iff in Hs.
  rewrite N.ltb_lt in Hlt. rewrite !N.leb_gt in Hs. lia.
Qed.

Lemma hexval_hexdigit d : d < 16 -> hexval (hexdigit d) = Some d.
Proof.
  intros Hd.
  assert (Hc : d = 0 \/ d = 1 \/ d = 2 \/ d = 3 \/ d = 4 \/ d = 5 \/ d = 6
               \/ d = 7 \/ d = 8 \/ d = 9 \/ d = 10 \/ d = 11 \/ d = 12
               \/ d = 13 \/ d = 14 \/ d = 15) by lia.
  repeat (destruct Hc as [-> | Hc]; [reflexivity |]). now subst.
Qed.

Lemma decode_hex4 n rest :
  n < 65536 -> decode_uXXXX (hex4 n ++ rest) = Some (n, rest).
Proof.
  intros Hn. unfold hex4, decode_uXXXX. simpl app. cbv beta iota.
  rewrite !hexval_hexdigit by (apply N.mod_upper_bound; lia).
  do 2 f_equal.
  assert (E1 : n / 256 = n / 16 / 16) by (now rewrite N.Div0.div_div).
  assert (E2 : n / 4096 = n / 16 / 16 / 16) by (now rewrite !N.Div0.div_div).
  rewrite E1, E2.
  pose proof (N.div_mod n 16 ltac:(lia)) as H1.
  pose proof (N.div_mod (n / 16) 16 ltac:(lia)) as H2.
  pose proof (N.div_mod (n / 16 / 16) 16 ltac:(lia)) as H3.
  pose proof (N.div_mod (n / 16 / 16 / 16) 16 ltac:(lia)) as H4.
  assert (n / 16 / 16 / 16 / 16 = 0).
  { rewrite !N.Div0.div_div. apply N.div_small. exact Hn. }
  generalize dependent (n / 16 / 16 / 16 / 16).
  generalize dependent (n / 16 / 16 / 16 mod 16).
  generalize dependent (n / 16 / 16 / 16).
  generalize dependent (n / 16 / 16 mod 16).
  generalize dependent (n / 16 / 16).
  generalize dependent (n / 16 mod 16).
  generalize dependent (n / 16).
  generalize dependent (n mod 16).
  intros. lia.
Qed.

Lemma land_shiftl_low h a k : a < 2 ^ k -> N.land (N.shiftl h k) a = 0.
Proof.
  intros Ha. apply N.bits_inj_0. intros i. rewrite N.land_spec.
  destruct (N.lt_ge_cases i k) as [Hi | Hi].
  - now rewrite N.shiftl_spec_low.
  - rewrite <- (N.mod_small a (2 ^ k)) by assumption.
    rewrite N.mod_pow2_bits_high by assumption. apply andb_false_r.
Qed.

Lemma lor_shiftl_low h a k :
  a < 2 ^ k -> N.lor (N.shiftl h k) a = h * 2 ^ k + a.
Proof.
  intros Ha. pose proof (land_shiftl_low h a k Ha) as Hl.
  rewrite <- N.lxor_lor by assumption.
  rewrite <- N.add_nocarry_lxor by assumption.
  now rewrite N.shiftl_mul_pow2.
Qed.

(** The two halves of a surrogate pair, as [escape_char] computes them. *)
Lemma surrogate_high n :
  n < 0x100000 ->
  N.lor 0xd800 (N.land (N.shiftr n 10) 0x3ff) = 0xd800 + n / 1024.
Proof.
  intros Hn. change 0x3ff with (N.ones 10). rewrite N.land_ones.
  rewrite N.shiftr_div_pow2. change (2 ^ 10) with 1024.
  assert (n / 1024 < 1024) by (apply N.Div0.div_lt_upper_bound; lia).
  rewrite N.mod_small by assumption.
  change 0xd800 with (N.shiftl 54 10).
  rewrite lor_shiftl_low by (change (2 ^ 10) with 1024; assumption).
  reflexivity.
Qed.

Lemma surrogate_low n :
  N.lor 0xdc00 (N.land n 0x3ff) = 0xdc00 + n mod 1024.
Proof.
  change 0x3ff with (N.ones 10). rewrite N.land_ones.
  change (2 ^ 10) with 1024.
  change 0xdc00 with (N.shiftl 55 10).
  rewrite lor_shiftl_low
    by (change (2 ^ 10) with 1024; apply N.mod_upper_bound; lia).
  reflexivity.
Qed.

Lemma surrogate_join n :
  n < 0x100000 ->
  0x10000 + N.lor (N.shiftl (0xd800 + n / 1024 - 0xd800) 10)
                   (0xdc00 + n mod 1024 - 0xdc00)
  = 0x10000 + n.
Proof.
  intros Hn.
  rewrite (N.add_comm 0xd800), N.add_sub.
  rewrite (N.add_comm 0xdc00), N.add_sub.
  rewrite lor_shiftl_low
    by (change (2 ^ 10) with 1024; apply N.mod_upper_bound; lia).
  change (2 ^ 10) with 1024.
  pose proof (N.div_mod n 1024 ltac:(lia)). lia.
Qed.

Lemma scanstring_u fuel s2 :
  scanstring (S fuel) (92 :: 117 :: s2) =
  match decode_uXXXX s2 with
  | None => None
  | Some (uni, s3) =>
      match
        (if (0xd800 <=? uni) && (uni <=? 0xdbff) && startswith [92; 117] s3
         then
           match decode_uXXXX (drop 2 s3) with
           | None => None
           | Some (uni2, s4) =>
               if (0xdc00 <=? uni2) && (uni2 <=? 0xdfff) then
                 Some (0x10000 +
                       N.lor (N.shiftl (uni - 0xd800) 10) (uni2 - 0xdc00), s4)
               else Some (uni, s3)
           end
         else Some (uni, s3))
      with
      | None => None
      | Some (ch, s5) =>
          match scanstring fuel s5 with
          | Some (str, rest) => Some (ch :: str, rest)
          | None => None
          end
      end
  end.
Proof. reflexivity. Qed.

Lemma scanstring_escape_char c fuel t :
  scalar c = true ->
  scanstring (S fuel) (escape_char c ++ t) = scan_cons c (scanstring fuel t).
Proof.
  intros Hs. apply scalar_inv in Hs. unfold escape_char.
  destruct (N.eqb_spec c 92) as [-> | ?]; [reflexivity |].
  destruct (N.eqb_spec c 34) as [-> | ?]; [reflexivity |].
  destruct (N.eqb_spec c 8) as [-> | ?]; [reflexivity |].
  destruct (N.eqb_spec c 12) as [-> | ?]; [reflexivity |].
  destruct (N.eqb_spec c 10) as [-> | ?]; [reflexivity |].
  destruct (N.eqb_spec c 13) as [-> | ?]; [reflexivity |].
  destruct (N.eqb_spec c 9) as [-> | ?]; [reflexivity |].
  destruct ((32 <=? c) && (c <=? 126)) eqn:Hp.
  - apply andb_true_iff in Hp as [H1 H2].
    apply N.leb_le in H1. apply N.leb_le in H2.
    simpl. unfold Char.quote, Char.backslash. char_tests. reflexivity.
  - assert (c < 32 \/ 126 < c) as Hout.
    { apply andb_false_iff in Hp. rewrite !N.leb_gt in Hp. lia. }
    destruct (N.ltb_spec c 0x10000) as [Hlt | Hge].
    + change ((92 :: 117 :: hex4 c) ++ t) with (92 :: 117 :: (hex4 c ++ t)).
      rewrite scanstring_u, decode_hex4 by assumption.
      replace ((0xd800 <=? c) && (c <=? 0xdbff)) with false
        by (symmetry; apply andb_false_iff; rewrite !N.leb_gt; lia).
      reflexivity.
    + cbv zeta. set (m := c - 0x10000).
      assert (Hn : m < 0x100000) by (unfold m; lia).
      assert (Hcm : c = 0x10000 + m) by (unfold m; lia).
      clearbody m.
      rewrite surrogate_high, surrogate_low by assumption.
      pose proof (surrogate_join m Hn) as Hj.
      assert (Hq : m / 1024 < 1024) by (apply N.Div0.div_lt_upper_bound; lia).
      assert (Hr : m mod 1024 < 1024) by (apply N.mod_upper_bound; lia).
      revert Hj Hq Hr. generalize (m / 1024) (m mod 1024). intros q r Hj Hq Hr.
      change (((92 :: 117 :: hex4 (0xd800 + q)) ++
               92 :: 117 :: hex4 (0xdc00 + r)) ++ t)
        with (92 :: 117 :: (hex4 (0xd800 + q) ++
               (92 :: 117 :: (hex4 (0xdc00 + r) ++ t)))).
      rewrite scanstring_u, decode_hex4 by lia.
      replace ((0xd800 <=? 0xd800 + q) && (0xd800 + q <=? 0xdbff))
        with true
        by (symmetry; apply andb_true_iff; rewrite !N.leb_le; lia).
      cbn [startswith drop andb N.eqb Pos.eqb]. rewrite drop_0.
      rewrite decode_hex4 by lia.
      replace ((0xdc00 <=? 0xdc00 + r) && (0xdc00 + r <=? 0xdfff))
        with true
        by (symmetry; apply andb_true_iff; rewrite !N.leb_le; lia).
      rewrite Hj, <- Hcm. reflexivity.
Qed.

Lemma escape_char_nonempty c : (1 <= length (escape_char c))%nat.
Proof.
  unfold escape_char.
  repeat match goal with
  | |- context [if ?b then _ else _] => destruct b
  end; simpl; lia.
Qed.

Lemma scanstring_body (s : pystr) fuel rest :
  Forall (fun c => scalar c = true) s ->
  (length s < fuel)%nat ->
  scanstring fuel (flat_map escape_char s ++ Char.quote :: rest)
  = Some (s, rest).
Proof.
  intros Hs. revert fuel. induction Hs as [|c s Hc Hs IH]; intros fuel Hf.
  - destruct fuel; [simpl in Hf; lia | reflexivity].
  - destruct fuel as [|fuel]; [simpl in Hf; lia |].
    simpl flat_map. rewrite <- app_assoc.
    rewrite scanstring_escape_char by assumption.
    rewrite IH by (simpl in Hf; lia). reflexivity.
Qed.

Lemma length_flat_map_escape (s : pystr) :
  (length s <= length (flat_map escape_char s))%nat.
Proof.
  induction s as [|c s IH]; simpl; [lia |].
  rewrite length_app. pose proof (escape_char_nonempty c). lia.
Qed.

(** A string literal is read back, whatever follows it. *)
Lemma scanstring_encoded (s : pystr) rest :
  Forall (fun c => scalar c = true) s ->
  let t := flat_map escape_char s ++ Char.quote :: rest in
  scanstring (length t) t = Some (s, rest).
Proof.
  intros Hs t. apply scanstring_body; [assumption |].
  unfold t. rewrite length_app. simpl.
  pose proof (length_flat_map_escape s). lia.
Qed.

(* --------------------------------------------------------------------- *)
(** ** Reading back what [dumps] wrote *)

Section ReadBack.
Context `{PyFloat}.

Lemma value_end_number_end rest : value_end rest = true -> number_end rest = true.
Proof.
  destruct rest as [|c rest]; [reflexivity |]. unfold value_end, number_end, isdigit.
  intros Hv. apply orb_true_iff in Hv as [Hv | Hv]; apply N.eqb_eq in Hv;
    subst c; reflexivity.
Qed.

Lemma skip_ws_start c t : is_ws c = false -> skip_ws (c :: t) = c :: t.
Proof. intros Hc. simpl. now rewrite Hc. Qed.

Lemma skip_ws_spaces n t : skip_ws (repeat Char.space n ++ t) = skip_ws t.
Proof. induction n; simpl; auto. Qed.

Lemma skip_ws_newline_indent level t :
  skip_ws (newline_indent level ++ t) = skip_ws t.
Proof. unfold newline_indent. simpl. apply skip_ws_spaces. Qed.

Lemma skip_ws_indent_value level t rest :
  value_start t -> skip_ws (newline_indent level ++ t ++ rest) = t ++ rest.
Proof.
  intros (c & t' & -> & Hc & _). rewrite skip_ws_newline_indent.
  now apply skip_ws_start.
Qed.

Lemma startswith_head_neq a p c s :
  a <> c -> startswith (a :: p) (c :: s) = false.
Proof. intros Hac. cbn [startswith]. now rewrite N_eqb_neq. Qed.

Lemma scan_once_number fuel c s1 t rest :
  c = 45 \/ 48 <= c <= 57 ->
  match_number (c :: s1) = Some (t, rest) ->
  scan_once (S fuel) (c :: s1) = Some (number_value t, rest).
Proof.
  intros Hc Hm. cbn [scan_once].
  unfold Char.quote, Char.lbrace, Char.lbracket.
  char_tests.
  change (py "null") with [110; 117; 108; 108].
  change (py "true") with [116; 114; 117; 101].
  change (py "false") with [102; 97; 108; 115; 101].
  rewrite !startswith_head_neq by lia.
  now rewrite Hm.
Qed.

Lemma number_value_int (z : Z) :
  number_value (NumInt (z <? 0)%Z (Z.abs_N z)) = PInt z.
Proof. destruct z; simpl; f_equal; lia. Qed.

Lemma str_of_Z_head (z : Z) :
  exists c t, str_of_Z z = c :: t /\ (c = 45 \/ 48 <= c <= 57).
Proof.
  destruct z as [|p|p]; unfold str_of_Z.
  - exists 48, []. split; [reflexivity | lia].
  - destruct (str_of_N_nonempty (Z.to_N (Z.pos p))) as (c & t & E & Hc).
    exists c, t. split; [exact E | lia].
  - eexists _, _. split; [reflexivity | left; reflexivity].
Qed.

Lemma number_start c t :
  c = 45 \/ 48 <= c <= 57 -> value_start (c :: t).
Proof.
  intros Hc. exists c, t. split; [reflexivity |].
  unfold is_ws. char_tests. repeat split; lia.
Qed.

Lemma reads_back_int (z : Z) : reads_back (PInt z).
Proof.
  destruct (str_of_Z_head z) as (c & t & E & Hc). split.
  - intros level. simpl. rewrite E. now apply number_start.
  - intros fuel level rest Hf Hr. simpl in *.
    pose proof (match_number_int z rest (value_end_number_end _ Hr)) as Hm.
    rewrite E in *. simpl app in *.
    destruct fuel as [|fuel]; [simpl in Hf; lia |].
    rewrite (scan_once_number fuel c (t ++ rest) _ _ Hc Hm).
    now rewrite number_value_int.
Qed.

Lemma float_literal_head (l : float_literal) :
  exists c t, chars_of_float_literal l = c :: t /\ (c = 45 \/ 48 <= c <= 57).
Proof.
  unfold chars_of_float_literal. destruct (fl_neg l).
  - eexists _, _. split; [reflexivity | left; reflexivity].
  - destruct (str_of_N_nonempty (fl_int l)) as (c & t & E & Hc).
    rewrite E. eexists _, _. split; [reflexivity | lia].
Qed.

Lemma reads_back_float (x : float) : reads_back (PFloat x).
Proof.
  destruct (float_literal_head (float_repr x)) as (c & t & E & Hc). split.
  - intros level. simpl. unfold floatstr. rewrite E. now apply number_start.
  - intros fuel level rest Hf Hr. simpl in *. unfold floatstr in *.
    pose proof (match_number_float (float_repr x) rest (float_repr_wf x)
                  (value_end_number_end _ Hr)) as Hm.
    rewrite E in *. simpl app in *.
    destruct fuel as [|fuel]; [simpl in Hf; lia |].
    rewrite (scan_once_number fuel c (t ++ rest) _ _ Hc Hm).
    simpl. now rewrite float_of_repr.
Qed.

Lemma reads_back_str (s : pystr) :
  Forall (fun c => scalar c = true) s -> reads_back (PStr s).
Proof.
  intros Hs. split.
  - intros level. exists 34, (flat_map escape_char s ++ [Char.quote]).
    repeat split; try reflexivity; lia.
  - intros fuel level rest Hf Hr. simpl in *.
    destruct fuel as [|fuel]; [simpl in Hf; lia |].
    unfold encode_basestring_ascii. simpl app. rewrite <- app_assoc.
    cbn [scan_once]. unfold Char.quote at 1. simpl (34 =? Char.quote).
    cbv iota. simpl ([Char.quote] ++ rest).
    now rewrite scanstring_encoded.
Qed.

Lemma reads_back_constant (v : pyval) :
  match v with
  | PNone | PBool _ | PNaN | PInf _ => True
  | _ => False
  end -> reads_back v.
Proof.
  intros Hv. split.
  - intros level.
    destruct v as [| [|] | | | | [|] | | |]; try contradiction;
      (eexists _, _; split; [reflexivity |]; repeat split;
       try reflexivity; cbv; discriminate).
  - intros fuel level rest Hf Hr.
    destruct fuel as [|fuel];
      [destruct v as [| [|] | | | | [|] | | |]; simpl in *; try contradiction; lia |].
    destruct v as [| [|] | | | | [|] | | |]; try contradiction; reflexivity.
Qed.

(** *** Lists *)

Lemma encode_items_cons (enc : pyval -> pystr) sep v v' l :
  encode_items enc sep (v :: v' :: l)
  = enc v ++ sep ++ encode_items enc sep (v' :: l).
Proof. reflexivity. Qed.

Lemma array_items_S scan lf s :
  array_items scan (S lf) s =
  match scan s with
  | None => None
  | Some (value, s1) =>
      match skip_ws s1 with
      | [] => None
      | c :: s2 =>
          if c =? Char.rbracket then Some ([value], s2)
          else if c =? Char.comma then
            match array_items scan lf (skip_ws s2) with
            | Some (values, rest) => Some (value :: values, rest)
            | None => None
            end
          else None
      end
  end.
Proof. reflexivity. Qed.

Lemma encode_items_start (enc : pyval -> pystr) sep v l :
  value_start (enc v) ->
  exists t, encode_items enc sep (v :: l) = enc v ++ t.
Proof.
  intros _. destruct l as [|v' l].
  - exists []. simpl. now rewrite app_nil_r.
  - eexists. apply encode_items_cons.
Qed.

Lemma array_items_step scan lf s v s2 :
  scan s = Some (v, Char.comma :: s2) ->
  array_items scan (S lf) s =
  match array_items scan lf (skip_ws s2) with
  | Some (values, rest) => Some (v :: values, rest)
  | None => None
  end.
Proof. intros E. rewrite array_items_S, E. reflexivity. Qed.

Lemma array_items_last scan lf s v level s2 :
  scan s = Some (v, newline_indent level ++ Char.rbracket :: s2) ->
  array_items scan (S lf) s = Some ([v], s2).
Proof.
  intros E. rewrite array_items_S, E, skip_ws_newline_indent. reflexivity.
Qed.

Lemma array_items_encoded (l : list pyval) :
  l <> [] -> Forall reads_back l ->
  forall sf lf level level' rest,
    Forall (fun v => (length (iterencode level v) <= sf)%nat) l ->
    (length l <= lf)%nat ->
    array_items (scan_once sf) lf
      (encode_items (iterencode level) (Char.comma :: newline_indent level) l
       ++ newline_indent level' ++ Char.rbracket :: rest)
    = Some (l, rest).
Proof.
  intros Hne Hrb. induction Hrb as [|v l [Hstart Hv] Hrb IH]; [congruence |].
  intros sf lf level level' rest Hsf Hlf.
  apply Forall_cons in Hsf as [Hsv Hsf].
  destruct lf as [|lf]; [simpl in Hlf; lia |].
  destruct l as [|v' l].
  - apply (array_items_last _ _ _ _ level').
    cbn [encode_items]. now apply Hv.
  - rewrite encode_items_cons, <- !app_assoc.
    erewrite array_items_step;
      [| rewrite <- app_comm_cons; now apply Hv].
    apply Forall_cons in Hrb as Hrb'. destruct Hrb' as [[Hstart' _] _].
    destruct (encode_items_start (iterencode level)
                (Char.comma :: newline_indent level) v' l (Hstart' level))
      as [t Et].
    rewrite Et at 1. rewrite <- app_assoc.
    rewrite (skip_ws_indent_value level _ _ (Hstart' level)).
    rewrite app_assoc, <- Et.
    rewrite IH by (simpl in *; (discriminate || assumption || lia)).
    reflexivity.
Qed.

Lemma value_start_length t : value_start t -> (1 <= length t)%nat.
Proof. intros (c & t' & -> & _). simpl. lia. Qed.

Lemma encode_items_length (enc : pyval -> pystr) sep (l : list pyval) :
  Forall (fun v => value_start (enc v)) l ->
  (length l <= length (encode_items enc sep l))%nat /\
  Forall (fun v => (length (enc v) <= length (encode_items enc sep l))%nat) l.
Proof.
  induction 1 as [|v l Hv Hl [IH1 IH2]]; [split; [simpl; lia | constructor] |].
  apply value_start_length in Hv.
  destruct l as [|v' l].
  - simpl. split; [lia |]. constructor; [lia | constructor].
  - rewrite encode_items_cons, !length_app. split; [simpl in *; lia |].
    constructor; [lia |].
    eapply Forall_impl; [exact IH2 |]. simpl. intros; lia.
Qed.

Lemma iterencode_list level v l :
  iterencode level (PList (v :: l)) =
  Char.lbracket :: newline_indent (S level)
  ++ encode_items (iterencode (S level))
       (Char.comma :: newline_indent (S level)) (v :: l)
  ++ newline_indent level ++ [Char.rbracket].
Proof. reflexivity. Qed.

Lemma scan_once_lbracket fuel s1 :
  scan_once (S fuel) (Char.lbracket :: s1) = JSONArray (scan_once fuel) fuel s1.
Proof. reflexivity. Qed.

Lemma value_start_app t s : value_start t -> value_start (t ++ s).
Proof.
  intros (c & t' & -> & Hc). exists c, (t' ++ s). split; [reflexivity | exact Hc].
Qed.

Lemma encode_items_value_start (enc : pyval -> pystr) sep v l :
  value_start (enc v) -> value_start (encode_items enc sep (v :: l)).
Proof.
  intros Hv. destruct (encode_items_start enc sep v l Hv) as [t ->].
  now apply value_start_app.
Qed.

Lemma JSONArray_nonempty scan fuel level t s :
  value_start t ->
  JSONArray scan fuel (newline_indent level ++ t ++ s) =
  match array_items scan fuel (t ++ s) with
  | Some (values, rest) => Some (PList values, rest)
  | None => None
  end.
Proof.
  intros Ht. unfold JSONArray. rewrite (skip_ws_indent_value _ _ _ Ht).
  destruct Ht as (c & t' & -> & _ & Hc & _). rewrite <- app_comm_cons.
  now rewrite (N_eqb_neq c Char.rbracket) by exact Hc.
Qed.

Lemma reads_back_list (l : list pyval) :
  Forall reads_back l -> reads_back (PList l).
Proof.
  intros Hl. split.
  - intros level. exists Char.lbracket.
    destruct l as [|v l]; eexists; (split; [reflexivity |]);
      repeat split; try reflexivity; cbv; discriminate.
  - intros fuel level rest Hf Hr.
    destruct fuel as [|fuel];
      [destruct l;
       [simpl in Hf | rewrite iterencode_list in Hf; cbn [length] in Hf];
       lia |].
    destruct l as [|v l]; [reflexivity |].
    rewrite iterencode_list in *.
    assert (Hst : Forall (fun v => value_start (iterencode (S level) v)) (v :: l)).
    { eapply Forall_impl; [exact Hl |]. intros x [Hx _]. apply Hx. }
    destruct (encode_items_length (iterencode (S level))
                (Char.comma :: newline_indent (S level)) (v :: l) Hst)
      as [Hlen Hall].
    cbn [length] in Hf. rewrite !length_app in Hf.
    apply Forall_cons in Hst as Hst'. destruct Hst' as [Hv _].
    rewrite <- app_comm_cons, <- !app_assoc, scan_once_lbracket.
    rewrite JSONArray_nonempty by now apply encode_items_value_start.
    change ([Char.rbracket] ++ rest) with (Char.rbracket :: rest).
    rewrite array_items_encoded; try assumption; try discriminate.
    + reflexivity.
    + eapply Forall_impl; [exact Hall |]. cbv beta. intros; lia.
    + lia.
Qed.

(** *** Dicts *)

Lemma encode_pairs_cons (enc : pyval -> pystr) sep k v p d :
  encode_pairs enc sep ((k, v) :: p :: d)
  = encode_basestring_ascii k ++ [Char.colon; Char.space] ++ enc v
    ++ sep ++ encode_pairs enc sep (p :: d).
Proof. reflexivity. Qed.

Lemma encode_pairs_one (enc : pyval -> pystr) sep k v :
  encode_pairs enc sep [(k, v)]
  = encode_basestring_ascii k ++ [Char.colon; Char.space] ++ enc v.
Proof. reflexivity. Qed.

Lemma encode_pairs_value_start (enc : pyval -> pystr) sep p d :
  value_start (encode_pairs enc sep (p :: d)).
Proof.
  destruct p as [k v]. exists Char.quote.
  destruct d as [|p' d]; eexists; (split; [reflexivity |]);
    repeat split; try reflexivity; cbv; discriminate.
Qed.

Lemma object_pairs_key scan lf k s :
  scalar_str k -> value_start s ->
  object_pairs scan (S lf)
    (encode_basestring_ascii k ++ [Char.colon; Char.space] ++ s) =
  match scan s with
  | None => None
  | Some (value, s3) =>
      match skip_ws s3 with
      | [] => None
      | c' :: s4 =>
          if c' =? Char.rbrace then Some ([(k, value)], s4)
          else if c' =? Char.comma then
            match object_pairs scan lf (skip_ws s4) with
            | Some (pairs, rest) => Some ((k, value) :: pairs, rest)
            | None => None
            end
          else None
      end
  end.
Proof.
  intros Hk (c & t & -> & Hc & _).
  unfold encode_basestring_ascii.
  rewrite <- app_comm_cons, <- !app_assoc. cbn [object_pairs].
  change (Char.quote =? Char.quote) with true. cbn [negb].
  assert (E : forall x : pystr, [Char.quote] ++ x = Char.quote :: x)
    by reflexivity.
  rewrite !E. clear E.
  rewrite (scanstring_encoded k _ Hk).
  cbn [app skip_ws]. change (is_ws Char.colon) with false. cbv iota.
  change (Char.colon =? Char.colon) with true. cbn [negb].
  change (skip_ws (Char.space :: c :: t)) with (skip_ws (c :: t)).
  now rewrite (skip_ws_start c t Hc).
Qed.

Lemma object_pairs_encoded (d : list (pystr * pyval)) :
  d <> [] ->
  Forall (fun kv => scalar_str (fst kv) /\ reads_back (snd kv)) d ->
  forall sf lf level level' rest,
    Forall (fun kv => (length (iterencode level (snd kv)) <= sf)%nat) d ->
    (length d <= lf)%nat ->
    object_pairs (scan_once sf) lf
      (encode_pairs (iterencode level) (Char.comma :: newline_indent level) d
       ++ newline_indent level' ++ Char.rbrace :: rest)
    = Some (d, rest).
Proof.
  intros Hne Hrb.
  induction Hrb as [|[k v] d [Hk [Hstart Hv]] Hrb IH]; [congruence |].
  intros sf lf level level' rest Hsf Hlf. simpl in Hk.
  apply Forall_cons in Hsf as [Hsv Hsf]. simpl in Hsv.
  destruct lf as [|lf]; [simpl in Hlf; lia |].
  destruct d as [|p d].
  - rewrite encode_pairs_one, <- !app_assoc.
    rewrite object_pairs_key
      by (assumption || apply value_start_app, Hstart).
    rewrite Hv by (assumption || reflexivity).
    rewrite skip_ws_newline_indent. reflexivity.
  - rewrite encode_pairs_cons, <- !app_assoc.
    rewrite object_pairs_key
      by (assumption || apply value_start_app, Hstart).
    rewrite Hv by (assumption || reflexivity).
    rewrite <- app_comm_cons.
    change (skip_ws (Char.comma :: ?x)) with (Char.comma :: x).
    cbv beta iota.
    change (Char.comma =? Char.rbrace) with false.
    change (Char.comma =? Char.comma) with true. cbv iota.
    rewrite (skip_ws_indent_value level _ _
               (encode_pairs_value_start _ _ p d)).
    rewrite IH by (simpl in *; (discriminate || assumption || lia)).
    reflexivity.
Qed.

Lemma encode_pairs_length (enc : pyval -> pystr) sep (d : list (pystr * pyval)) :
  (length d <= length (encode_pairs enc sep d))%nat /\
  Forall (fun kv =>
            (length (enc (snd kv)) <= length (encode_pairs enc sep d))%nat) d.
Proof.
  induction d as [|[k v] d [IH1 IH2]]; [split; [simpl; lia | constructor] |].
  destruct d as [|p d].
  - rewrite encode_pairs_one, !length_app. simpl. split; [lia |].
    constructor; [simpl; lia | constructor].
  - rewrite encode_pairs_cons, !length_app. cbn [length] in *.
    split; [lia |]. constructor; [simpl; lia |].
    eapply Forall_impl; [exact IH2 |]. cbv beta. intros; lia.
Qed.

Lemma dict_set_fresh (d : list (pystr * pyval)) k v :
  k ∉ map fst d -> dict_set d k v = d ++ [(k, v)].
Proof.
  induction d as [|[k' v'] d IH]; intros Hk; [reflexivity |].
  simpl in *. apply not_elem_of_cons in Hk as [Hne Hk].
  unfold str_eqb. rewrite bool_decide_eq_false_2 by congruence.
  now rewrite IH.
Qed.

Lemma fold_dict_set (d acc : list (pystr * pyval)) :
  NoDup (map fst (acc ++ d)) ->
  fold_left (fun a kv => dict_set a (fst kv) (snd kv)) d acc = acc ++ d.
Proof.
  revert acc. induction d as [|[k v] d IH]; intros acc Hnd.
  - now rewrite app_nil_r.
  - simpl. rewrite dict_set_fresh.
    + rewrite IH; rewrite <- app_assoc; [reflexivity | exact Hnd].
    + rewrite map_app in Hnd. apply NoDup_app in Hnd as (_ & Hd & _).
      intros Hin. apply (Hd k Hin). simpl. left.
Qed.

Lemma dict_of_pairs_NoDup (d : list (pystr * pyval)) :
  NoDup (map fst d) -> dict_of_pairs d = d.
Proof. intros Hnd. unfold dict_of_pairs. now rewrite fold_dict_set. Qed.

Lemma iterencode_dict level p d :
  iterencode level (PDict (p :: d)) =
  Char.lbrace :: newline_indent (S level)
  ++ encode_pairs (iterencode (S level))
       (Char.comma :: newline_indent (S level)) (p :: d)
  ++ newline_indent level ++ [Char.rbrace].
Proof. reflexivity. Qed.

Lemma scan_once_lbrace fuel s1 :
  scan_once (S fuel) (Char.lbrace :: s1) = JSONObject (scan_once fuel) fuel s1.
Proof. reflexivity. Qed.

Lemma JSONObject_nonempty scan fuel level t s :
  value_start t ->
  JSONObject scan fuel (newline_indent level ++ t ++ s) =
  match object_pairs scan fuel (t ++ s) with
  | Some (pairs, rest) => Some (PDict (dict_of_pairs pairs), rest)
  | None => None
  end.
Proof.
  intros Ht. unfold JSONObject. rewrite (skip_ws_indent_value _ _ _ Ht).
  destruct Ht as (c & t' & -> & _ & _ & Hc & _). rewrite <- app_comm_cons.
  now rewrite (N_eqb_neq c Char.rbrace) by exact Hc.
Qed.

Lemma reads_back_dict (d : list (pystr * pyval)) :
  NoDup (map fst d) ->
  Forall (fun kv => scalar_str (fst kv) /\ reads_back (snd kv)) d ->
  reads_back (PDict d).
Proof.
  intros Hnd Hd. split.
  - intros level. exists Char.lbrace.
    destruct d as [|p d]; eexists; (split; [reflexivity |]);
      repeat split; try reflexivity; cbv; discriminate.
  - intros fuel level rest Hf Hr.
    destruct fuel as [|fuel];
      [destruct d;
       [simpl in Hf | rewrite iterencode_dict in Hf; cbn [length] in Hf];
       lia |].
    destruct d as [|p d]; [reflexivity |].
    rewrite iterencode_dict in *.
    destruct (encode_pairs_length (iterencode (S level))
                (Char.comma :: newline_indent (S level)) (p :: d))
      as [Hlen Hall].
    cbn [length] in Hf. rewrite !length_app in Hf.
    rewrite <- app_comm_cons, <- !app_assoc, scan_once_lbrace.
    rewrite JSONObject_nonempty by apply encode_pairs_value_start.
    change ([Char.rbrace] ++ rest) with (Char.rbrace :: rest).
    rewrite object_pairs_encoded; try assumption; try discriminate.
    + now rewrite dict_of_pairs_NoDup.
    + eapply Forall_impl; [exact Hall |]. cbv beta. intros; lia.
    + lia.
Qed.

End ReadBack.

(* --------------------------------------------------------------------- *)
(** ** [loads] after [dumps], and the histories of attempt records *)

Section Histories.
Context `{PyFloat}.

Lemma loads_dumps (v : pyval) : reads_back v -> loads (dumps v) = Some v.
Proof.
  intros [Hstart Hread]. unfold loads, dumps.
  specialize (Hread (S (length (iterencode 0 v))) 0%nat [] ltac:(lia) eq_refl).
  rewrite app_nil_r in Hread.
  destruct (Hstart 0%nat) as (c & t & E & Hws & _ & _ & Hbom).
  rewrite E in *.
  rewrite startswith_head_neq by congruence.
  rewrite (skip_ws_start c t Hws), Hread. reflexivity.
Qed.

Lemma scalar_str_py_keys :
  scalar_str (py "otp") /\ scalar_str (py "status") /\
  scalar_str (py "text") /\ scalar_str (py "time").
Proof. repeat split; repeat constructor. Qed.

Lemma record_keys_NoDup :
  NoDup [py "otp"; py "status"; py "text"; py "time"].
Proof. apply (bool_decide_unpack _). vm_compute. exact I. Qed.

Lemma reads_back_record (r : AttemptRecord) :
  wf_record r -> reads_back (dict_of_record r).
Proof.
  intros (Ho & Ht & Htime). unfold dict_of_record, make_record.
  destruct scalar_str_py_keys as (K1 & K2 & K3 & K4).
  apply reads_back_dict.
  - exact record_keys_NoDup.
  - apply Forall_cons_2;
      [split; [exact K1 | now apply reads_back_str] |].
    apply Forall_cons_2; [split; [exact K2 | apply reads_back_int] |].
    apply Forall_cons_2;
      [split; [exact K3 | now apply reads_back_str] |].
    apply Forall_cons_2; [split; [exact K4 |] | apply Forall_nil_2].
    simpl. destruct (time r); try contradiction;
      [apply reads_back_int | apply reads_back_float].
Qed.

Lemma reads_back_history (h : list AttemptRecord) :
  Forall wf_record h -> reads_back (history_of h).
Proof.
  intros Hh. unfold history_of. apply reads_back_list.
  induction Hh; constructor; auto using reads_back_record.
Qed.

(** [json.loads(json.dumps(history, indent=4))] gives the history back. *)
Lemma loads_dumps_history (h : list AttemptRecord) :
  Forall wf_record h ->
  loads (dumps (history_of h)) = Some (history_of h).
Proof. intros Hh. apply loads_dumps, reads_back_history, Hh. Qed.

(** Every well-formed value is read back, by induction on the value. *)
Lemma reads_back_wf : forall v, json_wf v -> reads_back v.
Proof.
  fix IH 1. intros [ | b | z | x | | neg | s | l | d] Hwf;
    try (apply reads_back_constant; exact I).
  - apply reads_back_int.
  - apply reads_back_float.
  - now apply reads_back_str.
  - apply reads_back_list. simpl in Hwf.
    induction l as [|v l IHl]; constructor.
    + apply IH. apply Hwf.
    + apply IHl. apply Hwf.
  - destruct Hwf as [Hnd Hall]. apply reads_back_dict; [exact Hnd |].
    clear Hnd. induction d as [|[k v] d IHd]; constructor.
    + split; [apply Hall |]. apply IH. apply Hall.
    + apply IHd. apply Hall.
Qed.

(** [json.loads(json.dumps(v, indent=4)) == v] *)
Lemma loads_dumps_wf (v : pyval) : json_wf v -> loads (dumps v) = Some v.
Proof. intros Hv. apply loads_dumps, reads_back_wf, Hv. Qed.

End Histories.

End JsonFacts.

(* ===================================================================== *)
(** ** [verify]: what is recorded, what is returned *)
(* ===================================================================== *)

Section VerifyFacts.
Context `{PyFloat} `{!Forest}.

Lemma same_but_log_refl w : same_but_log w w.
Proof. repeat split. Qed.

Lemma logger_log_spec n l m w :
  exists w', logger_log n l m w = (Ok tt, w') /\ same_but_log w w'.
Proof.
  unfold logger_log. destruct (_ <=? _)%Z; eexists; split; try reflexivity;
    repeat split.
Qed.

Lemma _log_spec l m w :
  exists w', _log l m w = (Ok tt, w') /\ same_but_log w w'.
Proof.
  unfold _log. destruct (debug _); [apply logger_log_spec |].
  eexists; split; [reflexivity | apply same_but_log_refl].
Qed.

Lemma issubclass_RequestException c : issubclass c RequestException = true.
Proof. destruct c; reflexivity. Qed.

(** The prologue of [verify] changes the log at most. *)
Lemma verify_prologue otp w :
  exists w0, same_but_log w w0 /\
    verify otp w =
    try_except
      (let* r := session_post (verify_request otp w) in
       let '(status_code, r_text, elapsed_time) := r in
       let record :=
         make_record otp status_code (lower (strip r_text))
           (PFloat elapsed_time) in
       history_append record >>
       _log INFO (MsgVerified otp status_code elapsed_time (take 50 r_text)) >>
       ret record)
      (verify_handler otp) w0.
Proof.
  unfold verify at 1. unfold bind at 1.
  destruct (proxy_down w).
  - destruct (_log_spec INFO MsgProxyDown w) as (w0 & -> & Hs).
    exists w0. split; [exact Hs | reflexivity].
  - exists w. split; [apply same_but_log_refl | reflexivity].
Qed.

(** A call that gets a response appends its record, and returns it. *)
Lemma verify_responds otp w l st tx el :
  history (w_engine w) = PList l ->
  w_net w (w_sent w) (verify_request otp w) = Responds st tx el ->
  let record := make_record otp st (lower (strip tx)) (PFloat el) in
  exists w',
    verify otp w = (Ok record, w') /\
    history (w_engine w') = PList (l ++ [record]) /\
    w_sent w' = w_sent w ++ [verify_request otp w] /\
    w_net w' = w_net w /\ w_monitors w' = w_monitors w /\
    w_files w' = w_files w /\
    w_engine w' = set_history (PList (l ++ [record])) (w_engine w).
Proof.
  intros Hh Hnet record.
  destruct (verify_prologue otp w) as (w0 & Hs & ->).
  destruct Hs as (He & Hm & Hn & Hse & Hl & Hf & Hw & Hev).
  unfold try_except, bind, session_post.
  rewrite Hn, Hse, Hnet. cbn [fst snd].
  unfold history_append. cbn [w_engine set_sent]. rewrite He, Hh.
  match goal with
  | |- context [_log ?lv ?m ?x] =>
      destruct (_log_spec lv m x) as (w1 & -> & Hs1)
  end.
  destruct Hs1 as (He1 & Hm1 & Hn1 & Hse1 & Hl1 & Hf1 & Hw1 & Hev1).
  exists w1. unfold ret. split; [reflexivity |].
  rewrite He1, Hse1, Hn1, Hm1, Hf1. cbn. repeat split; congruence.
Qed.

(** A call that fails inside the [requests] library returns the sentinel
    of the failure and appends nothing. *)
Lemma verify_fails otp w c :
  w_net w (w_sent w) (verify_request otp w) = Fails (Requests c) ->
  exists w',
    verify otp w = (Ok (sentinel otp c), w') /\
    w_engine w' = w_engine w /\
    w_sent w' = w_sent w ++ [verify_request otp w].
Proof.
  intros Hnet.
  destruct (verify_prologue otp w) as (w0 & Hs & ->).
  destruct Hs as (He & Hm & Hn & Hse & Hl & Hf & Hw & Hev).
  unfold try_except, bind at 1, session_post.
  rewrite Hn, Hse, Hnet. cbn [fst snd].
  unfold verify_handler, sentinel.
  pose proof (issubclass_RequestException c) as Hr.
  destruct (issubclass c ProxyError), (issubclass c ConnectionError),
    (issubclass c Timeout); rewrite ?Hr; unfold bind, logger_error;
  match goal with
  | |- context [logger_log ?n ?lv ?m ?x] =>
      destruct (logger_log_spec n lv m x) as (w1 & -> & Hs1)
  end;
  destruct Hs1 as (He1 & Hm1 & Hn1 & Hse1 & _);
  exists w1; (split; [reflexivity |]); rewrite He1, Hse1; cbn;
  split; congruence.
Qed.

(** Any other exception goes through [verify], and nothing is appended. *)
Lemma verify_raises otp w e :
  w_net w (w_sent w) (verify_request otp w) = Fails e ->
  (forall c, e <> Requests c) ->
  exists w',
    verify otp w = (Raise e, w') /\ w_engine w' = w_engine w.
Proof.
  intros Hnet Hne.
  destruct (verify_prologue otp w) as (w0 & Hs & ->).
  destruct Hs as (He & Hm & Hn & Hse & Hl & Hf & Hw & Hev).
  unfold try_except, bind at 1, session_post.
  rewrite Hn, Hse, Hnet. cbn [fst snd].
  destruct e; try (eexists; split; [reflexivity | cbn; congruence]).
  now destruct (Hne c).
Qed.

End VerifyFacts.

Section VerifyClaims.
Context `{PyFloat} `{!Forest}.

(** Claim C1, amended.  A call of [verify] appends at most one record: the
    record of the response when the call gets one, and it returns that
    record; when the call fails inside the [requests] library it returns the
    sentinel record of the failure and the history is left as it was; any
    other exception leaves [verify] with the history as it was. *)
Theorem verify_appends_on_response_only (otp : pystr) (w : World)
  (l : list pyval) :
  history (w_engine w) = PList l ->
  match w_net w (w_sent w) (verify_request otp w) with
  | Responds st tx el =>
      let record := make_record otp st (lower (strip tx)) (PFloat el) in
      fst (verify otp w) = Ok record /\
      history (w_engine (snd (verify otp w))) = PList (l ++ [record])
  | Fails (Requests c) =>
      fst (verify otp w) = Ok (sentinel otp c) /\
      history (w_engine (snd (verify otp w))) = PList l
  | Fails e =>
      fst (verify otp w) = Raise e /\
      history (w_engine (snd (verify otp w))) = PList l
  end.
Proof.
  intros Hh.
  destruct (w_net w (w_sent w) (verify_request otp w)) as [st tx el | e] eqn:E.
  - destruct (verify_responds otp w l st tx el Hh E) as (w' & -> & Hh' & _).
    split; [reflexivity | exact Hh'].
  - assert (Hother : (forall c, e <> Requests c) ->
              fst (verify otp w) = Raise e /\
              history (w_engine (snd (verify otp w))) = PList l).
    { intros Hne. destruct (verify_raises otp w e E Hne) as (w' & -> & He).
      simpl. now rewrite He. }
    destruct e; try (apply Hother; discriminate).
    destruct (verify_fails otp w c E) as (w' & -> & He & _).
    simpl. now rewrite He.
Qed.

(** Claim C6, amended.  The sentinel that [verify] returns for a failure of
    the [requests] library is fixed by the class of the exception, through
    the first [except] clause that the class is a subclass of: a proxy
    failure gives 999, any other connection failure (a connect timeout is
    one) gives 998, a timeout that is not a connection failure gives 997,
    everything else 996; the time of a sentinel is 0. *)
Theorem verify_sentinel_by_first_clause (otp : pystr) (w : World)
  (c : requests_exception) :
  w_net w (w_sent w) (verify_request otp w) = Fails (Requests c) ->
  exists status text,
    fst (verify otp w) = Ok (make_record otp status text (PInt 0)) /\
    (issubclass c ProxyError = true ->
       status = 999%Z /\ text = py "proxy_error") /\
    (issubclass c ConnectionError = true ->
     issubclass c ProxyError = false ->
       status = 998%Z /\ text = py "connection_error") /\
    (issubclass c Timeout = true ->
     issubclass c ConnectionError = false ->
       status = 997%Z /\ text = py "timeout_error") /\
    (issubclass c Timeout = false ->
     issubclass c ConnectionError = false ->
       status = 996%Z /\ text = py "request_error").
Proof.
  intros E. destruct (verify_fails otp w c E) as (w' & -> & _).
  unfold sentinel.
  destruct c; cbn; eexists _, _; (split; [reflexivity |]);
    repeat split; intros; (reflexivity || discriminate).
Qed.

End VerifyClaims.

Module Claims.
Import Examples.

(** A response is recorded: the scenario engine, one call. *)
Lemma verify_appends_on_response_only_witness :
  let w := fresh_world (always 400 "Bad OTP") in
  history (w_engine w) = PList [] /\
  match w_net w (w_sent w) (verify_request (py "000") w) with
  | Responds st tx el =>
      let record := make_record (py "000") st (lower (strip tx)) (PFloat el) in
      fst (verify (py "000") w) = Ok record /\
      history (w_engine (snd (verify (py "000") w))) = PList ([] ++ [record])
  | Fails (Requests c) =>
      fst (verify (py "000") w) = Ok (sentinel (py "000") c) /\
      history (w_engine (snd (verify (py "000") w))) = PList []
  | Fails e =>
      fst (verify (py "000") w) = Raise e /\
      history (w_engine (snd (verify (py "000") w))) = PList []
  end.
Proof.
  intros w. split; [reflexivity |].
  exact (verify_appends_on_response_only (py "000") w [] eq_refl).
Defined.

(** Claim C1 as stated fails: a call that meets a proxy failure returns the
    sentinel 999 and leaves the history empty. *)
Lemma verify_proxy_failure_not_recorded :
  let w := fresh_world (failing (Requests ProxyError)) in
  history (w_engine w) = PList [] /\
  fst (verify (py "000") w)
  = Ok (make_record (py "000") 999 (py "proxy_error") (PInt 0)) /\
  history (w_engine (snd (verify (py "000") w))) = PList [].
Proof. vm_compute. repeat split. Qed.

(** A read timeout is classified 997. *)
Lemma verify_sentinel_by_first_clause_witness :
  let w := fresh_world (failing (Requests ReadTimeout)) in
  w_net w (w_sent w) (verify_request (py "000") w)
  = Fails (Requests ReadTimeout) /\
  exists status text,
    fst (verify (py "000") w)
    = Ok (make_record (py "000") status text (PInt 0)) /\
    (issubclass ReadTimeout ProxyError = true ->
       status = 999%Z /\ text = py "proxy_error") /\
    (issubclass ReadTimeout ConnectionError = true ->
     issubclass ReadTimeout ProxyError = false ->
       status = 998%Z /\ text = py "connection_error") /\
    (issubclass ReadTimeout Timeout = true ->
     issubclass ReadTimeout ConnectionError = false ->
       status = 997%Z /\ text = py "timeout_error") /\
    (issubclass ReadTimeout Timeout = false ->
     issubclass ReadTimeout ConnectionError = false ->
       status = 996%Z /\ text = py "request_error").
Proof.
  intros w. split; [reflexivity |].
  exact (verify_sentinel_by_first_clause (py "000") w ReadTimeout eq_refl).
Defined.

(** Claim C6 as stated fails: a connect timeout is a timeout
    ([ConnectTimeout] derives from [Timeout]) and yields 998,
    [connection_error]. *)
Lemma verify_connect_timeout_is_998 :
  issubclass ConnectTimeout Timeout = true /\
  fst (verify (py "000") (fresh_world (failing (Requests ConnectTimeout))))
  = Ok (make_record (py "000") 998 (py "connection_error") (PInt 0)).
Proof. vm_compute. split; reflexivity. Qed.

End Claims.

(* ===================================================================== *)
(** ** The attacks *)
(* ===================================================================== *)

Section AttackFacts.
Context `{PyFloat} `{!Forest}.

(** [Fore] is not a global of [harpy_ai_otp.py]: the statement of the
    success branch raises before it logs. *)
Lemma success_branch_raises (m : message) (w : World) :
  (load_global "Fore" >> load_global "Style" >> logger_info m) w
  = (Raise (NameError "Fore"), w).
Proof. reflexivity. Qed.

(** [Fore] is imported by [run_harpy.py], not by [harpy_ai_otp.py]. *)
Lemma Fore_imported_in_run_harpy_only :
  "Fore"%string ∈ run_harpy_globals /\ "Fore"%string ∉ harpy_ai_otp_globals.
Proof. split; apply (bool_decide_unpack _); vm_compute; exact I. Qed.

(** The guard of [ai_attack] is never taken. *)
Lemma ai_attack_guard (c : option forest) : hasattr_predict_proba c = true.
Proof. reflexivity. Qed.

End AttackFacts.

(* --------------------------------------------------------------------- *)
(** *** The sequential sweep when nothing is a hit *)

Section SweepFacts.
Context `{PyFloat} `{!Forest}.

Lemma is_hit_record (otp : pystr) (st : Z) (tx : pystr) (tm : pyval)
  (w : World) :
  is_hit (make_record otp st tx tm) w = (Ok (is_success tx st), w).
Proof. reflexivity. Qed.

Lemma adaptive_attack_loop_sweep (digits : nat) (range : list nat) :
  forall (w : World) (l : list pyval),
    never_hits (w_net w) ->
    history (w_engine w) = PList l ->
    fst (adaptive_attack_loop digits range w) = Ok tt /\
    sent_otps (snd (adaptive_attack_loop digits range w))
    = sent_otps w ++ map (fun i => format_0d digits (N.of_nat i)) range.
Proof.
  induction range as [|i range IH]; intros w l Hnet Hh.
  - cbn. now rewrite app_nil_r.
  - destruct (Hnet (w_sent w)
                (verify_request (format_0d digits (N.of_nat i)) w))
      as (st & tx & el & Hr & Hmiss).
    destruct (verify_responds _ w l st tx el Hh Hr)
      as (w' & Hv & Hh' & Hs' & Hn' & _).
    assert (E : adaptive_attack_loop digits (i :: range) w
                = adaptive_attack_loop digits range w').
    { cbn [adaptive_attack_loop]. unfold bind at 1. rewrite Hv.
      unfold bind at 1. now rewrite is_hit_record, Hmiss. }
    rewrite E.
    destruct (IH w' (l ++ [make_record (format_0d digits (N.of_nat i)) st
                             (lower (strip tx)) (PFloat el)]))
      as (Hok & Hsent).
    { now rewrite Hn'. }
    { exact Hh'. }
    split; [exact Hok |]. rewrite Hsent. unfold sent_otps at 1.
    rewrite Hs', map_app, <- app_assoc. reflexivity.
Qed.

(** With no hit, [adaptive_attack] submits the numerals of
    [0 .. max_attempts - 1], zero-padded to the width, in increasing order,
    and returns. *)
Lemma adaptive_attack_sweep (max_attempts : Z) (digits : nat) (w : World)
  (l : list pyval) :
  never_hits (w_net w) ->
  history (w_engine w) = PList l ->
  fst (adaptive_attack max_attempts digits w) = Ok tt /\
  sent_otps (snd (adaptive_attack max_attempts digits w))
  = sent_otps w
    ++ map (fun i => format_0d digits (N.of_nat i))
         (seq 0 (Z.to_nat max_attempts)).
Proof.
  intros Hnet Hh. unfold adaptive_attack, bind, logger_info.
  destruct (logger_log_spec harpy_ai_otp_logger INFO
              (MsgLaunchingAdaptive max_attempts) w) as (w0 & -> & Hs).
  destruct Hs as (He & _ & Hn & Hse & _).
  destruct (adaptive_attack_loop_sweep digits (seq 0 (Z.to_nat max_attempts))
              w0 l) as (Hok & Hsent).
  { now rewrite Hn. }
  { now rewrite He. }
  split; [exact Hok |]. rewrite Hsent. unfold sent_otps. now rewrite Hse.
Qed.

(** While [max_attempts] does not exceed [10^digits], these are candidates
    of the space. *)
Lemma sweep_in_space (max_attempts : Z) (digits : nat) (otp : pystr) :
  (Z.to_nat max_attempts <= 10 ^ digits)%nat ->
  otp ∈ map (fun i => format_0d digits (N.of_nat i))
          (seq 0 (Z.to_nat max_attempts)) ->
  otp ∈ candidates digits.
Proof.
  intros Hmax Hin. unfold candidates.
  apply list_elem_of_fmap in Hin as (i & -> & Hi).
  apply list_elem_of_fmap. exists i. split; [reflexivity |].
  apply elem_of_seq in Hi. apply elem_of_seq. lia.
Qed.

End SweepFacts.

(* --------------------------------------------------------------------- *)
(** *** The sweep of [OTPAttacker.brute_force] *)

Section BruteForceFacts.
Context `{PyFloat} `{!Forest}.

Lemma product_length (alphabet : pystr) (n : nat) (t : pystr) :
  t ∈ product alphabet n -> length t = n.
Proof.
  revert t. induction n as [|n IH]; intros t Ht; cbn in Ht.
  - apply list_elem_of_singleton in Ht. now subst.
  - apply list_elem_of_bind in Ht as (c & Ht & _).
    apply list_elem_of_fmap in Ht as (t' & -> & Ht'). cbn.
    now rewrite (IH t' Ht').
Qed.

Lemma brute_force_loop_sweep (a : OTPAttacker) (stop : bool)
  (otps : list pystr) :
  forall w : World,
    never_succeeds (w_net w) ->
    fst (brute_force_loop a stop otps w) = Ok tt /\
    sent_otps (snd (brute_force_loop a stop otps w)) = sent_otps w ++ otps /\
    w_engine (snd (brute_force_loop a stop otps w)) = w_engine w.
Proof.
  induction otps as [|otp otps IH]; intros w Hnet.
  - cbn. now rewrite app_nil_r.
  - destruct (Hnet (w_sent w) (verify_otp_request a otp))
      as (st & tx & el & Hr & Hmiss).
    assert (E : exists w',
               brute_force_loop a stop (otp :: otps) w
               = brute_force_loop a stop otps w' /\
               w_sent w' = w_sent w ++ [verify_otp_request a otp] /\
               w_net w' = w_net w /\ w_engine w' = w_engine w).
    { eexists. cbn [brute_force_loop]. unfold bind at 1, verify_otp at 1.
      unfold bind at 1, session_post. rewrite Hr. cbn [ret fst snd].
      rewrite Hmiss. cbn [andb]. repeat split. }
    destruct E as (w' & -> & Hs' & Hn' & He').
    destruct (IH w') as (Hok & Hsent & Heng); [now rewrite Hn' |].
    split; [exact Hok |]. split; [| now rewrite Heng].
    rewrite Hsent. unfold sent_otps at 1.
    rewrite Hs', map_app, <- app_assoc. reflexivity.
Qed.

(** With no hit, [brute_force] submits the tuples of
    [itertools.product("0123456789", repeat=digits)] in their order, each
    of [digits] characters, and records nothing. *)
Lemma brute_force_sweep (a : OTPAttacker) (digits : nat) (stop : bool)
  (w : World) :
  never_succeeds (w_net w) ->
  fst (brute_force a digits stop w) = Ok tt /\
  sent_otps (snd (brute_force a digits stop w))
  = sent_otps w ++ product (py "0123456789") digits /\
  w_engine (snd (brute_force a digits stop w)) = w_engine w.
Proof. intros Hnet. now apply brute_force_loop_sweep. Qed.

End BruteForceFacts.

(* --------------------------------------------------------------------- *)
(** *** [ai_attack] on a classifier that was never fitted *)

Section UnfittedFacts.
Context `{PyFloat} `{!Forest}.

(** Every prediction of an unfitted classifier is [0.0]; the call logs and
    changes nothing else. *)
Lemma predict_likelihood_unfitted (otp : pystr) (w : World) :
  classifier (w_engine w) = None ->
  exists w',
    predict_likelihood otp w = (Ok float_zero, w') /\ same_but_log w w'.
Proof.
  intros Hc.
  unfold predict_likelihood, try_except, bind, classifier_predict_proba.
  rewrite Hc. unfold logger_error.
  destruct (logger_log_spec harpy_ai_otp_logger ERROR (MsgPredictError otp) w)
    as (w1 & -> & Hs).
  exists w1. split; [reflexivity | exact Hs].
Qed.

Lemma rank_keys_unfitted (cands : list pystr) :
  forall w : World,
    classifier (w_engine w) = None ->
    exists w',
      rank_keys cands w = (Ok (map (fun c => (c, float_zero)) cands), w') /\
      same_but_log w w'.
Proof.
  induction cands as [|c cands IH]; intros w Hc.
  - exists w. split; [reflexivity | apply same_but_log_refl].
  - destruct (predict_likelihood_unfitted c w Hc) as (w1 & Hp & Hs1).
    destruct (IH w1) as (w2 & Hr & Hs2).
    { destruct Hs1 as (-> & _). exact Hc. }
    exists w2. split.
    + cbn [rank_keys map]. unfold bind at 1. rewrite Hp.
      unfold bind at 1. rewrite Hr. reflexivity.
    + unfold same_but_log in *. intuition congruence.
Qed.

(** The sort is stable: candidates with one and the same key keep their
    order. *)
Lemma sorted_desc_equal_keys (k : float) (cands : list pystr) :
  sorted_desc (map (fun c => (c, k)) cands) = cands.
Proof.
  unfold sorted_desc. induction cands as [|c cands IH]; [reflexivity |].
  cbn [map fold_right].
  destruct (fold_right insert_desc [] (map (fun c => (c, k)) cands))
    as [|[c' k'] rest] eqn:E.
  - cbn in *. now rewrite <- IH.
  - assert (Hk : k' = k).
    { assert (Hin : (c', k') ∈ map (fun c => (c, k)) cands).
      { clear IH. revert c' k' rest E.
        induction cands as [|d cands IHc]; intros c' k' rest E;
          [discriminate |].
        cbn [map fold_right] in E.
        destruct (fold_right insert_desc [] (map (fun c => (c, k)) cands))
          as [|[c'' k''] rest'] eqn:E'.
        - injection E as <- <- _. left.
        - cbn [insert_desc snd] in E.
          destruct (float_ltb k k'').
          + injection E as <- <- _. right. eapply IHc. reflexivity.
          + injection E as <- <- _. left. }
      apply list_elem_of_fmap in Hin as (d & Hd & _). now injection Hd. }
    subst k'. cbn [insert_desc snd]. rewrite float_ltb_irrefl.
    cbn [map fst]. f_equal. exact IH.
Qed.

(** The loop of [ai_attack] when nothing is a hit: it submits the ranked
    candidates in order until the count reaches [max_attempts], at least
    one. *)
Lemma ai_attack_loop_sweep (max_attempts : Z) (ranked : list pystr) :
  forall (attempts : Z) (w : World) (l : list pyval),
    never_hits (w_net w) ->
    history (w_engine w) = PList l ->
    fst (ai_attack_loop max_attempts attempts ranked w) = Ok tt /\
    sent_otps (snd (ai_attack_loop max_attempts attempts ranked w))
    = sent_otps w
      ++ take (Z.to_nat (Z.max 1 (max_attempts - attempts))) ranked.
Proof.
  induction ranked as [|otp ranked IH]; intros attempts w l Hnet Hh.
  - cbn. rewrite take_nil, app_nil_r. split; reflexivity.
  - destruct (Hnet (w_sent w) (verify_request otp w))
      as (st & tx & el & Hr & Hmiss).
    destruct (verify_responds otp w l st tx el Hh Hr)
      as (w' & Hv & Hh' & Hs' & Hn' & _).
    assert (Hstep :
      ai_attack_loop max_attempts attempts (otp :: ranked) w =
      if (max_attempts <=? attempts + 1)%Z
      then logger_info (MsgReachedMax max_attempts) w'
      else ai_attack_loop max_attempts (attempts + 1) ranked w').
    { cbn [ai_attack_loop]. unfold bind at 1. rewrite Hv.
      unfold bind at 1. rewrite is_hit_record, Hmiss.
      now destruct (max_attempts <=? attempts + 1)%Z. }
    rewrite Hstep.
    assert (Hsent' : sent_otps w' = sent_otps w ++ [otp]).
    { unfold sent_otps. now rewrite Hs', map_app. }
    destruct (Z.leb_spec max_attempts (attempts + 1)) as [Hle | Hgt].
    + unfold logger_info.
      destruct (logger_log_spec harpy_ai_otp_logger INFO
                  (MsgReachedMax max_attempts) w') as (w1 & -> & Hs1).
      destruct Hs1 as (_ & _ & _ & Hse1 & _).
      split; [reflexivity |]. cbn [snd]. unfold sent_otps at 1.
      rewrite Hse1. fold (sent_otps w'). rewrite Hsent'.
      replace (Z.to_nat (Z.max 1 (max_attempts - attempts))) with 1%nat
        by lia.
      reflexivity.
    + destruct (IH (attempts + 1)%Z w'
                  (l ++ [make_record otp st (lower (strip tx)) (PFloat el)]))
        as (Hok & Hsent).
      { now rewrite Hn'. }
      { exact Hh'. }
      split; [exact Hok |]. rewrite Hsent, Hsent', <- app_assoc.
      replace (Z.to_nat (Z.max 1 (max_attempts - attempts)))
        with (S (Z.to_nat (Z.max 1 (max_attempts - (attempts + 1)))))
        by lia.
      reflexivity.
Qed.

(** On a classifier that was never fitted, with no hit, [ai_attack]
    submits the first [max_attempts] candidates of the space in their
    numeric order (one candidate when [max_attempts] is below one). *)
Lemma ai_attack_unfitted_sweep (max_attempts : Z) (digits : nat) (w : World)
  (l : list pyval) :
  classifier (w_engine w) = None ->
  never_hits (w_net w) ->
  history (w_engine w) = PList l ->
  fst (ai_attack max_attempts digits w) = Ok tt /\
  sent_otps (snd (ai_attack max_attempts digits w))
  = sent_otps w
    ++ take (Z.to_nat (Z.max 1 max_attempts)) (candidates digits).
Proof.
  intros Hc Hnet Hh.
  assert (E : exists w4,
            ai_attack max_attempts digits w
            = ai_attack_loop max_attempts 0 (candidates digits) w4 /\
            same_but_log w w4).
  { unfold ai_attack. rewrite ai_attack_guard. cbn [negb].
    unfold bind at 1, logger_info at 1.
    destruct (logger_log_spec harpy_ai_otp_logger INFO
                (MsgGenerating (10 ^ N.of_nat digits)) w) as (w1 & -> & Hs1).
    unfold bind at 1, logger_info at 1.
    destruct (logger_log_spec harpy_ai_otp_logger INFO MsgRanking w1)
      as (w2 & -> & Hs2).
    destruct (rank_keys_unfitted (candidates digits) w2) as (w3 & Hr & Hs3).
    { destruct Hs2 as (-> & _). destruct Hs1 as (-> & _). exact Hc. }
    unfold bind at 1. rewrite Hr. rewrite sorted_desc_equal_keys.
    unfold bind at 1, logger_info at 1.
    destruct (logger_log_spec harpy_ai_otp_logger INFO
                (MsgLaunchingAI max_attempts) w3) as (w4 & -> & Hs4).
    exists w4. split; [reflexivity |].
    unfold same_but_log in *. intuition congruence. }
  destruct E as (w4 & -> & He & _ & Hn & Hse & _).
  destruct (ai_attack_loop_sweep max_attempts (candidates digits) 0 w4 l)
    as (Hok & Hsent).
  { now rewrite Hn. }
  { now rewrite He. }
  split; [exact Hok |]. rewrite Hsent. unfold sent_otps.
  now rewrite Hse, Z.sub_0_r.
Qed.

(** A hit ends the sequential loop with the [NameError] of its success
    branch, whatever is left of the range. *)
Lemma adaptive_attack_loop_hit (digits i : nat) (range : list nat)
  (w : World) (l : list pyval) (st : Z) (tx : pystr) (el : float) :
  history (w_engine w) = PList l ->
  w_net w (w_sent w) (verify_request (format_0d digits (N.of_nat i)) w)
  = Responds st tx el ->
  is_success (lower (strip tx)) st = true ->
  fst (adaptive_attack_loop digits (i :: range) w) = Raise (NameError "Fore").
Proof.
  intros Hh Hr Hhit.
  destruct (verify_responds _ w l st tx el Hh Hr) as (w' & Hv & _).
  cbn [adaptive_attack_loop]. unfold bind at 1. rewrite Hv.
  unfold bind at 1. rewrite is_hit_record, Hhit.
  now rewrite success_branch_raises.
Qed.

End UnfittedFacts.

Module AttackClaims.
Import Examples.

(** Claim C3 fails on the code.  On an engine whose classifier was never
    fitted, [ai_attack] with [max_attempts=2], [digits=1] does not stop at
    its guard: it logs no "not trained" error and submits the candidates
    ["0"] and ["1"]. *)
Theorem ai_attack_unfitted_submits :
  let w := fresh_world (always 400 "Bad OTP") in
  classifier (w_engine w) = None /\
  fst (ai_attack 2 1 w) = Ok tt /\
  sent_otps (snd (ai_attack 2 1 w)) = [py "0"; py "1"] /\
  logged is_not_trained (snd (ai_attack 2 1 w)) = false.
Proof. vm_compute. repeat split. Qed.

(** Claim C5 fails on the code.  When the first answer is a hit (status
    200), [adaptive_attack] and [ai_attack] both end with
    [NameError: name 'Fore' is not defined], after the one call. *)
Theorem attack_hit_raises_NameError :
  let w := fresh_world (always 200 "OK") in
  fst (adaptive_attack 5 3 w) = Raise (NameError "Fore") /\
  sent_otps (snd (adaptive_attack 5 3 w)) = [py "000"] /\
  fst (ai_attack 5 1 w) = Raise (NameError "Fore") /\
  sent_otps (snd (ai_attack 5 1 w)) = [py "0"].
Proof. vm_compute. repeat split. Qed.

(** The scenario of the sequential strategy: [digits=3], [maxAttempts=5],
    every answer 400. *)
Lemma adaptive_attack_scenario :
  let w := fresh_world (always 400 "Bad OTP") in
  fst (adaptive_attack 5 3 w) = Ok tt /\
  sent_otps (snd (adaptive_attack 5 3 w))
  = [py "000"; py "001"; py "002"; py "003"; py "004"] /\
  req_url <$> head (w_sent (snd (adaptive_attack 5 3 w)))
  = Some (py "https://t.test/auth/verify-otp").
Proof. vm_compute. repeat split. Qed.

(** The sibling sweeps stay in the space: for three digits the tuples of
    [brute_force] are the candidates of [ai_attack], in the same order. *)
Example product_is_candidates_3 :
  product (py "0123456789") 3 = candidates 3.
Proof. vm_compute. reflexivity. Qed.

(** Claim C7 fails on the code.  [adaptive_attack] with [digits=1] and
    [max_attempts=11], every answer 400, submits ["10"] as its eleventh
    candidate, which is not one of the [10^1] candidates of one digit. *)
Theorem adaptive_attack_leaves_candidate_space :
  let w := fresh_world (always 400 "Bad OTP") in
  fst (adaptive_attack 11 1 w) = Ok tt /\
  sent_otps (snd (adaptive_attack 11 1 w))
  = candidates 1 ++ [py "10"] /\
  py "10" ∉ candidates 1.
Proof.
  vm_compute. repeat split.
  intros Hin. repeat (apply elem_of_cons in Hin as [Hin | Hin];
                      [discriminate |]).
  now apply elem_of_nil in Hin.
Qed.

End AttackClaims.

(* ===================================================================== *)
(** ** Persistence *)
(* ===================================================================== *)

Section PersistenceFacts.
Context `{PyFloat} `{!Forest}.

Lemma save_state_writes (w : World) :
  w_writable w (state_file (w_engine w)) = true ->
  exists w',
    save_state w = (Ok tt, w') /\
    w_files w' =
      <[state_file (w_engine w) := Json.dumps (history (w_engine w))]>
        (w_files w) /\
    w_engine w' = w_engine w.
Proof.
  intros Hw. unfold save_state, try_except, bind, write_state. rewrite Hw.
  match goal with
  | |- context [logger_info ?m ?x] =>
      destruct (logger_log_spec harpy_ai_otp_logger INFO m x)
        as (w1 & E & Hs)
  end.
  unfold logger_info. rewrite E.
  destruct Hs as (He & _ & _ & _ & _ & Hf & _).
  exists w1. split; [reflexivity |]. rewrite Hf, He. split; reflexivity.
Qed.

Lemma load_state_reads (w : World) (content : pystr) (v : pyval) :
  w_files w !! state_file (w_engine w) = Some content ->
  Json.loads content = Some v ->
  exists w',
    load_state w = (Ok tt, w') /\
    w_engine w' = set_history v (w_engine w).
Proof.
  intros Hf Hl. unfold load_state, try_except, bind, read_state.
  rewrite Hf, Hl.
  match goal with
  | |- context [logger_info ?m ?x] =>
      destruct (logger_log_spec harpy_ai_otp_logger INFO m x)
        as (w1 & E & Hs)
  end.
  unfold logger_info. rewrite E. destruct Hs as (He & _).
  exists w1. split; [reflexivity | exact He].
Qed.

(** Claim C9.  Saving a history of attempt records and loading the file
    back, in the same engine or in any engine with the same state file,
    gives the same history: the same records with the same four fields,
    in the same order.  (This holds for the empty history as well.) *)
Theorem save_load_roundtrip (w w_later : World) (h : list AttemptRecord) :
  Forall wf_record h ->
  history (w_engine w) = history_of h ->
  w_writable w (state_file (w_engine w)) = true ->
  w_files w_later = w_files (snd (save_state w)) ->
  state_file (w_engine w_later) = state_file (w_engine w) ->
  fst (save_state w) = Ok tt /\
  fst (load_state w_later) = Ok tt /\
  history (w_engine (snd (load_state w_later))) = history_of h.
Proof.
  intros Hwf Hh Hw Hfiles Hfile.
  destruct (save_state_writes w Hw) as (w1 & Es & Hf1 & _).
  rewrite Es in *. cbn [fst snd] in *. split; [reflexivity |].
  destruct (load_state_reads w_later (Json.dumps (history_of h))
              (history_of h)) as (w2 & El & He2).
  - rewrite Hfiles, Hf1, Hfile, Hh. apply lookup_insert_eq.
  - now apply JsonFacts.loads_dumps_history.
  - rewrite El. cbn [fst snd]. split; [reflexivity |]. now rewrite He2.
Qed.

(** Claim C10, amended.  When the state file is missing, or when its
    content is not JSON, [load_state] does not raise: it reports the
    condition (a warning for the missing file, an error for the malformed
    one) and leaves the engine, its history included, as it was. *)
Theorem load_state_fail_open (w : World) :
  let file := state_file (w_engine w) in
  (w_files w !! file = None ->
     load_state w = logger_warning (MsgNoSavedState file) w) /\
  (forall content,
     w_files w !! file = Some content -> Json.loads content = None ->
     load_state w = logger_error (MsgCorrupted file) w) /\
  (w_files w !! file = None \/
   (exists content,
      w_files w !! file = Some content /\ Json.loads content = None) ->
   fst (load_state w) = Ok tt /\
   w_engine (snd (load_state w)) = w_engine w).
Proof.
  intros file.
  assert (Hmiss : w_files w !! file = None ->
            load_state w = logger_warning (MsgNoSavedState file) w).
  { intros Hf. unfold load_state, try_except, bind, read_state.
    fold file. now rewrite Hf. }
  assert (Hbad : forall content,
            w_files w !! file = Some content -> Json.loads content = None ->
            load_state w = logger_error (MsgCorrupted file) w).
  { intros content Hf Hl. unfold load_state, try_except, bind, read_state.
    fold file. now rewrite Hf, Hl. }
  split; [exact Hmiss |]. split; [exact Hbad |].
  intros [Hf | (content & Hf & Hl)].
  - rewrite (Hmiss Hf). unfold logger_warning.
    destruct (logger_log_spec harpy_ai_otp_logger WARNING
                (MsgNoSavedState file) w) as (w1 & -> & He & _).
    split; [reflexivity | exact He].
  - rewrite (Hbad content Hf Hl). unfold logger_error.
    destruct (logger_log_spec harpy_ai_otp_logger ERROR
                (MsgCorrupted file) w) as (w1 & -> & He & _).
    split; [reflexivity | exact He].
Qed.

End PersistenceFacts.

Module PersistenceClaims.
Import Examples.

(** The round trip of the history of one attempt. *)
Lemma save_load_roundtrip_witness :
  let w := after_one_attempt in
  let w_later := snd (save_state w) in
  (Forall wf_record one_attempt /\
   history (w_engine w) = history_of one_attempt /\
   w_writable w (state_file (w_engine w)) = true /\
   w_files w_later = w_files (snd (save_state w)) /\
   state_file (w_engine w_later) = state_file (w_engine w)) /\
  fst (save_state w) = Ok tt /\
  fst (load_state w_later) = Ok tt /\
  history (w_engine (snd (load_state w_later))) = history_of one_attempt.
Proof.
  intros w w_later.
  assert (Hwf : Forall wf_record one_attempt).
  { repeat constructor; vm_compute; reflexivity. }
  assert (Hh : history (w_engine w) = history_of one_attempt)
    by (vm_compute; reflexivity).
  assert (Hw : w_writable w (state_file (w_engine w)) = true)
    by reflexivity.
  assert (Hs : state_file (w_engine w_later) = state_file (w_engine w))
    by (vm_compute; reflexivity).
  split; [repeat split; assumption |].
  exact (save_load_roundtrip w w_later one_attempt Hwf Hh Hw eq_refl Hs).
Defined.

(** The file that [save_state] wrote for the one attempt. *)
Example saved_text :
  display <$>
    w_files (snd (save_state after_one_attempt)) !! py "ai_otp_state_u1.json"
  = Some "[
    {
        'otp': '000',
        'status': 400,
        'text': 'bad otp',
        'time': 0.3
    }
]"%string.
Proof. vm_compute. reflexivity. Qed.

(** A state file that holds an opening brace only. *)
Lemma load_state_fail_open_witness :
  let w := with_file "{" after_one_attempt in
  let file := state_file (w_engine w) in
  (w_files w !! file = None \/
   (exists content,
      w_files w !! file = Some content /\ Json.loads content = None)) /\
  fst (load_state w) = Ok tt /\
  w_engine (snd (load_state w)) = w_engine w.
Proof.
  intros w file.
  assert (Hbad : exists content,
            w_files w !! file = Some content /\ Json.loads content = None).
  { exists (py "{"). split; vm_compute; reflexivity. }
  split; [right; exact Hbad |].
  exact (proj2 (proj2 (load_state_fail_open w)) (or_intror Hbad)).
Defined.

(** Claim C10 as stated fails: an engine that holds one record and finds no
    state file, or a malformed one, still holds the record after
    [load_state]; its history is not empty. *)
Lemma load_state_keeps_records :
  let w := after_one_attempt in
  w_files w !! state_file (w_engine w) = None /\
  fst (load_state w) = Ok tt /\
  history (w_engine (snd (load_state w))) = history_of one_attempt /\
  Json.loads (py "{") = None /\
  fst (load_state (with_file "{" w)) = Ok tt /\
  history (w_engine (snd (load_state (with_file "{" w))))
  = history_of one_attempt /\
  history_of one_attempt <> PList [].
Proof. vm_compute. repeat split. discriminate. Qed.

End PersistenceClaims.

(* ===================================================================== *)
(** ** The proxy monitor *)
(* ===================================================================== *)

Section MonitorFacts.
Context `{PyFloat} `{!Forest}.

(** Every call of [verify] puts exactly its request on the wire. *)
Lemma verify_sends (otp : pystr) (w : World) :
  w_sent (snd (verify otp w)) = w_sent w ++ [verify_request otp w].
Proof.
  destruct (verify_prologue otp w) as (w0 & Hs & ->).
  destruct Hs as (He & Hm & Hn & Hse & Hl & Hf & Hw & Hev).
  unfold try_except, bind, session_post.
  destruct (w_net w0 (w_sent w0) (verify_request otp w)) as [st tx el | e].
  - unfold history_append. cbn [w_engine set_sent].
    destruct (history (w_engine w0)); try (cbn; now rewrite Hse).
    match goal with
    | |- context [_log ?lv ?m ?x] =>
        destruct (_log_spec lv m x) as (w1 & -> & Hs1)
    end.
    destruct Hs1 as (_ & _ & _ & Hse1 & _). cbn. now rewrite Hse1, <- Hse.
  - destruct (verify_handler otp e) as [h |] eqn:Eh;
      [| cbn; now rewrite Hse].
    destruct e; try discriminate. unfold verify_handler in Eh.
    pose proof (issubclass_RequestException c) as Hr. rewrite Hr in Eh.
    destruct (issubclass c ProxyError), (issubclass c ConnectionError),
      (issubclass c Timeout); injection Eh as <-;
      unfold bind, logger_error;
      match goal with
      | |- context [logger_log ?n ?lv ?m ?x] =>
          destruct (logger_log_spec n lv m x) as (w1 & -> & Hs1)
      end;
      destruct Hs1 as (_ & _ & _ & Hse1 & _); cbn; now rewrite Hse1, <- Hse.
Qed.

(** While the monitor that the engine refers to is not alive, the request
    of [verify] carries no proxies. *)
Lemma verify_request_direct (otp : pystr) (w : World) (loc : nat)
  (m : ProxyMonitor) :
  proxy_monitor (w_engine w) = Some loc ->
  w_monitors w !! loc = Some m ->
  alive m = false ->
  req_proxies (verify_request otp w) = None.
Proof.
  intros Hp Hm Ha. unfold verify_request, proxy_down. cbn.
  now rewrite Hp, Hm, Ha.
Qed.

Lemma proxy_alive_spec (url : pystr) (o : probe_outcome) (w : World) :
  exists b w',
    proxy_alive url o w = (Ok b, w') /\
    w_events w' = w_events w ++ [EvProbe url b] /\
    w_monitors w' = w_monitors w /\
    (b = true <-> o = ProbeConnected).
Proof.
  destruct o; cbn; eexists _, _; (split; [reflexivity |]);
    repeat split; intros; try reflexivity; discriminate.
Qed.

Lemma stop_spec (loc : nat) (w : World) (m : ProxyMonitor) :
  w_monitors w !! loc = Some m ->
  exists m',
    w_monitors (snd (stop loc w)) !! loc = Some m' /\
    running m' = false /\ force m' = force m /\
    proxy_url m' = proxy_url m /\
    w_events (snd (stop loc w)) = w_events w.
Proof.
  intros Hm. unfold stop, bind. rewrite Hm. cbn.
  eexists. rewrite lookup_insert_eq. repeat split.
Qed.

(** The run of the monitor thread without force mode: either it meets no
    failure, or its events end with the one failed probe and the one store
    of [alive = False], and the loop is left. *)
Lemma monitor_run (loc : nat) (env : list tick) :
  forall (w : World) (m : ProxyMonitor),
    w_monitors w !! loc = Some m ->
    force m = false ->
    exists evs,
      w_events (snd (_monitor loc env w)) = w_events w ++ evs /\
      (Forall quiet evs \/
       (exists pre,
          evs = pre ++ [EvProbe (proxy_url m) false; EvStoreAlive loc false]
          /\ Forall quiet pre) /\
       fst (_monitor loc env w) = Down /\
       exists m',
         w_monitors (snd (_monitor loc env w)) !! loc = Some m' /\
         alive m' = false).
Proof.
  induction env as [|t env IH]; intros w m Hm Hforce.
  - exists []. cbn. rewrite app_nil_r. split; [reflexivity | left; constructor].
  - cbn [_monitor].
    set (w0 := if stop_called t then snd (stop loc w) else w).
    assert (Hw0 : exists m0, w_monitors w0 !! loc = Some m0 /\
                   force m0 = false /\ proxy_url m0 = proxy_url m /\
                   w_events w0 = w_events w).
    { unfold w0. destruct (stop_called t).
      - destruct (stop_spec loc w m Hm) as (m' & ? & ? & ? & ? & ?).
        exists m'. repeat split; congruence.
      - exists m. repeat split; assumption. }
    destruct Hw0 as (m0 & Hm0 & Hf0 & Hu0 & Hev0). rewrite Hm0.
    destruct (running m0); cbn [negb].
    2: { exists []. cbn. rewrite app_nil_r.
         split; [exact Hev0 | left; constructor]. }
    destruct (proxy_alive_spec (proxy_url m0) (probe t) w0)
      as (b & w1 & -> & Hev1 & Hmon1 & _).
    destruct b.
    + (* the proxy answers: sleep, next turn *)
      destruct (IH (snd (sleep (check_interval m0) w1)) m0) as (evs & He & Hc).
      { cbn. now rewrite Hmon1. }
      { exact Hf0. }
      exists (EvProbe (proxy_url m0) true :: EvSleep (check_interval m0) :: evs).
      split.
      * rewrite He. cbn. rewrite Hev1, Hev0, <- !app_assoc. reflexivity.
      * destruct Hc as [Hq | ((pre & -> & Hq) & Hd & Hm')].
        -- left. repeat constructor. exact Hq.
        -- right. split; [| split; assumption].
           exists (EvProbe (proxy_url m0) true
                   :: EvSleep (check_interval m0) :: pre).
           rewrite Hu0. split; [reflexivity | repeat constructor; exact Hq].
    + (* the probe fails: one store, then out of the loop *)
      rewrite Hf0. unfold store_alive. rewrite Hmon1, Hm0. cbn.
      exists [EvProbe (proxy_url m0) false; EvStoreAlive loc false].
      split; [rewrite Hev1, Hev0, <- app_assoc; reflexivity |].
      right. split; [exists []; rewrite Hu0; split; [reflexivity | constructor] |].
      split; [reflexivity |].
      eexists. rewrite lookup_insert_eq. split; reflexivity.
Qed.

(** Claim C8.  Without force mode, a monitor that observes a failed probe
    has stored [alive = False] once, right after that probe, which is its
    last: before it there are only probes that found the proxy and sleeps;
    the loop is left and the monitor object is not alive.  From then on a
    call of [verify] in an engine that refers to this monitor, while the
    monitor is not alive, sends its request with no proxies. *)
Theorem monitor_single_shot (loc : nat) (env : list tick) (w : World)
  (m : ProxyMonitor) (evs : list monitor_event) :
  w_monitors w !! loc = Some m ->
  force m = false ->
  w_events (snd (_monitor loc env w)) = w_events w ++ evs ->
  (exists url, EvProbe url false ∈ evs) ->
  (exists pre,
     evs = pre ++ [EvProbe (proxy_url m) false; EvStoreAlive loc false] /\
     Forall quiet pre) /\
  fst (_monitor loc env w) = Down /\
  (exists m',
     w_monitors (snd (_monitor loc env w)) !! loc = Some m' /\
     alive m' = false) /\
  (forall (w2 : World) (otp : pystr) (m2 : ProxyMonitor),
     proxy_monitor (w_engine w2) = Some loc ->
     w_monitors w2 !! loc = Some m2 ->
     alive m2 = false ->
     req_proxies (verify_request otp w2) = None /\
     w_sent (snd (verify otp w2)) = w_sent w2 ++ [verify_request otp w2]).
Proof.
  intros Hm Hforce Hev (url & Hin).
  destruct (monitor_run loc env w m Hm Hforce) as (evs' & Hev' & Hc).
  assert (evs' = evs) as -> by (rewrite Hev in Hev'; now apply app_inv_head in Hev').
  destruct Hc as [Hq | (Hpre & Hd & Hm')].
  - exfalso. rewrite Forall_forall in Hq. exact (Hq _ Hin).
  - repeat split; try assumption.
    + eapply verify_request_direct; eassumption.
    + apply verify_sends.
Qed.

End MonitorFacts.

Module MonitorClaims.
Import Examples.

(** A monitor that finds the proxy twice and then loses it; the turns
    after the failure are not looked at. *)
Lemma monitor_single_shot_witness :
  let env := [up; up; down; up; up] in
  let w := monitored_world in
  (w_monitors w !! 0%nat = Some the_monitor /\
   force the_monitor = false /\
   w_events (snd (_monitor 0 env w)) = w_events w ++ observed /\
   (exists url, EvProbe url false ∈ observed)) /\
  (exists pre,
     observed
     = pre ++ [EvProbe (proxy_url the_monitor) false; EvStoreAlive 0 false]
     /\ Forall quiet pre) /\
  fst (_monitor 0 env w) = Down /\
  (exists m',
     w_monitors (snd (_monitor 0 env w)) !! 0%nat = Some m' /\
     alive m' = false) /\
  (forall (w2 : World) (otp : pystr) (m2 : ProxyMonitor),
     proxy_monitor (w_engine w2) = Some 0%nat ->
     w_monitors w2 !! 0%nat = Some m2 ->
     alive m2 = false ->
     req_proxies (verify_request otp w2) = None /\
     w_sent (snd (verify otp w2)) = w_sent w2 ++ [verify_request otp w2]).
Proof.
  intros env w.
  assert (H1 : w_monitors w !! 0%nat = Some the_monitor)
    by (vm_compute; reflexivity).
  assert (H2 : force the_monitor = false) by reflexivity.
  assert (H3 : w_events (snd (_monitor 0 env w)) = w_events w ++ observed)
    by (vm_compute; reflexivity).
  assert (H4 : exists url, EvProbe url false ∈ observed).
  { exists burp. unfold observed. rewrite !elem_of_cons.
    do 4 right. left. reflexivity. }
  split; [repeat split; assumption |].
  exact (monitor_single_shot 0 env w the_monitor observed H1 H2 H3 H4).
Defined.

(** The same run, seen from the engine: before the failure the request
    goes through the proxy, after it the request carries none. *)
Example routing_follows_the_monitor :
  let w := monitored_world in
  let w' := snd (_monitor 0 [up; up; down] w) in
  req_proxies (verify_request (py "000") w) = Some (burp, burp) /\
  proxies (w_engine w') = Some (burp, burp) /\
  req_proxies <$> w_sent (snd (verify (py "000") w')) = [None].
Proof. vm_compute. repeat split. Qed.

End MonitorClaims.

(* ===================================================================== *)
(** ** The race strategy of [OTPAttacker] *)
(* ===================================================================== *)

Section RaceFacts.
Context `{PyFloat} `{!Forest}.






End RaceFacts.

Module RaceClaims.
Import Examples.

(** The constant server answers every call. *)
Lemma always_always_responds st body : always_responds (always st body).
Proof. intros sent req. unfold always. eauto. Qed.



(** On a network where every call fails, the calls that have not started
    when the first exception is seen are cancelled: one call of three is
    issued when the collecting thread is quick, all three when every worker
    has started by then; [race_attack] raises in both cases. *)
Example race_attack_cancels_after_failure :
  let e := Requests ConnectionError in
  let w := fresh_world (failing e) in
  let quick :=
    race_attack the_attacker (py "123456") 3
      [(0, false); (0, true)]%nat w in
  let late := race_attack the_attacker (py "123456") 3 [] w in
  fst quick = Raise e /\ length (w_sent (snd quick)) = 1%nat /\
  fst late = Raise e /\ length (w_sent (snd late)) = 3%nat.
Proof. vm_compute. repeat split. Qed.

End RaceClaims.

(* ===================================================================== *)
(** ** The ranking model *)
(* ===================================================================== *)

Section ModelFacts.
Context `{PyFloat} `{!Forest}.

Lemma record_of_dict (r : AttemptRecord) : record_of (dict_of_record r) = Some r.
Proof. destruct r. reflexivity. Qed.

Lemma records_of_history (recs : list AttemptRecord) :
  records_of (map dict_of_record recs) = Some recs.
Proof.
  induction recs as [|r recs IH]; [reflexivity |].
  cbn [map records_of]. now rewrite record_of_dict, IH.
Qed.

Lemma label_of_fails (recs : list AttemptRecord) :
  Forall fails recs ->
  map label_of recs = repeat (py "fail") (length recs).
Proof.
  induction 1 as [|r recs Hr _ IH]; [reflexivity |].
  cbn [map length repeat]. unfold label_of at 1. rewrite Hr. now rewrite IH.
Qed.

Lemma str_eqb_refl (c : pystr) : str_eqb c c = true.
Proof. unfold str_eqb. now apply bool_decide_eq_true_2. Qed.

Lemma label_classes_repeat (c : pystr) (n : nat) :
  label_classes (repeat c (S n)) = [c].
Proof.
  induction n as [|n IH]; [reflexivity |].
  change (label_classes (repeat c (S (S n))))
    with (insert_class c (label_classes (repeat c (S n)))).
  rewrite IH. cbn [insert_class]. now rewrite str_eqb_refl.
Qed.

Lemma encode_labels_repeat (c : pystr) (n : nat) :
  encode_labels [c] (repeat c n) = repeat 0%nat n.
Proof.
  induction n as [|n IH]; [reflexivity |].
  cbn [repeat]. unfold encode_labels in *. cbn [map]. rewrite IH.
  cbn [class_index]. now rewrite str_eqb_refl.
Qed.

(** What [train_model] does on a history of failures: the encoder gets the
    one class, and the classifier is the fitted one when [fit] returns. *)
Lemma train_model_fails (w : World) (recs : list AttemptRecord) :
  recs <> [] ->
  history (w_engine w) = history_of recs ->
  Forall fails recs ->
  fst (train_model w) = Ok tt /\
  encoder_classes (w_engine (snd (train_model w))) = Some [py "fail"] /\
  classifier (w_engine (snd (train_model w))) =
    match forest_fit (map features_of recs) (repeat 0%nat (length recs)) with
    | Ok fitted => Some fitted
    | Raise _ => classifier (w_engine w)
    end.
Proof.
  intros Hne Hh Hf. unfold train_model. rewrite Hh. unfold history_of.
  destruct recs as [|r recs]; [congruence |].
  cbn [truthy map length]. rewrite bool_decide_eq_false_2 by discriminate.
  cbn [negb]. change (dict_of_record r :: map dict_of_record recs)
    with (map dict_of_record (r :: recs)).
  rewrite records_of_history, (label_of_fails _ Hf).
  cbn [length]. rewrite label_classes_repeat, encode_labels_repeat.
  destruct (forest_fit _ _) as [fitted | ex].
  - match goal with
    | |- context [_log ?lv ?m ?x] =>
        destruct (_log_spec lv m x) as (w1 & -> & Hs1)
    end.
    destruct Hs1 as (He1 & _). cbn [fst snd]. rewrite He1. repeat split.
  - destruct (is_ValueError ex);
      unfold logger_error;
      match goal with
      | |- context [logger_log ?n ?lv ?m ?x] =>
          destruct (logger_log_spec n lv m x) as (w1 & -> & Hs1)
      end;
      destruct Hs1 as (He1 & _); cbn [fst snd]; rewrite He1; repeat split.
Qed.

(** Without the label [success] among the classes of the encoder, every
    prediction is [0.0], whatever the classifier is. *)
Lemma predict_likelihood_no_success (otp : pystr) (w : World)
  (classes : list pystr) :
  encoder_classes (w_engine w) = Some classes ->
  py "success" ∉ classes ->
  fst (predict_likelihood otp w) = Ok float_zero.
Proof.
  intros Hc Hs.
  unfold predict_likelihood, try_except, bind, classifier_predict_proba.
  destruct (classifier (w_engine w)) as [fitted |].
  - destruct (forest_predict_proba fitted _) as [proba | ex].
    + unfold encoder_classes_. rewrite Hc.
      rewrite bool_decide_eq_false_2 by exact Hs.
      destruct (_log_spec WARNING MsgNoSuccessLabel w) as (w1 & -> & _).
      reflexivity.
    + unfold logger_error.
      destruct (logger_log_spec harpy_ai_otp_logger ERROR
                  (MsgPredictError otp) w) as (w1 & -> & _).
      reflexivity.
  - unfold logger_error.
    destruct (logger_log_spec harpy_ai_otp_logger ERROR
                (MsgPredictError otp) w) as (w1 & -> & _).
    reflexivity.
Qed.

(** Claim C4, amended.  When the history is not empty, every record
    carries the [fail] label and the candidate of every record is empty or
    starts with an ASCII character (there [first_digit] is what the code
    computes; on another head [int] can raise before the [try]),
    [train_model] returns without raising and the label encoder is left
    with the one class [fail]; the classifier is the one [fit] returns when
    it accepts the sample (the model is then a trained one), and is left as
    it was when [fit] raises.  In every later state with this encoder,
    [predict_likelihood] returns [0.0] for every candidate that is empty or
    starts with an ASCII character. *)
Theorem train_on_failures_predicts_zero (w : World)
  (recs : list AttemptRecord) :
  recs <> [] ->
  history (w_engine w) = history_of recs ->
  Forall fails recs ->
  Forall (fun r => ascii_head (otp r)) recs ->
  fst (train_model w) = Ok tt /\
  encoder_classes (w_engine (snd (train_model w))) = Some [py "fail"] /\
  (forall fitted,
     forest_fit (map features_of recs) (repeat 0%nat (length recs))
     = Ok fitted ->
     classifier (w_engine (snd (train_model w))) = Some fitted) /\
  (forall (w2 : World) (cand : pystr),
     ascii_head cand ->
     encoder_classes (w_engine w2)
     = encoder_classes (w_engine (snd (train_model w))) ->
     fst (predict_likelihood cand w2) = Ok float_zero).
Proof.
  intros Hne Hh Hf _.
  destruct (train_model_fails w recs Hne Hh Hf) as (Hr & Hc & Hcl).
  split; [exact Hr |]. split; [exact Hc |]. split.
  - intros fitted Hfit. now rewrite Hcl, Hfit.
  - intros w2 cand _ Hw2. rewrite Hc in Hw2.
    apply (predict_likelihood_no_success cand w2 [py "fail"] Hw2).
    rewrite elem_of_cons, elem_of_nil. intros [Heq | []]. discriminate.
Qed.

End ModelFacts.

Module ModelClaims.
Import Examples AttackClaims PersistenceClaims.

(** Training on the history of one failed attempt. *)
Lemma train_on_failures_predicts_zero_witness :
  let w := after_one_attempt in
  (one_attempt <> [] /\
   history (w_engine w) = history_of one_attempt /\
   Forall fails one_attempt /\
   Forall (fun r => ascii_head (otp r)) one_attempt) /\
  fst (train_model w) = Ok tt /\
  encoder_classes (w_engine (snd (train_model w))) = Some [py "fail"] /\
  (forall fitted,
     forest_fit (map features_of one_attempt)
       (repeat 0%nat (length one_attempt)) = Ok fitted ->
     classifier (w_engine (snd (train_model w))) = Some fitted) /\
  (forall (w2 : World) (cand : pystr),
     ascii_head cand ->
     encoder_classes (w_engine w2)
     = encoder_classes (w_engine (snd (train_model w))) ->
     fst (predict_likelihood cand w2) = Ok float_zero).
Proof.
  intros w.
  assert (H1 : one_attempt <> []) by discriminate.
  assert (H2 : history (w_engine w) = history_of one_attempt)
    by (vm_compute; reflexivity).
  assert (H3 : Forall fails one_attempt)
    by (repeat constructor; vm_compute; reflexivity).
  assert (H4 : Forall (fun r => ascii_head (otp r)) one_attempt)
    by (repeat constructor; vm_compute; reflexivity).
  split; [repeat split; assumption |].
  exact (train_on_failures_predicts_zero w one_attempt H1 H2 H3 H4).
Defined.

(** Claim C4 as stated fails: with an estimator that, like the forest,
    accepts a sample of one class, training on a history of one failure
    leaves a fitted classifier and logs the success of the training, no
    error; the prediction that follows is [0.0]. *)
Lemma train_on_failures_fits :
  let w := after_one_attempt in
  let w' := snd (train_model w) in
  Forall fails one_attempt /\
  history (w_engine w) = history_of one_attempt /\
  classifier (w_engine w) = None /\
  classifier (w_engine w') = Some [0%nat] /\
  logged is_trained w' = true /\
  logged is_train_error w' = false /\
  fst (predict_likelihood (py "123") w') = Ok (0 : N).
Proof.
  vm_compute. split; [| repeat split].
  repeat constructor.
Qed.

End ModelClaims.

(* ===================================================================== *)
(** * Further properties *)
(* ===================================================================== *)

(* --------------------------------------------------------------------- *)
(** ** Zero-padded numerals *)

Section NumeralFacts.

Lemma decimal_value_acc (s : pystr) (a : N) :
  fold_left (fun a c => 10 * a + digit_value c) s a
  = a * 10 ^ N.of_nat (length s) + decimal_value s.
Proof.
  unfold decimal_value. revert a.
  induction s as [|c s IH]; intros a; cbn [fold_left length].
  - cbn. lia.
  - rewrite IH, (IH (10 * 0 + digit_value c)).
    rewrite Nat2N.inj_succ, N.pow_succ_r'.
    generalize (10 ^ N.of_nat (length s)). intros p. nia.
Qed.

Lemma decimal_value_cons (c : N) (s : pystr) :
  decimal_value (c :: s)
  = digit_value c * 10 ^ N.of_nat (length s) + decimal_value s.
Proof.
  unfold decimal_value at 1. cbn [fold_left].
  replace (10 * 0 + digit_value c) with (digit_value c) by lia.
  apply decimal_value_acc.
Qed.

Lemma isdigit_spec (c : N) : isdigit c = true <-> 48 <= c <= 57.
Proof. unfold isdigit. rewrite andb_true_iff, !N.leb_le. tauto. Qed.

Lemma digit_value_bound (c : N) : isdigit c = true -> digit_value c < 10.
Proof. rewrite isdigit_spec. unfold digit_value. lia. Qed.

Lemma decimal_value_bound (s : pystr) :
  digit_str s -> decimal_value s < 10 ^ N.of_nat (length s).
Proof.
  induction 1 as [|c s Hc _ IH].
  - cbn. lia.
  - rewrite decimal_value_cons. cbn [length].
    rewrite Nat2N.inj_succ, N.pow_succ_r'.
    pose proof (digit_value_bound c Hc). nia.
Qed.

(** Two strings of digits of one length that write one number are one
    string. *)
Lemma decimal_value_inj (s t : pystr) :
  digit_str s -> digit_str t -> length s = length t ->
  decimal_value s = decimal_value t -> s = t.
Proof.
  intros Hs. revert t. induction Hs as [|c s Hc Hs IH]; intros t Ht Hl Hv.
  - destruct t; [reflexivity | discriminate].
  - destruct Ht as [|d t Hd Ht]; [discriminate |].
    injection Hl as Hl. rewrite !decimal_value_cons, <- Hl in Hv.
    pose proof (decimal_value_bound s Hs) as Bs.
    pose proof (decimal_value_bound t Ht) as Bt. rewrite <- Hl in Bt.
    assert (Hcd : digit_value c = digit_value d) by nia.
    assert (c = d)
      by (apply isdigit_spec in Hc, Hd; unfold digit_value in *; lia).
    subst d. f_equal. apply IH; [exact Ht | exact Hl | nia].
Qed.

Lemma chars_of_uint_digits (u : Decimal.uint) : digit_str (chars_of_uint u).
Proof. induction u; cbn; constructor; auto. Qed.

Lemma decimal_value_of_uint_acc (u : Decimal.uint) (acc : positive) :
  fold_left (fun a c => 10 * a + digit_value c) (chars_of_uint u) (Npos acc)
  = Npos (Pos.of_uint_acc u acc).
Proof.
  revert acc. induction u; intros acc; cbn [chars_of_uint fold_left Pos.of_uint_acc];
    [reflexivity | ..];
    match goal with
    | |- fold_left _ _ ?a = _ =>
        match goal with
        | |- _ = Npos (Pos.of_uint_acc _ ?b) =>
            replace a with (Npos b) by (unfold digit_value; lia)
        end
    end; apply IHu.
Qed.

Lemma decimal_value_of_uint (u : Decimal.uint) :
  decimal_value (chars_of_uint u) = Pos.of_uint u.
Proof.
  unfold decimal_value.
  induction u; cbn [chars_of_uint fold_left Pos.of_uint];
    [reflexivity | exact IHu | ..];
    match goal with
    | |- fold_left _ _ ?a = Npos (Pos.of_uint_acc _ ?b) =>
        replace a with (Npos b) by (unfold digit_value; lia)
    end; apply decimal_value_of_uint_acc.
Qed.

Lemma decimal_value_str_of_N (n : N) : decimal_value (str_of_N n) = n.
Proof.
  unfold str_of_N. rewrite decimal_value_of_uint.
  exact (DecimalN.Unsigned.of_to n).
Qed.

Lemma decimal_value_zeros (k : nat) (s : pystr) :
  decimal_value (repeat Char.zero k ++ s) = decimal_value s.
Proof.
  induction k as [|k IH]; [reflexivity |].
  cbn [repeat app]. rewrite decimal_value_cons, IH.
  unfold Char.zero, digit_value. lia.
Qed.

(** [int(f"{i:0{digits}d}") == i] *)
Lemma decimal_value_format_0d (digits : nat) (i : N) :
  decimal_value (format_0d digits i) = i.
Proof.
  unfold format_0d. now rewrite decimal_value_zeros, decimal_value_str_of_N.
Qed.

Lemma format_0d_digits (digits : nat) (i : N) : digit_str (format_0d digits i).
Proof.
  unfold format_0d, digit_str. apply Forall_app. split.
  - apply Forall_forall. intros c Hc. apply list_elem_of_In, repeat_spec in Hc. now subst.
  - apply chars_of_uint_digits.
Qed.

(** The numeral of [i] has no more than [digits] characters exactly when
    [i < 10^digits], for a width of one at least. *)
Lemma str_of_N_length (digits : nat) (i : N) :
  (1 <= digits)%nat ->
  (length (str_of_N i) <= digits)%nat <-> i < 10 ^ N.of_nat digits.
Proof.
  intros Hd. pose proof (decimal_value_str_of_N i) as Hv.
  pose proof (decimal_value_bound (str_of_N i) (chars_of_uint_digits _)) as Hb.
  rewrite Hv in Hb. split.
  - intros Hl. eapply N.lt_le_trans; [exact Hb |].
    apply N.pow_le_mono_r; lia.
  - intros Hi. destruct i as [|p].
    + cbn. lia.
    + destruct (JsonFacts.to_uint_head p) as (c & t & E & Hc).
      unfold str_of_N in *. cbn [N.to_uint] in *. rewrite E in *.
      rewrite decimal_value_cons in Hv. cbn [length] in *.
      assert (Hlow : 10 ^ N.of_nat (length t) <= N.pos p).
      { unfold digit_value in Hv. nia. }
      destruct (Nat.le_gt_cases (S (length t)) digits) as [|Hgt]; [assumption |].
      exfalso.
      assert (10 ^ N.of_nat digits <= 10 ^ N.of_nat (length t))
        by (apply N.pow_le_mono_r; lia).
      lia.
Qed.

Lemma format_0d_length (digits : nat) (i : N) :
  length (format_0d digits i) = Nat.max digits (length (str_of_N i)).
Proof. unfold format_0d. rewrite length_app, repeat_length. lia. Qed.

Lemma format_0d_in_space (digits : nat) (i : N) :
  (1 <= digits)%nat -> i < 10 ^ N.of_nat digits ->
  length (format_0d digits i) = digits.
Proof.
  intros Hd Hi. rewrite format_0d_length.
  apply (str_of_N_length digits i Hd) in Hi. lia.
Qed.

Lemma format_0d_overflow (digits : nat) (i : N) :
  (1 <= digits)%nat -> 10 ^ N.of_nat digits <= i ->
  (digits < length (format_0d digits i))%nat.
Proof.
  intros Hd Hi. rewrite format_0d_length.
  pose proof (str_of_N_length digits i Hd) as Hiff.
  destruct (Nat.le_gt_cases (length (str_of_N i)) digits) as [Hle | Hgt];
    [apply Hiff in Hle |]; lia.
Qed.

(** The numeral of [q * 10^n + r] in [n + 1] places is the digit [q] and
    the numeral of [r] in [n] places. *)
Lemma format_0d_S (n : nat) (q r : N) :
  (1 <= n)%nat -> q < 10 -> r < 10 ^ N.of_nat n ->
  format_0d (S n) (q * 10 ^ N.of_nat n + r) = (48 + q) :: format_0d n r.
Proof.
  intros Hn Hq Hr.
  apply decimal_value_inj.
  - apply format_0d_digits.
  - constructor; [apply isdigit_spec; lia | apply format_0d_digits].
  - cbn [length]. rewrite !format_0d_in_space; try lia.
    rewrite Nat2N.inj_succ, N.pow_succ_r'. nia.
  - rewrite decimal_value_cons, !decimal_value_format_0d.
    rewrite format_0d_in_space by assumption.
    unfold digit_value. f_equal. f_equal. lia.
Qed.

End NumeralFacts.

(* --------------------------------------------------------------------- *)
(** ** The candidate space *)

Section CandidateFacts.
Context `{PyFloat} `{!Forest}.

Lemma seq_blocks (k m : nat) :
  seq 0 (k * m) = flat_map (fun q => seq (q * m) m) (seq 0 k).
Proof.
  induction k as [|k IH]; [reflexivity |].
  rewrite seq_S, flat_map_app. cbn [flat_map]. rewrite app_nil_r, <- IH.
  replace (S k * m)%nat with (k * m + m)%nat by lia.
  now rewrite seq_app.
Qed.

Lemma digits_alphabet :
  py "0123456789" = map (fun q => 48 + N.of_nat q) (seq 0 10).
Proof. reflexivity. Qed.

Lemma product_S (alphabet : pystr) (n : nat) :
  product alphabet (S n)
  = flat_map (fun c => map (cons c) (product alphabet n)) alphabet.
Proof.
  cbn [product]. generalize (product alphabet n). intros P.
  induction alphabet as [|c alphabet IH]; [reflexivity |].
  cbn. now rewrite <- IH.
Qed.

Lemma candidates_S (n : nat) :
  (1 <= n)%nat ->
  candidates (S n)
  = flat_map (fun q => map (cons (48 + N.of_nat q)) (candidates n)) (seq 0 10).
Proof.
  intros Hn. unfold candidates.
  replace (10 ^ S n)%nat with (10 * 10 ^ n)%nat by (cbn; lia).
  rewrite seq_blocks, flat_map_concat_map, concat_map, map_map.
  rewrite flat_map_concat_map. f_equal.
  apply map_ext_in. intros q Hq. apply in_seq in Hq.
  replace (seq (q * 10 ^ n) (10 ^ n))
    with (map (Nat.add (q * 10 ^ n)) (seq 0 (10 ^ n)))
    by (rewrite <- (Nat.add_0_r (q * 10 ^ n)) at 2; apply fmap_add_seq).
  rewrite !map_map. apply map_ext_in. intros r Hr. apply in_seq in Hr.
  rewrite <- format_0d_S; [f_equal | assumption | lia |].
  - rewrite Nat2N.inj_add, Nat2N.inj_mul, Nat2N.inj_pow. reflexivity.
  - change 10 with (N.of_nat 10). rewrite <- Nat2N.inj_pow. lia.
Qed.

Lemma candidates_product_S (n : nat) :
  candidates (S n) = product (py "0123456789") (S n).
Proof.
  induction n as [|n IH]; [reflexivity |].
  rewrite candidates_S by lia. rewrite product_S, IH.
  generalize (product (py "0123456789") (S n)). intros P.
  rewrite digits_alphabet.
  now rewrite (flat_map_concat_map _ (map _ _)), map_map,
    <- flat_map_concat_map.
Qed.

Lemma format_0d_inj (digits : nat) (i j : N) :
  format_0d digits i = format_0d digits j -> i = j.
Proof.
  intros E. apply (f_equal decimal_value) in E.
  now rewrite !decimal_value_format_0d in E.
Qed.

Lemma sweep_NoDup (digits n : nat) :
  NoDup (map (fun i => format_0d digits (N.of_nat i)) (seq 0 n)).
Proof.
  apply NoDup_fmap_2_strong; [| apply NoDup_seq].
  intros i j _ _ E. apply format_0d_inj in E. lia.
Qed.

End CandidateFacts.

Section CandidateProperties.
Context `{PyFloat} `{!Forest}.

(** X1.  The candidates that [ai_attack] generates are the tuples that
    [brute_force] takes from [itertools.product("0123456789",
    repeat=digits)], in the same order, for every width but zero: there
    [ai_attack] has the one candidate ["0"] and [brute_force] the empty
    string. *)
Theorem candidates_product (digits : nat) :
  candidates digits
  = match digits with
    | O => [py "0"]
    | S _ => product (py "0123456789") digits
    end
  /\ product (py "0123456789") 0 = [[]].
Proof.
  split; [| reflexivity].
  destruct digits; [reflexivity | apply candidates_product_S].
Qed.

(** X2.  For a width of one at least, the candidate space of [ai_attack]
    has [10^digits] candidates, no two of them equal, and each is a string
    of exactly [digits] ASCII digits. *)
Theorem candidates_space (digits : nat) (Hd : (1 <= digits)%nat) :
  length (candidates digits) = (10 ^ digits)%nat /\
  NoDup (candidates digits) /\
  forall otp, otp ∈ candidates digits ->
    length otp = digits /\ digit_str otp.
Proof.
  split; [| split].
  - unfold candidates. now rewrite length_map, length_seq.
  - apply sweep_NoDup.
  - intros otp Hin. unfold candidates in Hin.
    apply list_elem_of_fmap in Hin as (i & -> & Hi).
    apply elem_of_seq in Hi. split; [| apply format_0d_digits].
    apply format_0d_in_space; [exact Hd |].
    change 10 with (N.of_nat 10). rewrite <- Nat2N.inj_pow. lia.
Qed.

End CandidateProperties.

(* --------------------------------------------------------------------- *)
(** ** The constructors and [verify] *)

Section TextFacts.

Lemma lstrip_char_spec (c : N) (s : pystr) :
  exists k, s = repeat c k ++ lstrip_char c s /\
            head (lstrip_char c s) <> Some c.
Proof.
  induction s as [|d s (k & E & Hh)].
  - exists 0%nat. split; [reflexivity | discriminate].
  - cbn [lstrip_char]. destruct (N.eqb_spec d c) as [-> | Hne].
    + exists (S k). split; [cbn; now rewrite <- E | exact Hh].
    + exists 0%nat. split; [reflexivity |]. cbn. congruence.
Qed.

Lemma rev_repeat (c : N) (k : nat) : rev (repeat c k) = repeat c k.
Proof.
  induction k as [|k IH]; [reflexivity |].
  cbn [repeat rev]. rewrite IH. symmetry. apply repeat_cons.
Qed.

Lemma last_rev (l : pystr) : last (rev l) = head l.
Proof. destruct l as [|c l]; [reflexivity |]. cbn [rev]. apply last_snoc. Qed.

Lemma head_rev (l : pystr) : head (rev l) = last l.
Proof. now rewrite <- (rev_involutive l) at 2; rewrite last_rev. Qed.

Lemma rstrip_char_spec (c : N) (s : pystr) :
  exists k, s = rstrip_char c s ++ repeat c k /\
            last (rstrip_char c s) <> Some c.
Proof.
  unfold rstrip_char.
  destruct (lstrip_char_spec c (rev s)) as (k & E & Hh).
  exists k. split.
  - rewrite <- (rev_involutive s), E at 1.
    now rewrite rev_app_distr, rev_repeat.
  - now rewrite last_rev.
Qed.

Lemma lstrip_map (f : N -> N) (s : pystr) :
  (forall c, isspace (f c) = isspace c) ->
  lstrip (map f s) = map f (lstrip s).
Proof.
  intros Hf. induction s as [|c s IH]; [reflexivity |].
  cbn [map lstrip]. rewrite Hf. now destruct (isspace c).
Qed.

Lemma isspace_lower_char (c : N) : isspace (lower_char c) = isspace c.
Proof.
  unfold lower_char.
  destruct ((65 <=? c) && (c <=? 90)) eqn:E; [| reflexivity].
  apply andb_true_iff in E as [E1 E2]. apply N.leb_le in E1, E2.
  unfold isspace.
  repeat match goal with
         | |- context [?a <=? ?b] =>
             destruct (N.leb_spec a b); try lia
         | |- context [?a =? ?b] =>
             destruct (N.eqb_spec a b); try lia
         end; reflexivity.
Qed.

(** [text.strip().lower()] is [text.lower().strip()]. *)
Lemma lower_strip (s : pystr) : lower (strip s) = strip (lower s).
Proof.
  unfold strip, lower.
  rewrite map_rev, <- (lstrip_map _ _ isspace_lower_char), map_rev,
    <- (lstrip_map _ _ isspace_lower_char).
  reflexivity.
Qed.

Lemma startswith_spec (p s : pystr) :
  startswith p s = true <-> exists b, s = p ++ b.
Proof.
  revert s. induction p as [|a p IH]; intros s.
  - cbn. split; [intros _; now exists s | reflexivity].
  - destruct s as [|c s]; cbn [startswith].
    + split; [discriminate | intros (b & E); discriminate].
    + rewrite andb_true_iff, N.eqb_eq, IH. split.
      * intros (-> & b & ->). now exists b.
      * intros (b & E). injection E as -> ->. split; [reflexivity | now exists b].
Qed.

Lemma str_contains_spec (p s : pystr) :
  str_contains p s = true <-> exists a b, s = a ++ p ++ b.
Proof.
  induction s as [|c s IH].
  - cbn [str_contains]. rewrite orb_false_r, startswith_spec. split.
    + intros (b & E). now exists [], b.
    + intros (a & b & E). destruct a; [now exists b |]. discriminate.
  - cbn [str_contains]. rewrite orb_true_iff, startswith_spec, IH. split.
    + intros [(b & E) | (a & b & E)].
      * now exists [], b.
      * exists (c :: a), b. now rewrite E.
    + intros (a & b & E). destruct a as [|c' a].
      * left. now exists b.
      * right. injection E as -> ->. now exists a, b.
Qed.

Lemma str_contains_rev (p s : pystr) :
  str_contains (rev p) (rev s) = str_contains p s.
Proof.
  apply eq_true_iff_eq. rewrite !str_contains_spec. split.
  - intros (a & b & E). exists (rev b), (rev a).
    apply (f_equal (@rev N)) in E.
    rewrite rev_involutive, !rev_app_distr, rev_involutive in E.
    now rewrite E, app_assoc.
  - intros (a & b & ->). exists (rev b), (rev a).
    now rewrite !rev_app_distr, app_assoc.
Qed.

(** Leading white space holds no occurrence of a text that starts with
    another character. *)
Lemma str_contains_lstrip (c : N) (p s : pystr) :
  isspace c = false ->
  str_contains (c :: p) (lstrip s) = str_contains (c :: p) s.
Proof.
  intros Hc. induction s as [|d s IH]; [reflexivity |].
  cbn [lstrip]. destruct (isspace d) eqn:Hd; [| reflexivity].
  rewrite IH. cbn [str_contains startswith].
  destruct (N.eqb_spec c d) as [-> | _]; [congruence | reflexivity].
Qed.

Lemma str_contains_strip (p s : pystr) (a b : N) :
  head p = Some a -> last p = Some b ->
  isspace a = false -> isspace b = false ->
  str_contains p (strip s) = str_contains p s.
Proof.
  intros Ha Hb Hsa Hsb. unfold strip.
  rewrite <- str_contains_rev, rev_involutive.
  destruct (rev p) as [|b' q] eqn:E.
  { apply (f_equal (@rev N)) in E. rewrite rev_involutive in E.
    subst p. discriminate. }
  assert (b' = b) as ->.
  { rewrite <- head_rev, E in Hb. now injection Hb. }
  rewrite (str_contains_lstrip b q _ Hsb), <- E, str_contains_rev.
  destruct p as [|a' p']; [discriminate |]. injection Ha as ->.
  apply (str_contains_lstrip a p' _ Hsa).
Qed.

(** Stripping the body does not change whether it holds [success]. *)
Lemma is_success_strip (tx : pystr) (st : Z) :
  is_success (lower (strip tx)) st = is_success (lower tx) st.
Proof.
  unfold is_success. rewrite lower_strip.
  now rewrite (str_contains_strip (py "success") _ 115 115).
Qed.

End TextFacts.

Section VerifyFrame.
Context `{PyFloat} `{!Forest}.

Lemma set_history_id (e : HarpyAIOTP) : set_history (history e) e = e.
Proof. now destruct e. Qed.

(** What [verify] leaves as it was, whatever the call meets. *)
Lemma verify_frame_facts (otp : pystr) (w : World) :
  let w' := snd (verify otp w) in
  w_sent w' = w_sent w ++ [verify_request otp w] /\
  w_engine w' = set_history (history (w_engine w')) (w_engine w) /\
  w_net w' = w_net w /\ w_monitors w' = w_monitors w /\
  w_files w' = w_files w /\ w_events w' = w_events w /\
  w_logger_level w' = w_logger_level w.
Proof.
  destruct (verify_prologue otp w) as (w0 & Hs & ->).
  destruct Hs as (He & Hm & Hn & Hse & Hl & Hf & Hw & Hev).
  unfold try_except, bind, session_post.
  destruct (w_net w0 (w_sent w0) (verify_request otp w)) as [st tx el | e].
  - unfold history_append. cbn [w_engine set_sent].
    destruct (history (w_engine w0)) eqn:Hh;
      try (cbn; rewrite Hse, He, set_history_id;
           repeat split; congruence).
    match goal with
    | |- context [_log ?lv ?m ?x] =>
        destruct (_log_spec lv m x) as (w1 & -> & Hs1)
    end.
    destruct Hs1 as (He1 & Hm1 & Hn1 & Hse1 & Hl1 & Hf1 & Hw1 & Hev1).
    unfold ret. cbn [fst snd].
    rewrite He1, Hm1, Hn1, Hse1, Hl1, Hf1, Hev1. cbn.
    rewrite He. repeat split; congruence.
  - destruct (verify_handler otp e) as [h |] eqn:Eh.
    2: { cbn. rewrite Hse, He, set_history_id. repeat split; congruence. }
    destruct e; try discriminate. unfold verify_handler in Eh.
    pose proof (issubclass_RequestException c) as Hr. rewrite Hr in Eh.
    destruct (issubclass c ProxyError), (issubclass c ConnectionError),
      (issubclass c Timeout); injection Eh as <-;
      unfold bind, logger_error;
      match goal with
      | |- context [logger_log ?n ?lv ?m ?x] =>
          destruct (logger_log_spec n lv m x) as (w1 & -> & Hs1)
      end;
      destruct Hs1 as (He1 & Hm1 & Hn1 & Hse1 & Hl1 & Hf1 & Hw1 & Hev1);
      unfold ret; cbn [fst snd];
      rewrite He1, Hm1, Hn1, Hse1, Hl1, Hf1, Hev1; cbn;
      rewrite He, set_history_id; repeat split; congruence.
Qed.

End VerifyFrame.

Section VerifyProperties.
Context `{PyFloat} `{!Forest}.

(** X3.  Both constructors strip every trailing slash of the base URL:
    what they keep is the given URL without the slashes at its end, and it
    does not end in a slash. *)
Theorem constructors_strip_slashes (given user_id path : pystr)
  (burp_proxy : option pystr) (debug : bool) (monitor : option nat) :
  let e := new_engine given user_id path burp_proxy debug monitor in
  let a := new_attacker given user_id in
  (exists k, given = base_url e ++ repeat Char.slash k) /\
  last (base_url e) <> Some Char.slash /\
  a_base_url a = base_url e.
Proof.
  cbn. destruct (rstrip_char_spec Char.slash given) as (k & E & Hl).
  split; [now exists k | split; [exact Hl | reflexivity]].
Qed.

(** X4.  Whatever it meets, a call of [verify] makes exactly one request,
    to the base URL followed by the path, with the user and the candidate
    and a timeout of ten seconds; of the engine it changes the history at
    most, and it leaves the files, the monitors and the level of the logger
    as they were. *)
Theorem verify_makes_one_request (otp : pystr) (w : World) :
  let w' := snd (verify otp w) in
  let e := w_engine w in
  (exists proxies,
     w_sent w' =
     w_sent w ++ [{| req_url := base_url e ++ otp_verify_path e;
                     req_user_id := user_id e; req_otp := otp;
                     req_proxies := proxies; req_timeout := Some 10%Z |}]) /\
  w_engine w' = set_history (history (w_engine w')) e /\
  w_files w' = w_files w /\ w_monitors w' = w_monitors w /\
  w_events w' = w_events w /\ w_logger_level w' = w_logger_level w.
Proof.
  destruct (verify_frame_facts otp w) as (Hs & He & _ & Hm & Hf & Hev & Hl).
  repeat split; try assumption.
  eexists. rewrite Hs. reflexivity.
Qed.

(** X5.  On the record that [verify] builds from a response, the hit test
    of [ai_attack] and [adaptive_attack] gives what the test of
    [brute_force] gives on the response itself: to strip the body before
    it is lowered makes no difference to the search for [success]. *)
Theorem hit_tests_agree (otp : pystr) (st : Z) (tx : pystr) (el : float)
  (w : World) :
  is_hit (make_record otp st (lower (strip tx)) (PFloat el)) w
  = (Ok (is_success (lower tx) st), w).
Proof. rewrite is_hit_record. now rewrite is_success_strip. Qed.

(** X6.  An engine built with [debug=False] logs nothing for a call of
    [verify] that gets a response, and exactly one record, an error, for a
    call that fails inside [requests]. *)
Theorem verify_log_without_debug (base path user : pystr)
  (burp_proxy : option pystr) (monitor : option nat) (otp : pystr)
  (w0 : World) :
  let w := init base user path burp_proxy false monitor w0 in
  match w_net w (w_sent w) (verify_request otp w) with
  | Responds _ _ _ => w_log (snd (verify otp w)) = w_log w
  | Fails (Requests c) =>
      exists m,
        w_log (snd (verify otp w)) = w_log w ++ [(harpy_ai_otp_logger, ERROR, m)]
  | Fails _ => w_log (snd (verify otp w)) = w_log w
  end.
Proof.
  intros w.
  assert (Hv : verify otp w =
    try_except
      (let* r := session_post (verify_request otp w) in
       let '(status_code, r_text, elapsed_time) := r in
       let record :=
         make_record otp status_code (lower (strip r_text))
           (PFloat elapsed_time) in
       history_append record >>
       _log INFO (MsgVerified otp status_code elapsed_time (take 50 r_text)) >>
       ret record)
      (verify_handler otp) w).
  { unfold verify at 1. unfold bind at 1. now destruct (proxy_down w). }
  rewrite Hv. unfold try_except, bind, session_post.
  destruct (w_net w (w_sent w) (verify_request otp w)) as [st tx el | e];
    [reflexivity |].
  destruct e; try reflexivity.
  unfold verify_handler.
  pose proof (issubclass_RequestException c) as Hr. rewrite Hr.
  destruct (issubclass c ProxyError), (issubclass c ConnectionError),
    (issubclass c Timeout); eexists; reflexivity.
Qed.

(** X7.  The constructor lowers the level of the module's logger and never
    raises it again: an engine built with [debug=True] after one built with
    [debug=False] logs nothing for a call of [verify] that gets a response,
    although its own [debug] is on. *)
Theorem debug_engine_after_quiet_one (base path user base' path' user' : pystr)
  (burp_proxy burp_proxy' : option pystr) (monitor monitor' : option nat)
  (otp : pystr) (w0 : World) (st : Z) (tx : pystr) (el : float) :
  let w := init base user path burp_proxy true monitor
             (init base' user' path' burp_proxy' false monitor' w0) in
  w_net w (w_sent w) (verify_request otp w) = Responds st tx el ->
  debug (w_engine w) = true /\
  w_logger_level w = Some WARNING /\
  w_log (snd (verify otp w)) = w_log w.
Proof.
  intros w Hnet. split; [reflexivity | split; [reflexivity |]].
  unfold verify, bind at 1.
  assert (Hp : forall m, w_log (snd (_log INFO m w)) = w_log w /\
                        snd (_log INFO m w) = w) by (intros m; now split).
  destruct (proxy_down w) eqn:Hd.
  - change (_log INFO MsgProxyDown w) with (Ok tt, w).
    unfold try_except, bind, session_post. rewrite Hnet. reflexivity.
  - unfold ret. unfold try_except, bind, session_post. rewrite Hnet.
    reflexivity.
Qed.

End VerifyProperties.

(* --------------------------------------------------------------------- *)
(** ** The state file *)

Section AsciiFacts.
Context `{PyFloat}.

Lemma printable_spec (c : N) :
  printable c = true <-> c = 10 \/ 32 <= c <= 126.
Proof.
  unfold printable.
  rewrite orb_true_iff, andb_true_iff, N.eqb_eq, !N.leb_le. tauto.
Qed.

Lemma hexdigit_printable (d : N) : d < 16 -> printable (hexdigit d) = true.
Proof.
  intros Hd. apply printable_spec. unfold hexdigit.
  destruct (N.ltb_spec d 10); lia.
Qed.

Lemma hex4_printable (n : N) : ascii_text (hex4 n).
Proof.
  unfold hex4.
  repeat constructor; apply hexdigit_printable; apply N.mod_upper_bound; lia.
Qed.

Lemma escape_hex4_printable (n : N) : ascii_text (92 :: 117 :: hex4 n).
Proof.
  constructor; [reflexivity |]. constructor; [reflexivity |].
  apply hex4_printable.
Qed.

Lemma escape_char_printable (c : N) : ascii_text (escape_char c).
Proof.
  unfold escape_char.
  repeat match goal with
         | |- context [if ?a =? ?b then _ else _] =>
             destruct (N.eqb_spec a b);
             [repeat constructor |]
         end.
  destruct ((32 <=? c) && (c <=? 126)) eqn:E.
  { repeat constructor. unfold printable. now rewrite E, orb_true_r. }
  destruct (c <? 65536).
  - apply escape_hex4_printable.
  - cbv zeta. apply Forall_app. split; apply escape_hex4_printable.
Qed.

Lemma encode_basestring_ascii_printable (s : pystr) :
  ascii_text (encode_basestring_ascii s).
Proof.
  unfold encode_basestring_ascii. constructor; [reflexivity |].
  apply Forall_app. split; [| repeat constructor].
  induction s as [|c s IH]; [constructor |].
  cbn [flat_map]. apply Forall_app. split;
    [apply escape_char_printable | exact IH].
Qed.

Lemma digit_str_printable (s : pystr) : digit_str s -> ascii_text s.
Proof.
  induction 1 as [|c s Hc _ IH]; constructor; [| exact IH].
  apply isdigit_spec in Hc. apply printable_spec. lia.
Qed.

Lemma str_of_N_printable (n : N) : ascii_text (str_of_N n).
Proof. apply digit_str_printable, chars_of_uint_digits. Qed.

Lemma str_of_Z_printable (z : Z) : ascii_text (str_of_Z z).
Proof.
  destruct z; cbn [str_of_Z]; try apply str_of_N_printable.
  constructor; [reflexivity | apply str_of_N_printable].
Qed.

Lemma floatstr_printable (x : float) : ascii_text (floatstr x).
Proof.
  unfold floatstr, chars_of_float_literal.
  repeat (apply Forall_app; split).
  - destruct (fl_neg _); repeat constructor.
  - apply str_of_N_printable.
  - destruct (fl_frac _); [| constructor].
    constructor; [reflexivity |].
    apply digit_str_printable, chars_of_uint_digits.
  - destruct (fl_exp _) as [[sg u] |]; [| constructor].
    constructor; [reflexivity |]. apply Forall_app. split.
    + destruct sg as [[|] |]; repeat constructor.
    + apply digit_str_printable, chars_of_uint_digits.
Qed.

Lemma newline_indent_printable (level : nat) :
  ascii_text (newline_indent level).
Proof.
  unfold newline_indent. constructor; [reflexivity |].
  apply Forall_forall. intros c Hc.
  apply list_elem_of_In, repeat_spec in Hc. now subst.
Qed.

Lemma encode_items_printable (enc : pyval -> pystr) (sep : pystr)
  (l : list pyval) :
  ascii_text sep -> Forall (fun v => ascii_text (enc v)) l ->
  ascii_text (encode_items enc sep l).
Proof.
  intros Hsep. induction 1 as [|v l Hv Hl IH]; [constructor |].
  destruct l as [|v' l]; [exact Hv |].
  change (ascii_text (enc v ++ sep ++ encode_items enc sep (v' :: l))).
  repeat (apply Forall_app; split); assumption.
Qed.

Lemma encode_pairs_printable (enc : pyval -> pystr) (sep : pystr)
  (d : list (pystr * pyval)) :
  ascii_text sep -> Forall (fun kv => ascii_text (enc (snd kv))) d ->
  ascii_text (encode_pairs enc sep d).
Proof.
  intros Hsep. induction 1 as [|[k v] d Hv Hd IH]; [constructor |].
  destruct d as [|p d].
  - change (ascii_text
              (encode_basestring_ascii k ++ [Char.colon; Char.space] ++ enc v)).
    apply Forall_app. split; [apply encode_basestring_ascii_printable |].
    apply Forall_app. split; [repeat constructor | exact Hv].
  - change (ascii_text
              (encode_basestring_ascii k ++ [Char.colon; Char.space] ++ enc v
               ++ sep ++ encode_pairs enc sep (p :: d))).
    apply Forall_app. split; [apply encode_basestring_ascii_printable |].
    apply Forall_app. split; [repeat constructor |].
    apply Forall_app. split; [exact Hv |].
    apply Forall_app. split; [exact Hsep | exact IH].
Qed.

(** Whatever the value, its text holds new lines and printable ASCII
    characters only. *)
Lemma iterencode_printable : forall (v : pyval) (level : nat),
  ascii_text (iterencode level v).
Proof.
  fix IH 1. intros [ | [|] | z | x | | [|] | s | l | d] level;
    try (repeat constructor; fail).
  - apply str_of_Z_printable.
  - apply floatstr_printable.
  - apply encode_basestring_ascii_printable.
  - destruct l as [|v l]; [repeat constructor |].
    change (ascii_text
              (Char.lbracket :: newline_indent (S level)
               ++ encode_items (iterencode (S level))
                    (Char.comma :: newline_indent (S level)) (v :: l)
               ++ newline_indent level ++ [Char.rbracket])).
    constructor; [reflexivity |].
    repeat (apply Forall_app; split);
      try apply newline_indent_printable; [| repeat constructor].
    apply encode_items_printable.
    + constructor; [reflexivity | apply newline_indent_printable].
    + generalize (v :: l). intros l'.
      induction l' as [|v' l' IHl]; constructor; [apply IH | exact IHl].
  - destruct d as [|p d]; [repeat constructor |].
    change (ascii_text
              (Char.lbrace :: newline_indent (S level)
               ++ encode_pairs (iterencode (S level))
                    (Char.comma :: newline_indent (S level)) (p :: d)
               ++ newline_indent level ++ [Char.rbrace])).
    constructor; [reflexivity |].
    repeat (apply Forall_app; split);
      try apply newline_indent_printable; [| repeat constructor].
    apply encode_pairs_printable.
    + constructor; [reflexivity | apply newline_indent_printable].
    + generalize (p :: d). intros d'.
      induction d' as [|[k v'] d' IHd]; constructor; [apply IH | exact IHd].
Qed.

End AsciiFacts.

Section StateFileFacts.
Context `{PyFloat} `{!Forest}.

(** [load_state] returns in every case; it changes the history and the log
    at most. *)
Lemma load_state_spec (w : World) :
  exists w',
    load_state w = (Ok tt, w') /\
    w_engine w' =
      match w_files w !! state_file (w_engine w) ≫= Json.loads with
      | Some v => set_history v (w_engine w)
      | None => w_engine w
      end /\
    w_sent w' = w_sent w /\ w_net w' = w_net w /\
    w_monitors w' = w_monitors w /\ w_files w' = w_files w.
Proof.
  unfold load_state, try_except, bind, read_state.
  destruct (w_files w !! state_file (w_engine w)) as [content |]; cbn [mbind option_bind].
  1: destruct (Json.loads content) as [v |]; cbn [mbind option_bind].
  all: match goal with
       | |- context [logger_log ?n ?lv ?m ?x] =>
           destruct (logger_log_spec n lv m x) as (w1 & E & Hs)
       | |- context [logger_info ?m ?x] =>
           destruct (logger_log_spec harpy_ai_otp_logger INFO m x)
             as (w1 & E & Hs)
       | |- context [logger_warning ?m ?x] =>
           destruct (logger_log_spec harpy_ai_otp_logger WARNING m x)
             as (w1 & E & Hs)
       | |- context [logger_error ?m ?x] =>
           destruct (logger_log_spec harpy_ai_otp_logger ERROR m x)
             as (w1 & E & Hs)
       end;
    unfold logger_info, logger_warning, logger_error; rewrite E;
    destruct Hs as (He & Hm & Hn & Hse & _ & Hf & _);
    exists w1; repeat split; assumption.
Qed.

(** [save_state] returns in every case; it changes the state file and the
    log at most, and the file only when it can be written. *)
Lemma save_state_spec (w : World) :
  exists w',
    save_state w = (Ok tt, w') /\
    w_engine w' = w_engine w /\ w_sent w' = w_sent w /\
    w_net w' = w_net w /\ w_monitors w' = w_monitors w /\
    w_files w' =
      (if w_writable w (state_file (w_engine w))
       then <[state_file (w_engine w) := Json.dumps (history (w_engine w))]>
              (w_files w)
       else w_files w) /\
    (w_writable w (state_file (w_engine w)) = false ->
     w_log w' =
       w_log w ++
       (if (levelno (effective_level harpy_ai_otp_logger w) <=? levelno ERROR)%Z
        then [(harpy_ai_otp_logger, ERROR,
               MsgSaveError (state_file (w_engine w)))]
        else [])).
Proof.
  unfold save_state, try_except, bind, write_state.
  destruct (w_writable w (state_file (w_engine w))) eqn:Hw.
  - match goal with
    | |- context [logger_info ?m ?x] =>
        destruct (logger_log_spec harpy_ai_otp_logger INFO m x)
          as (w1 & E & Hs)
    end.
    unfold logger_info. rewrite E.
    destruct Hs as (He & Hm & Hn & Hse & _ & Hf & _).
    exists w1. repeat split; try assumption. discriminate.
  - unfold logger_error, logger_log.
    destruct (levelno (effective_level harpy_ai_otp_logger w) <=? levelno ERROR)%Z;
      eexists; repeat split; cbn; now rewrite ?app_nil_r.
Qed.

End StateFileFacts.

Section StateFileProperties.
Context `{PyFloat} `{!Forest}.

(** X8.  [load_state] takes any JSON value for the history, whatever its
    shape.  When the state file holds a value that is not an array, the
    load succeeds; the next call of [verify] still sends its request, and
    then ends with the [AttributeError] of [self.history.append], which no
    clause of [verify] catches. *)
Theorem verify_after_foreign_state (otp : pystr) (w : World)
  (content : pystr) (v : pyval) (st : Z) (tx : pystr) (el : float) :
  w_files w !! state_file (w_engine w) = Some content ->
  Json.loads content = Some v ->
  (forall l, v <> PList l) ->
  w_net w (w_sent w) (verify_request otp w) = Responds st tx el ->
  let w1 := snd (load_state w) in
  fst (load_state w) = Ok tt /\
  history (w_engine w1) = v /\
  fst (verify otp w1) = Raise AttributeError /\
  w_sent (snd (verify otp w1)) = w_sent w ++ [verify_request otp w] /\
  history (w_engine (snd (verify otp w1))) = v.
Proof.
  intros Hf Hl Hv Hnet.
  destruct (load_state_spec w) as (w1 & E & He & Hse & Hn & Hm & _).
  rewrite Hf in He. cbn [mbind option_bind] in He. rewrite Hl in He.
  rewrite E. cbn [fst snd].
  assert (Hreq : verify_request otp w1 = verify_request otp w).
  { unfold verify_request, proxy_down. rewrite He, Hm. reflexivity. }
  split; [reflexivity |]. split; [now rewrite He |].
  destruct (verify_frame_facts otp w1) as (Hs' & He' & _).
  destruct (verify_prologue otp w1) as (w0 & Hs & Ev).
  destruct Hs as (He0 & Hm0 & Hn0 & Hse0 & _).
  assert (Hres : fst (verify otp w1) = Raise AttributeError /\
                 history (w_engine (snd (verify otp w1))) = v).
  { rewrite Ev. unfold try_except, bind, session_post.
    rewrite Hn0, Hse0, Hreq, Hn, Hse, Hnet. cbn [fst snd].
    unfold history_append. cbn [w_engine set_sent]. rewrite He0, He.
    cbn [history set_history].
    destruct v; try (split; [reflexivity | cbn; now rewrite He0, He]).
    now destruct (Hv l). }
  destruct Hres as (Hr & Hh).
  split; [exact Hr |]. split; [| exact Hh].
  now rewrite Hs', Hse, Hreq.
Qed.

(** X9.  [save_state] never raises and never changes the engine: it
    writes the text of the history to the state file when the file can be
    written; when it cannot, the files are left as they were and the error
    is logged. *)
Theorem save_state_never_raises (w : World) :
  let file := state_file (w_engine w) in
  let w' := snd (save_state w) in
  fst (save_state w) = Ok tt /\
  w_engine w' = w_engine w /\
  w_sent w' = w_sent w /\
  w_files w' =
    (if w_writable w file
     then <[file := Json.dumps (history (w_engine w))]> (w_files w)
     else w_files w) /\
  (w_writable w file = false ->
   w_logger_level w <> Some CRITICAL ->
   w_log w' = w_log w ++ [(harpy_ai_otp_logger, ERROR, MsgSaveError file)]).
Proof.
  intros file w'. subst w'.
  destruct (save_state_spec w) as (w1 & E & He & Hse & _ & _ & Hf & Hlog).
  rewrite E. cbn [fst snd]. repeat split; try assumption.
  intros Hw Hlvl. rewrite (Hlog Hw). f_equal.
  unfold effective_level.
  destruct (w_logger_level w) as [[| | | |] |]; try reflexivity.
  congruence.
Qed.

(** X10.  The name of the state file is made of the user identifier
    alone: two engines have the same state file exactly when they have the
    same user identifier, whatever their base URL and path. *)
Theorem state_file_per_user (base path user base' path' user' : pystr)
  (proxy proxy' : option pystr) (debug debug' : bool)
  (monitor monitor' : option nat) :
  state_file (new_engine base user path proxy debug monitor)
  = state_file (new_engine base' user' path' proxy' debug' monitor')
  <-> user = user'.
Proof.
  cbn [state_file new_engine]. split; [| now intros ->].
  intros E. apply app_inv_head in E. now apply app_inv_tail in E.
Qed.

(** X11.  The text that [save_state] writes holds new lines and printable
    ASCII characters only, whatever the history holds: every other
    character of a response is written as an escape. *)
Theorem save_state_writes_ascii (w : World) :
  w_writable w (state_file (w_engine w)) = true ->
  exists content,
    w_files (snd (save_state w)) !! state_file (w_engine w) = Some content /\
    ascii_text content.
Proof.
  intros Hw.
  destruct (save_state_spec w) as (w1 & E & _ & _ & _ & _ & Hf & _).
  rewrite E, Hw in *. cbn [snd]. rewrite Hf, lookup_insert_eq.
  eexists. split; [reflexivity |]. apply iterencode_printable.
Qed.

End StateFileProperties.

(* --------------------------------------------------------------------- *)
(** ** Training and prediction in general *)

Section TrainingFacts.
Context `{PyFloat} `{!Forest}.

Lemma label_classes_of (recs : list AttemptRecord) :
  label_classes (map label_of recs) = classes_of recs.
Proof.
  unfold classes_of. induction recs as [|r recs IH]; [reflexivity |].
  change (label_classes (map label_of (r :: recs)))
    with (insert_class (label_of r) (label_classes (map label_of recs))).
  rewrite IH. cbn [forallb existsb]. unfold label_of. fold (succeeded r).
  destruct (succeeded r), (forallb succeeded recs) eqn:Ef,
    (existsb succeeded recs) eqn:Ee; reflexivity.
Qed.

Lemma class_index_success (recs : list AttemptRecord) :
  existsb succeeded recs = true ->
  class_index (py "success") (classes_of recs) = Some (success_index recs).
Proof.
  intros Ee. unfold classes_of, success_index. rewrite Ee.
  now destruct (forallb succeeded recs).
Qed.

Lemma class_index_fail (recs : list AttemptRecord) :
  forallb succeeded recs = false ->
  class_index (py "fail") (classes_of recs) = Some 0%nat.
Proof. intros Ef. unfold classes_of. now rewrite Ef. Qed.

Lemma encode_labels_of (recs : list AttemptRecord) :
  encode_labels (classes_of recs) (map label_of recs) = encoded_labels recs.
Proof.
  unfold encode_labels, encoded_labels. rewrite map_map.
  apply map_ext_in. intros r Hr. unfold label_of. fold (succeeded r).
  destruct (succeeded r) eqn:Es.
  - rewrite class_index_success; [reflexivity |].
    apply existsb_exists. now exists r.
  - rewrite class_index_fail; [reflexivity |].
    apply not_true_is_false. intros Hall.
    rewrite forallb_forall in Hall. rewrite (Hall r Hr) in Es. discriminate.
Qed.

(** [train_model] on a history of records. *)
Lemma train_model_spec (w : World) (recs : list AttemptRecord) :
  recs <> [] ->
  history (w_engine w) = history_of recs ->
  exists w',
    train_model w = (Ok tt, w') /\
    w_engine w' =
      (let e := set_encoder_classes (Some (classes_of recs)) (w_engine w) in
       match forest_fit (map features_of recs) (encoded_labels recs) with
       | Ok fitted => set_classifier (Some fitted) e
       | Raise _ => e
       end) /\
    w_sent w' = w_sent w /\ w_net w' = w_net w /\ w_files w' = w_files w /\
    w_monitors w' = w_monitors w.
Proof.
  intros Hne Hh. unfold train_model. rewrite Hh. unfold history_of.
  destruct recs as [|r recs]; [congruence |].
  cbn [truthy map length]. rewrite bool_decide_eq_false_2 by discriminate.
  cbn [negb]. change (dict_of_record r :: map dict_of_record recs)
    with (map dict_of_record (r :: recs)).
  rewrite records_of_history, label_classes_of, encode_labels_of.
  destruct (forest_fit _ _) as [fitted | ex].
  - match goal with
    | |- context [_log ?lv ?m ?x] =>
        destruct (_log_spec lv m x) as (w1 & -> & Hs1)
    end.
    destruct Hs1 as (He1 & Hm1 & Hn1 & Hse1 & _ & Hf1 & _).
    exists w1. repeat split; assumption.
  - destruct (is_ValueError ex);
      unfold logger_error;
      match goal with
      | |- context [logger_log ?n ?lv ?m ?x] =>
          destruct (logger_log_spec n lv m x) as (w1 & -> & Hs1)
      end;
      destruct Hs1 as (He1 & Hm1 & Hn1 & Hse1 & _ & Hf1 & _);
      exists w1; repeat split; assumption.
Qed.

(** [predict_likelihood] returns in every case, and changes the log at
    most. *)
Lemma predict_likelihood_spec (otp : pystr) (w : World) :
  exists p w',
    predict_likelihood otp w = (Ok p, w') /\ same_but_log w w' /\
    p = match classifier (w_engine w), encoder_classes (w_engine w) with
        | Some fitted, Some classes =>
            match forest_predict_proba fitted (candidate_features otp) with
            | Ok proba =>
                match class_index (py "success") classes with
                | Some i => default float_zero (proba !! i)
                | None => float_zero
                end
            | Raise _ => float_zero
            end
        | _, _ => float_zero
        end.
Proof.
  unfold predict_likelihood, try_except, bind, classifier_predict_proba,
    encoder_classes_, logger_error. fold (candidate_features otp).
  assert (Herr : forall x, same_but_log w x ->
            exists (p : float) w',
              logger_log harpy_ai_otp_logger ERROR (MsgPredictError otp) x
              = (Ok tt, w') /\ same_but_log w w').
  { intros x Hx.
    destruct (logger_log_spec harpy_ai_otp_logger ERROR
                (MsgPredictError otp) x) as (w1 & E & Hs).
    exists float_zero, w1. split; [exact E |].
    unfold same_but_log in *. intuition congruence. }
  destruct (classifier (w_engine w)) as [fitted |].
  2: { destruct (Herr w (same_but_log_refl w)) as (_ & w1 & -> & Hs).
       exists float_zero, w1. repeat split; try apply Hs. }
  destruct (forest_predict_proba fitted (candidate_features otp))
    as [proba | ex].
  2: { destruct (Herr w (same_but_log_refl w)) as (_ & w1 & -> & Hs).
       exists float_zero, w1. split; [reflexivity |]. split; [exact Hs |].
       now destruct (encoder_classes (w_engine w)). }
  destruct (encoder_classes (w_engine w)) as [classes |].
  2: { destruct (Herr w (same_but_log_refl w)) as (_ & w1 & -> & Hs).
       exists float_zero, w1. repeat split; try apply Hs. }
  destruct (decide (py "success" ∈ classes)) as [Hin | Hout].
  - rewrite bool_decide_eq_true_2 by exact Hin.
    assert (Hidx : exists i, class_index (py "success") classes = Some i).
    { clear -Hin. induction classes as [|d classes IH].
      - now apply elem_of_nil in Hin.
      - cbn [class_index]. destruct (str_eqb (py "success") d) eqn:E;
          [now exists 0%nat |].
        apply elem_of_cons in Hin as [Heq | Hin].
        + apply bool_decide_eq_false_1 in E. congruence.
        + destruct (IH Hin) as (i & ->). now exists (S i). }
    destruct Hidx as (i & Hi). rewrite Hi.
    change (default 0%nat (Some i)) with i.
    destruct (proba !! i) as [p |] eqn:Hp.
    + exists p, w. repeat split.
    + unfold raise.
      destruct (Herr w (same_but_log_refl w)) as (_ & w1 & -> & Hs).
      exists float_zero, w1. repeat split; try apply Hs.
  - rewrite bool_decide_eq_false_2 by exact Hout.
    destruct (_log_spec WARNING MsgNoSuccessLabel w) as (w1 & -> & Hs).
    exists float_zero, w1. split; [reflexivity |]. split; [exact Hs |].
    assert (class_index (py "success") classes = None) as ->; [| reflexivity].
    clear -Hout. induction classes as [|d classes IH]; [reflexivity |].
    cbn [class_index]. destruct (str_eqb (py "success") d) eqn:E.
    + apply bool_decide_eq_true_1 in E. subst d. destruct Hout. left.
    + rewrite IH; [reflexivity |]. intros Hin. apply Hout. now right.
Qed.

End TrainingFacts.

Section TrainingProperties.
Context `{PyFloat} `{!Forest}.

(** X12.  [train_model] on a history of records that is not empty, whose
    candidates start with an ASCII character, never raises, whatever [fit]
    does.  The encoder is refitted first: its classes are the labels that
    occur, [fail] before [success].  The classifier is the one that [fit]
    returns for the feature rows and the encoded labels; when [fit] raises,
    the classifier is left as it was, next to the new classes of the
    encoder.  The history is not changed. *)
Theorem train_model_refits_encoder_first (w : World)
  (recs : list AttemptRecord) :
  recs <> [] ->
  Forall (fun r => ascii_head (otp r)) recs ->
  history (w_engine w) = history_of recs ->
  let w' := snd (train_model w) in
  fst (train_model w) = Ok tt /\
  encoder_classes (w_engine w') = Some (classes_of recs) /\
  classifier (w_engine w') =
    match forest_fit (map features_of recs) (encoded_labels recs) with
    | Ok fitted => Some fitted
    | Raise _ => classifier (w_engine w)
    end /\
  history (w_engine w') = history (w_engine w) /\
  w_sent w' = w_sent w.
Proof.
  intros Hne _ Hh.
  destruct (train_model_spec w recs Hne Hh) as (w1 & E & He & Hse & _).
  rewrite E. cbn [fst snd]. rewrite He, Hse.
  destruct (forest_fit _ _); repeat split.
Qed.

(** X13.  For a candidate that starts with an ASCII character, or is
    empty, [predict_likelihood] never raises and changes nothing but the
    log: every failure inside it, from the classifier that was not fitted
    to a probability row that is too short, gives [0.0]. *)
Theorem predict_likelihood_never_raises (otp : pystr) (w : World) :
  ascii_head otp ->
  exists p,
    fst (predict_likelihood otp w) = Ok p /\
    same_but_log w (snd (predict_likelihood otp w)) /\
    (classifier (w_engine w) = None -> p = float_zero) /\
    (encoder_classes (w_engine w) = None -> p = float_zero).
Proof.
  intros _.
  destruct (predict_likelihood_spec otp w) as (p & w' & E & Hs & Hp).
  exists p. rewrite E. cbn [fst snd]. repeat split; try apply Hs.
  - intros Hc. now rewrite Hc in Hp.
  - intros Hc. rewrite Hc in Hp. now destruct (classifier (w_engine w)).
Qed.

(** X14.  After a training that [fit] accepts, on a history in which some
    attempt succeeded, the likelihood of a candidate is the probability
    that the classifier gives to the class of [success] for the features
    of the candidate: its length, its first digit, the status 200 and the
    time 0.1.  That class is the second one when the history has a failure
    as well, and the only one when it has none.  (The candidate and those
    of the history start with an ASCII character.) *)
Theorem predict_after_training (w : World) (recs : list AttemptRecord)
  (fitted : forest) (cand : pystr) (proba : list float) (p : float) :
  ascii_head cand ->
  Forall (fun r => ascii_head (otp r)) recs ->
  history (w_engine w) = history_of recs ->
  existsb succeeded recs = true ->
  forest_fit (map features_of recs) (encoded_labels recs) = Ok fitted ->
  forest_predict_proba fitted (candidate_features cand) = Ok proba ->
  proba !! success_index recs = Some p ->
  fst (predict_likelihood cand (snd (train_model w))) = Ok p.
Proof.
  intros _ _ Hh Hs Hfit Hproba Hp.
  assert (Hne : recs <> []) by (intros ->; discriminate).
  destruct (train_model_spec w recs Hne Hh) as (w1 & E & He & _).
  rewrite E. cbn [snd]. rewrite Hfit in He. cbv zeta in He.
  destruct (predict_likelihood_spec cand w1) as (q & w2 & -> & _ & Hq).
  cbn [fst]. f_equal. rewrite Hq, He. cbn [classifier encoder_classes
    set_classifier set_encoder_classes].
  now rewrite Hproba, (class_index_success recs Hs), Hp.
Qed.

End TrainingProperties.

(* --------------------------------------------------------------------- *)
(** ** The attacks in general *)

Section AttackLoopFacts.
Context `{PyFloat} `{!Forest}.

Lemma is_hit_pure (rec : pyval) (w : World) : snd (is_hit rec w) = w.
Proof.
  destruct rec as [ | | | | | | | |d]; try reflexivity. cbn [is_hit].
  destruct (dict_get d (py "text")) as [[]|], (dict_get d (py "status"))
    as [[]|]; reflexivity.
Qed.

Lemma sent_otps_verify (otp : pystr) (w : World) :
  sent_otps (snd (verify otp w)) = sent_otps w ++ [otp].
Proof.
  unfold sent_otps.
  destruct (verify_frame_facts otp w) as (-> & _). now rewrite map_app.
Qed.

Lemma insert_desc_perm (x : pystr * float) (l : list (pystr * float)) :
  insert_desc x l ≡ₚ x :: l.
Proof.
  induction l as [|y l IH]; [reflexivity |]. cbn [insert_desc].
  destruct (float_ltb (snd x) (snd y)); [| reflexivity].
  rewrite IH. apply Permutation_swap.
Qed.

(** The ranking is a rearrangement of the candidates. *)
Lemma sorted_desc_perm (keyed : list (pystr * float)) :
  sorted_desc keyed ≡ₚ map fst keyed.
Proof.
  unfold sorted_desc. induction keyed as [|x keyed IH]; [reflexivity |].
  cbn [fold_right map]. rewrite insert_desc_perm. cbn [map].
  now rewrite IH.
Qed.

Lemma rank_keys_spec (cands : list pystr) :
  forall w : World,
    exists keyed w',
      rank_keys cands w = (Ok keyed, w') /\ map fst keyed = cands /\
      same_but_log w w'.
Proof.
  induction cands as [|c cands IH]; intros w.
  - exists [], w. repeat split.
  - destruct (predict_likelihood_spec c w) as (p & w1 & Hp & Hs1 & _).
    destruct (IH w1) as (keyed & w2 & Hr & Hk & Hs2).
    exists ((c, p) :: keyed), w2. split; [| split].
    + cbn [rank_keys]. unfold bind at 1. rewrite Hp.
      unfold bind at 1. now rewrite Hr.
    + cbn. now rewrite Hk.
    + unfold same_but_log in *. intuition congruence.
Qed.

(** The loop of [ai_attack] submits a prefix of the ranking, of no more
    candidates than the attempts that are left, one at least. *)
Lemma ai_attack_loop_prefix (max_attempts : Z) (ranked : list pystr) :
  forall (attempts : Z) (w : World),
    exists n,
      sent_otps (snd (ai_attack_loop max_attempts attempts ranked w))
      = sent_otps w ++ take n ranked /\
      (n <= Z.to_nat (Z.max 1 (max_attempts - attempts)))%nat.
Proof.
  induction ranked as [|otp ranked IH]; intros attempts w.
  - exists 0%nat. cbn. rewrite app_nil_r. split; [reflexivity | lia].
  - cbn [ai_attack_loop]. unfold bind at 1.
    pose proof (sent_otps_verify otp w) as Hsent.
    destruct (verify otp w) as [[rec | e] w1]; cbn [snd] in Hsent.
    2: { exists 1%nat. cbn [snd take]. split; [exact Hsent | lia]. }
    unfold bind at 1. pose proof (is_hit_pure rec w1) as Hpure.
    destruct (is_hit rec w1) as [[[|] | e] w2]; cbn [snd] in Hpure; subst w2.
    + rewrite success_branch_raises. exists 1%nat. cbn [snd take].
      split; [exact Hsent | lia].
    + destruct (Z.leb_spec max_attempts (attempts + 1)) as [Hle | Hgt].
      * unfold logger_info.
        destruct (logger_log_spec harpy_ai_otp_logger INFO
                    (MsgReachedMax max_attempts) w1) as (w2 & -> & Hs).
        destruct Hs as (_ & _ & _ & Hse & _).
        exists 1%nat. cbn [snd take]. unfold sent_otps at 1. rewrite Hse.
        split; [exact Hsent | lia].
      * destruct (IH (attempts + 1)%Z w1) as (n & Hn & Hb).
        exists (S n). rewrite Hn, Hsent, <- app_assoc. cbn [take app].
        split; [reflexivity | lia].
    + exists 1%nat. cbn [snd take]. split; [exact Hsent | lia].
Qed.

(** The sequential loop that meets its first hit at the turn [k]. *)
Lemma adaptive_attack_loop_until_hit (digits k : nat) (range : list nat) :
  forall (pre : list nat) (w : World) (l : list pyval),
    hits_exactly (w_net w) (numeral digits k) ->
    history (w_engine w) = PList l ->
    Forall (fun i => i <> k) pre ->
    let r := adaptive_attack_loop digits (pre ++ k :: range) w in
    fst r = Raise (NameError "Fore") /\
    sent_otps (snd r) = sent_otps w ++ map (numeral digits) (pre ++ [k]) /\
    exists recs st tx el,
      history (w_engine (snd r))
      = PList (l ++ recs ++ [make_record (numeral digits k) st
                               (lower (strip tx)) (PFloat el)]) /\
      length recs = length pre /\
      is_success (lower (strip tx)) st = true.
Proof.
  induction pre as [|i pre IH]; intros w l Hnet Hh Hpre.
  - destruct (Hnet (w_sent w) (verify_request (numeral digits k) w))
      as (st & tx & el & Hr & Hhit).
    cbn [req_otp verify_request] in Hhit.
    rewrite bool_decide_eq_true_2 in Hhit by reflexivity.
    destruct (verify_responds _ w l st tx el Hh Hr)
      as (w' & Hv & Hh' & Hs' & _).
    assert (E : adaptive_attack_loop digits ([] ++ k :: range) w
                = (Raise (NameError "Fore"), w')).
    { cbn [app adaptive_attack_loop]. fold (numeral digits k).
      unfold bind at 1. rewrite Hv. unfold bind at 1.
      now rewrite is_hit_record, Hhit, success_branch_raises. }
    cbv zeta. rewrite E. cbn [fst snd].
    split; [reflexivity |]. split.
    + unfold sent_otps. rewrite Hs', map_app. reflexivity.
    + exists [], st, tx, el. now rewrite Hh'.
  - apply Forall_cons in Hpre as [Hik Hpre].
    destruct (Hnet (w_sent w) (verify_request (numeral digits i) w))
      as (st & tx & el & Hr & Hmiss).
    cbn [req_otp verify_request] in Hmiss.
    rewrite bool_decide_eq_false_2 in Hmiss.
    2: { unfold numeral. intros E. apply format_0d_inj in E. lia. }
    destruct (verify_responds _ w l st tx el Hh Hr)
      as (w' & Hv & Hh' & Hs' & Hn' & _).
    assert (E : adaptive_attack_loop digits ((i :: pre) ++ k :: range) w
                = adaptive_attack_loop digits (pre ++ k :: range) w').
    { cbn [app adaptive_attack_loop]. fold (numeral digits i).
      unfold bind at 1. rewrite Hv.
      unfold bind at 1. now rewrite is_hit_record, Hmiss. }
    cbv zeta. rewrite E.
    destruct (IH w' _ ltac:(now rewrite Hn') Hh' Hpre)
      as (Hres & Hsent & recs & st' & tx' & el' & Hhist & Hlen & Hhit).
    split; [exact Hres |]. split.
    + rewrite Hsent. unfold sent_otps at 1.
      rewrite Hs', map_app, <- app_assoc. reflexivity.
    + exists (make_record (numeral digits i) st (lower (strip tx)) (PFloat el)
              :: recs), st', tx', el'.
      rewrite Hhist, <- app_assoc. cbn [app length].
      split; [reflexivity | split; [now rewrite Hlen | exact Hhit]].
Qed.

End AttackLoopFacts.

Section AttackProperties.
Context `{PyFloat} `{!Forest}.

(** X15.  With no hit, [adaptive_attack] submits [max_attempts]
    candidates, no two of them equal.  The first [10^digits] of them are
    the candidates of the space in their order; every candidate after
    these has more than [digits] characters. *)
Theorem adaptive_attack_candidates (max_attempts : Z) (digits : nat)
  (w : World) (l : list pyval) :
  (1 <= digits)%nat ->
  never_hits (w_net w) ->
  history (w_engine w) = PList l ->
  exists tried,
    sent_otps (snd (adaptive_attack max_attempts digits w))
    = sent_otps w ++ tried /\
    length tried = Z.to_nat max_attempts /\
    NoDup tried /\
    take (10 ^ digits) tried
    = take (Z.to_nat max_attempts) (candidates digits) /\
    Forall (fun otp => (digits < length otp)%nat) (drop (10 ^ digits) tried).
Proof.
  intros Hd Hnet Hh.
  destruct (adaptive_attack_sweep max_attempts digits w l Hnet Hh)
    as (_ & Hsent).
  set (n := Z.to_nat max_attempts) in *.
  exists (map (fun i => format_0d digits (N.of_nat i)) (seq 0 n)).
  split; [exact Hsent |]. split; [now rewrite length_map, length_seq |].
  split; [apply sweep_NoDup |]. split.
  - unfold candidates.
    rewrite <- !fmap_take, !take_seq. now rewrite Nat.min_comm.
  - rewrite <- fmap_drop, drop_seq. apply Forall_fmap, Forall_forall.
    intros i Hi. apply elem_of_seq in Hi. cbn.
    apply format_0d_overflow; [exact Hd |].
    change 10 with (N.of_nat 10). rewrite <- Nat2N.inj_pow. lia.
Qed.

(** X16.  When the server answers with a hit for the candidate of the
    turn [k] and for no other, [adaptive_attack] with more than [k]
    attempts submits the candidates of the turns [0 .. k] and no other,
    appends their records, the last being the record of the hit, and ends
    with the [NameError] of its success branch. *)
Theorem adaptive_attack_stops_at_hit (max_attempts : Z) (digits k : nat)
  (w : World) (l : list pyval) :
  hits_exactly (w_net w) (numeral digits k) ->
  (k < Z.to_nat max_attempts)%nat ->
  history (w_engine w) = PList l ->
  let r := adaptive_attack max_attempts digits w in
  fst r = Raise (NameError "Fore") /\
  sent_otps (snd r) = sent_otps w ++ map (numeral digits) (seq 0 (S k)) /\
  exists recs st tx el,
    history (w_engine (snd r))
    = PList (l ++ recs ++ [make_record (numeral digits k) st
                             (lower (strip tx)) (PFloat el)]) /\
    length recs = k /\
    is_success (lower (strip tx)) st = true.
Proof.
  intros Hnet Hk Hh r. subst r.
  assert (E : exists w0,
            adaptive_attack max_attempts digits w
            = adaptive_attack_loop digits
                (seq 0 k ++ k :: seq (S k) (Z.to_nat max_attempts - S k)) w0
            /\ same_but_log w w0).
  { unfold adaptive_attack, bind, logger_info.
    destruct (logger_log_spec harpy_ai_otp_logger INFO
                (MsgLaunchingAdaptive max_attempts) w) as (w0 & -> & Hs).
    exists w0. split; [| exact Hs]. f_equal.
    change (k :: seq (S k) (Z.to_nat max_attempts - S k))
      with (seq (0 + k) (S (Z.to_nat max_attempts - S k))).
    rewrite <- seq_app. f_equal. lia. }
  destruct E as (w0 & -> & He & _ & Hn & Hse & _).
  destruct (adaptive_attack_loop_until_hit digits k
              (seq (S k) (Z.to_nat max_attempts - S k)) (seq 0 k) w0 l)
    as (Hres & Hsent & recs & st & tx & el & Hhist & Hlen & Hhit).
  { now rewrite Hn. }
  { now rewrite He. }
  { apply Forall_forall. intros i Hi. apply elem_of_seq in Hi. lia. }
  split; [exact Hres |]. split.
  - rewrite Hsent. unfold sent_otps. rewrite Hse. now rewrite seq_S.
  - exists recs, st, tx, el. rewrite length_seq in Hlen. now split.
Qed.

(** X17.  Whatever the model, the answers and [max_attempts], the
    candidates that [ai_attack] submits are candidates of the space, no two
    of them equal, and no more than [max_attempts] of them (one, when
    [max_attempts] is below one): a prefix of a rearrangement of the
    space. *)
Theorem ai_attack_stays_in_space (max_attempts : Z) (digits : nat)
  (w : World) :
  exists ranked n,
    ranked ≡ₚ candidates digits /\
    sent_otps (snd (ai_attack max_attempts digits w))
    = sent_otps w ++ take n ranked /\
    NoDup (take n ranked) /\
    (n <= Z.to_nat (Z.max 1 max_attempts))%nat.
Proof.
  unfold ai_attack. rewrite ai_attack_guard. cbn [negb].
  unfold bind at 1, logger_info at 1.
  destruct (logger_log_spec harpy_ai_otp_logger INFO
              (MsgGenerating (10 ^ N.of_nat digits)) w) as (w1 & -> & Hs1).
  unfold bind at 1, logger_info at 1.
  destruct (logger_log_spec harpy_ai_otp_logger INFO MsgRanking w1)
    as (w2 & -> & Hs2).
  destruct (rank_keys_spec (candidates digits) w2)
    as (keyed & w3 & Hr & Hk & Hs3).
  unfold bind at 1. rewrite Hr.
  unfold bind at 1, logger_info at 1.
  destruct (logger_log_spec harpy_ai_otp_logger INFO
              (MsgLaunchingAI max_attempts) w3) as (w4 & -> & Hs4).
  destruct (ai_attack_loop_prefix max_attempts (sorted_desc keyed) 0 w4)
    as (n & Hn & Hb).
  assert (Hperm : sorted_desc keyed ≡ₚ candidates digits)
    by (rewrite sorted_desc_perm; now rewrite Hk).
  exists (sorted_desc keyed), n. split; [exact Hperm |]. split; [| split].
  - rewrite Hn. unfold sent_otps.
    destruct Hs1 as (_ & _ & _ & <- & _), Hs2 as (_ & _ & _ & <- & _),
      Hs3 as (_ & _ & _ & <- & _), Hs4 as (_ & _ & _ & <- & _).
    reflexivity.
  - assert (Hnd : NoDup (sorted_desc keyed)).
    { rewrite Hperm. apply sweep_NoDup. }
    rewrite <- (take_drop n (sorted_desc keyed)) in Hnd.
    now apply NoDup_app in Hnd as (Hnd & _).
  - now rewrite Z.sub_0_r in Hb.
Qed.

End AttackProperties.

(* --------------------------------------------------------------------- *)
(** ** The attacks of [OTPAttacker] *)

Section AttackerFacts.
Context `{PyFloat} `{!Forest}.

(** One call of [verify_otp] that gets a response. *)
Lemma verify_otp_step (a : OTPAttacker) (otp : pystr) (w : World)
  (st : Z) (tx : pystr) (el : float) :
  w_net w (w_sent w) (verify_otp_request a otp) = Responds st tx el ->
  exists w',
    verify_otp a otp w = (Ok (st, tx), w') /\
    w_sent w' = w_sent w ++ [verify_otp_request a otp] /\
    w_net w' = w_net w /\ w_engine w' = w_engine w.
Proof.
  intros Hr. eexists. unfold verify_otp, bind, session_post. rewrite Hr.
  repeat split.
Qed.

(** One call of [verify_otp] that fails: the exception leaves the method. *)
Lemma verify_otp_raises (a : OTPAttacker) (otp : pystr) (w : World)
  (e : exn) :
  w_net w (w_sent w) (verify_otp_request a otp) = Fails e ->
  exists w',
    verify_otp a otp w = (Raise e, w') /\
    w_sent w' = w_sent w ++ [verify_otp_request a otp].
Proof.
  intros Hr. eexists. unfold verify_otp, bind, session_post. rewrite Hr.
  repeat split.
Qed.

Lemma product_head (c : N) (alphabet : pystr) (n : nat) :
  exists rest, product (c :: alphabet) n = repeat c n :: rest.
Proof.
  induction n as [|n (rest & IH)]; [now exists [] |].
  rewrite product_S. cbn [flat_map]. rewrite IH. cbn [map app repeat].
  eexists. reflexivity.
Qed.

Lemma product_NoDup (digits : nat) : NoDup (product (py "0123456789") digits).
Proof.
  destruct digits as [|n].
  - cbn. apply NoDup_singleton.
  - rewrite <- candidates_product_S. apply sweep_NoDup.
Qed.

Lemma brute_force_loop_all (a : OTPAttacker) (otps : list pystr) :
  forall w : World,
    always_responds (w_net w) ->
    fst (brute_force_loop a false otps w) = Ok tt /\
    sent_otps (snd (brute_force_loop a false otps w)) = sent_otps w ++ otps /\
    w_engine (snd (brute_force_loop a false otps w)) = w_engine w.
Proof.
  induction otps as [|otp otps IH]; intros w Hnet.
  - cbn. now rewrite app_nil_r.
  - destruct (Hnet (w_sent w) (verify_otp_request a otp))
      as (st & tx & el & Hr).
    destruct (verify_otp_step a otp w st tx el Hr) as (w' & Hv & Hs & Hn & He).
    assert (E : brute_force_loop a false (otp :: otps) w
                = brute_force_loop a false otps w').
    { cbn [brute_force_loop]. unfold bind at 1. rewrite Hv.
      now rewrite andb_false_r. }
    rewrite E. destruct (IH w') as (Hok & Hsent & Heng); [now rewrite Hn |].
    split; [exact Hok |]. split; [| now rewrite Heng].
    rewrite Hsent. unfold sent_otps at 1.
    rewrite Hs, map_app, <- app_assoc. reflexivity.
Qed.

Lemma brute_force_loop_until_hit (a : OTPAttacker) (target : pystr)
  (rest : list pystr) :
  forall (pre : list pystr) (w : World),
    hits_exactly (w_net w) target ->
    Forall (fun otp => otp <> target) pre ->
    let r := brute_force_loop a true (pre ++ target :: rest) w in
    fst r = Ok tt /\
    sent_otps (snd r) = sent_otps w ++ pre ++ [target] /\
    w_engine (snd r) = w_engine w.
Proof.
  induction pre as [|otp pre IH]; intros w Hnet Hpre.
  - destruct (Hnet (w_sent w) (verify_otp_request a target))
      as (st & tx & el & Hr & Hhit).
    cbn [req_otp verify_otp_request] in Hhit.
    rewrite bool_decide_eq_true_2, is_success_strip in Hhit by reflexivity.
    destruct (verify_otp_step a target w st tx el Hr)
      as (w' & Hv & Hs & Hn & He).
    assert (E : brute_force_loop a true ([] ++ target :: rest) w
                = (Ok tt, w')).
    { cbn [app brute_force_loop]. unfold bind at 1. rewrite Hv.
      cbn [fst snd]. now rewrite Hhit. }
    cbv zeta. rewrite E. cbn [fst snd]. split; [reflexivity |].
    split; [| exact He]. unfold sent_otps. now rewrite Hs, map_app.
  - apply Forall_cons in Hpre as [Hne Hpre].
    destruct (Hnet (w_sent w) (verify_otp_request a otp))
      as (st & tx & el & Hr & Hmiss).
    cbn [req_otp verify_otp_request] in Hmiss.
    rewrite bool_decide_eq_false_2, is_success_strip in Hmiss by exact Hne.
    destruct (verify_otp_step a otp w st tx el Hr) as (w' & Hv & Hs & Hn & He).
    assert (E : brute_force_loop a true ((otp :: pre) ++ target :: rest) w
                = brute_force_loop a true (pre ++ target :: rest) w').
    { cbn [app brute_force_loop]. unfold bind at 1. rewrite Hv.
      cbn [fst snd]. now rewrite Hmiss. }
    cbv zeta. rewrite E.
    destruct (IH w' ltac:(now rewrite Hn) Hpre) as (Hok & Hsent & Heng).
    split; [exact Hok |]. split; [| now rewrite Heng].
    rewrite Hsent. unfold sent_otps at 1.
    rewrite Hs, map_app, <- app_assoc. reflexivity.
Qed.

Lemma random_choice_digit (draw : nat) :
  isdigit (random_choice (py "0123456789") draw) = true.
Proof.
  unfold random_choice. change (length (py "0123456789")) with 10%nat.
  pose proof (Nat.mod_upper_bound draw 10 ltac:(lia)) as Hb.
  destruct (draw mod 10)%nat as [|[|[|[|[|[|[|[|[|[|n]]]]]]]]]];
    try reflexivity; lia.
Qed.

Lemma random_otp_six_digits (draws : nat -> nat) (j : nat) :
  length (random_otp draws j) = 6%nat /\ digit_str (random_otp draws j).
Proof.
  unfold random_otp. split; [reflexivity |].
  apply Forall_fmap, Forall_forall. intros k _. apply random_choice_digit.
Qed.

Lemma random_bypass_loop_spec (a : OTPAttacker) (draws : nat -> nat)
  (range : list nat) :
  forall w : World,
    always_responds (w_net w) ->
    let r := random_bypass_loop a draws range w in
    fst r = Ok tt /\
    sent_otps (snd r) = sent_otps w ++ map (random_otp draws) range /\
    w_engine (snd r) = w_engine w.
Proof.
  induction range as [|j range IH]; intros w Hnet.
  - cbn. now rewrite app_nil_r.
  - destruct (Hnet (w_sent w) (verify_otp_request a (random_otp draws j)))
      as (st & tx & el & Hr).
    destruct (verify_otp_step a _ w st tx el Hr) as (w' & Hv & Hs & Hn & He).
    assert (E : random_bypass_loop a draws (j :: range) w
                = random_bypass_loop a draws range w').
    { cbn [random_bypass_loop]. unfold bind at 1. now rewrite Hv. }
    cbv zeta. rewrite E.
    destruct (IH w' ltac:(now rewrite Hn)) as (Hok & Hsent & Heng).
    split; [exact Hok |]. split; [| now rewrite Heng].
    rewrite Hsent. unfold sent_otps at 1.
    rewrite Hs, map_app, <- app_assoc. reflexivity.
Qed.

End AttackerFacts.

Section AttackerProperties.
Context `{PyFloat} `{!Forest}.

(** X18.  When the server answers with a hit for one candidate of the
    space and for no other, [brute_force] with [stop_on_success] submits
    the tuples of the product up to that candidate, in their order, and
    returns; without [stop_on_success] it goes on through the whole
    space.  In both cases it returns normally and keeps no record. *)
Theorem brute_force_until_hit (a : OTPAttacker) (digits k : nat)
  (target : pystr) (stop_on_success : bool) (w : World) :
  product (py "0123456789") digits !! k = Some target ->
  hits_exactly (w_net w) target ->
  let r := brute_force a digits stop_on_success w in
  fst r = Ok tt /\
  sent_otps (snd r)
  = sent_otps w
    ++ (if stop_on_success
        then take (S k) (product (py "0123456789") digits)
        else product (py "0123456789") digits) /\
  w_engine (snd r) = w_engine w.
Proof.
  intros Hk Hnet. unfold brute_force. destruct stop_on_success.
  - pose proof (product_NoDup digits) as Hnd.
    pose proof (take_drop_middle _ _ _ Hk) as Hsplit.
    rewrite <- Hsplit in Hnd.
    apply NoDup_app in Hnd as (_ & Hdis & _).
    destruct (brute_force_loop_until_hit a target
                (drop (S k) (product (py "0123456789") digits))
                (take k (product (py "0123456789") digits)) w Hnet)
      as (Hok & Hsent & Heng).
    { apply Forall_forall. intros otp Hin ->. apply (Hdis _ Hin). left. }
    rewrite Hsplit in Hok, Hsent, Heng.
    split; [exact Hok |]. split; [| exact Heng].
    rewrite Hsent. f_equal. now rewrite (take_S_r _ _ _ Hk).
  - apply brute_force_loop_all.
    intros sent req. destruct (Hnet sent req) as (st & tx & el & Hr & _).
    now exists st, tx, el.
Qed.

(** X19.  [OTPAttacker] handles no exception: when the calls fail,
    [brute_force] and [replay_attack] end with the exception of their
    first call, after that one request, which [brute_force] makes for the
    candidate of zeros. *)
Theorem attacker_failure_propagates (a : OTPAttacker) (digits : nat)
  (stop_on_success : bool) (known_otp : pystr) (e : exn) (w : World) :
  (forall sent req, w_net w sent req = Fails e) ->
  fst (brute_force a digits stop_on_success w) = Raise e /\
  sent_otps (snd (brute_force a digits stop_on_success w))
  = sent_otps w ++ [repeat Char.zero digits] /\
  fst (replay_attack a known_otp w) = Raise e /\
  sent_otps (snd (replay_attack a known_otp w)) = sent_otps w ++ [known_otp].
Proof.
  intros Hnet.
  assert (Hb : exists w',
            brute_force a digits stop_on_success w = (Raise e, w') /\
            w_sent w' = w_sent w
                        ++ [verify_otp_request a (repeat Char.zero digits)]).
  { unfold brute_force.
    destruct (product_head 48 (py "123456789") digits) as (rest & E).
    change (48 :: py "123456789") with (py "0123456789") in E. rewrite E.
    destruct (verify_otp_raises a (repeat 48 digits) w e (Hnet _ _))
      as (w' & Hv & Hs).
    exists w'. split; [| exact Hs].
    cbn [brute_force_loop]. unfold bind at 1. now rewrite Hv. }
  assert (Hr : exists w',
            replay_attack a known_otp w = (Raise e, w') /\
            w_sent w' = w_sent w ++ [verify_otp_request a known_otp]).
  { destruct (verify_otp_raises a known_otp w e (Hnet _ _))
      as (w' & Hv & Hs).
    exists w'. split; [| exact Hs].
    unfold replay_attack, bind at 1. now rewrite Hv. }
  destruct Hb as (w1 & -> & Hs1), Hr as (w2 & -> & Hs2). cbn [fst snd].
  unfold sent_otps. rewrite Hs1, Hs2, !map_app. repeat split.
Qed.

(** X20.  On a server that answers every call, [replay_attack] makes the
    same request three times and returns the three answers in the order
    of the calls. *)
Theorem replay_attack_three_calls (a : OTPAttacker) (known_otp : pystr)
  (w : World) :
  always_responds (w_net w) ->
  let req := verify_otp_request a known_otp in
  exists st1 tx1 el1 st2 tx2 el2 st3 tx3 el3,
    w_net w (w_sent w) req = Responds st1 tx1 el1 /\
    w_net w (w_sent w ++ [req]) req = Responds st2 tx2 el2 /\
    w_net w (w_sent w ++ [req; req]) req = Responds st3 tx3 el3 /\
    fst (replay_attack a known_otp w)
    = Ok [(st1, tx1); (st2, tx2); (st3, tx3)] /\
    w_sent (snd (replay_attack a known_otp w)) = w_sent w ++ [req; req; req].
Proof.
  intros Hnet req.
  destruct (Hnet (w_sent w) req) as (st1 & tx1 & el1 & H1).
  destruct (Hnet (w_sent w ++ [req]) req) as (st2 & tx2 & el2 & H2).
  destruct (Hnet (w_sent w ++ [req; req]) req) as (st3 & tx3 & el3 & H3).
  exists st1, tx1, el1, st2, tx2, el2, st3, tx3, el3.
  split; [exact H1 |]. split; [exact H2 |]. split; [exact H3 |].
  destruct (verify_otp_step a known_otp w st1 tx1 el1 H1)
    as (w1 & Hv1 & Hs1 & Hn1 & _).
  destruct (verify_otp_step a known_otp w1 st2 tx2 el2)
    as (w2 & Hv2 & Hs2 & Hn2 & _).
  { now rewrite Hn1, Hs1. }
  destruct (verify_otp_step a known_otp w2 st3 tx3 el3)
    as (w3 & Hv3 & Hs3 & Hn3 & _).
  { rewrite Hn2, Hn1, Hs2, Hs1, <- app_assoc. exact H3. }
  assert (E : replay_attack a known_otp w
              = (Ok [(st1, tx1); (st2, tx2); (st3, tx3)], w3)).
  { unfold replay_attack. unfold bind at 1. rewrite Hv1.
    unfold bind at 1. rewrite Hv2. unfold bind at 1. now rewrite Hv3. }
  rewrite E. cbn [fst snd]. split; [reflexivity |].
  rewrite Hs3, Hs2, Hs1, <- !app_assoc. reflexivity.
Qed.

(** X21.  On a server that answers every call, [random_bypass] makes
    [attempts] requests and returns; each candidate is a string of six
    ASCII digits, the digits that the generator draws at that turn, and
    nothing keeps a candidate from being drawn again. *)
Theorem random_bypass_submits_six_digits (a : OTPAttacker) (attempts : Z)
  (draws : nat -> nat) (w : World) :
  always_responds (w_net w) ->
  let r := random_bypass a attempts draws w in
  let tried := map (random_otp draws) (seq 0 (Z.to_nat attempts)) in
  fst r = Ok tt /\
  sent_otps (snd r) = sent_otps w ++ tried /\
  Forall (fun otp => length otp = 6%nat /\ digit_str otp) tried /\
  w_engine (snd r) = w_engine w.
Proof.
  intros Hnet r tried. subst r tried. unfold random_bypass.
  destruct (random_bypass_loop_spec a draws (seq 0 (Z.to_nat attempts)) w Hnet)
    as (Hok & Hsent & Heng).
  split; [exact Hok |]. split; [exact Hsent |]. split; [| exact Heng].
  apply Forall_fmap, Forall_forall. intros j _. apply random_otp_six_digits.
Qed.

End AttackerProperties.

(* --------------------------------------------------------------------- *)
(** ** The monitor in general *)

Section MonitorLoopFacts.
Context `{PyFloat} `{!Forest}.

(** What a turn of the loop starts from, after [stop] if it was called. *)
Lemma monitor_turn_start (loc : nat) (t : tick) (w : World)
  (m : ProxyMonitor) :
  w_monitors w !! loc = Some m ->
  let w0 := if stop_called t then snd (stop loc w) else w in
  exists m0,
    w_monitors w0 !! loc = Some m0 /\
    force m0 = force m /\ proxy_url m0 = proxy_url m /\
    alive m0 = alive m /\ (running m0 = true -> running m = true) /\
    w_events w0 = w_events w /\ w_engine w0 = w_engine w.
Proof.
  intros Hm. destruct (stop_called t); cbv zeta.
  - unfold stop, bind. rewrite Hm. cbn.
    eexists. rewrite lookup_insert_eq. repeat split. discriminate.
  - exists m. repeat split; auto.
Qed.

(** The monitor object after a run: the thread sets [alive] and
    [running] to [False] at most, and leaves the engine alone. *)
Lemma monitor_run_object (loc : nat) (env : list tick) :
  forall (w : World) (m : ProxyMonitor),
    w_monitors w !! loc = Some m ->
    exists m',
      w_monitors (snd (_monitor loc env w)) !! loc = Some m' /\
      (alive m' = true -> alive m = true) /\
      (running m' = true -> running m = true) /\
      proxy_url m' = proxy_url m /\ force m' = force m /\
      w_engine (snd (_monitor loc env w)) = w_engine w.
Proof.
  induction env as [|t env IH]; intros w m Hm.
  - exists m. repeat split; auto.
  - cbn [_monitor].
    destruct (monitor_turn_start loc t w m Hm)
      as (m0 & Hm0 & Hf0 & Hu0 & Ha0 & Hr0 & Hev0 & He0).
    cbv zeta in Hm0, Hev0, He0. rewrite Hm0.
    destruct (running m0) eqn:Hrun; cbn [negb].
    2: { exists m0. cbn [snd]. rewrite Ha0.
         repeat split; intros; try congruence; auto. }
    destruct (proxy_alive_spec (proxy_url m0) (probe t)
                (if stop_called t then snd (stop loc w) else w))
      as (b & w1 & Ep & Hev1 & Hmon1 & _).
    assert (He1 : w_engine w1 = w_engine w).
    { rewrite <- He0. clear -Ep. revert Ep.
      generalize (if stop_called t then snd (stop loc w) else w). intros x.
      destruct (probe t); cbn; intros [= _ <-]; reflexivity. }
    rewrite Ep. destruct b.
    + destruct (IH (snd (sleep (check_interval m0) w1)) m0)
        as (m' & Hm' & Ha' & Hr' & Hu' & Hf' & He').
      { cbn. now rewrite Hmon1. }
      exists m'. rewrite He'. cbn [sleep snd w_engine set_events].
      repeat split; try congruence; auto. rewrite <- Ha0. exact Ha'.
    + unfold store_alive. rewrite Hmon1, Hm0. cbn [snd].
      destruct (force m0); cbn; eexists; rewrite lookup_insert_eq;
        (split; [reflexivity |]); cbn; repeat split;
        try discriminate; try congruence; auto.
Qed.

(** The run of the monitor thread in force mode: either it meets no
    failure, or its events end with the failed probe, the store of
    [alive = False] and the exit of the process. *)
Lemma monitor_run_force (loc : nat) (env : list tick) :
  forall (w : World) (m : ProxyMonitor),
    w_monitors w !! loc = Some m ->
    force m = true ->
    exists evs,
      w_events (snd (_monitor loc env w)) = w_events w ++ evs /\
      (Forall quiet evs /\ fst (_monitor loc env w) <> Exited 1 \/
       (exists pre,
          evs = pre ++ [EvProbe (proxy_url m) false; EvStoreAlive loc false;
                        EvExit 1]
          /\ Forall quiet pre) /\
       fst (_monitor loc env w) = Exited 1 /\
       last (w_log (snd (_monitor loc env w)))
       = Some (run_harpy_logger, CRITICAL, MsgWentDownAbort (proxy_url m))).
Proof.
  induction env as [|t env IH]; intros w m Hm Hforce.
  - exists []. cbn. rewrite app_nil_r. split; [reflexivity |].
    left. split; [constructor | discriminate].
  - cbn [_monitor].
    destruct (monitor_turn_start loc t w m Hm)
      as (m0 & Hm0 & Hf0 & Hu0 & Ha0 & Hr0 & Hev0 & He0).
    cbv zeta in Hm0, Hev0, He0. rewrite Hm0.
    destruct (running m0) eqn:Hrun; cbn [negb].
    2: { exists []. cbn [fst snd]. rewrite app_nil_r.
         split; [exact Hev0 |]. left. split; [constructor | discriminate]. }
    destruct (proxy_alive_spec (proxy_url m0) (probe t)
                (if stop_called t then snd (stop loc w) else w))
      as (b & w1 & Ep & Hev1 & Hmon1 & _).
    rewrite Ep. destruct b.
    + destruct (IH (snd (sleep (check_interval m0) w1)) m0) as (evs & He & Hc).
      { cbn. now rewrite Hmon1. }
      { congruence. }
      exists (EvProbe (proxy_url m0) true :: EvSleep (check_interval m0) :: evs).
      split.
      * rewrite He. cbn. rewrite Hev1, Hev0, <- !app_assoc. reflexivity.
      * destruct Hc as [(Hq & Hne) | ((pre & -> & Hq) & Hd & Hlog)].
        -- left. split; [repeat constructor; exact Hq | exact Hne].
        -- right. split; [| split; [exact Hd | now rewrite <- Hu0]].
           exists (EvProbe (proxy_url m0) true
                   :: EvSleep (check_interval m0) :: pre).
           rewrite Hu0. split; [reflexivity | repeat constructor; exact Hq].
    + rewrite Hf0, Hforce. unfold store_alive. rewrite Hmon1, Hm0.
      cbn [snd fst].
      exists [EvProbe (proxy_url m0) false; EvStoreAlive loc false; EvExit 1].
      split.
      * cbn. rewrite Hev1, Hev0, <- !app_assoc. reflexivity.
      * right. split; [exists []; rewrite Hu0; split;
                         [reflexivity | constructor] |].
        split; [reflexivity |]. cbn. rewrite Hu0. apply last_snoc.
Qed.

End MonitorLoopFacts.

Section MonitorProperties.
Context `{PyFloat} `{!Forest}.

(** X22.  The constructor of the monitor probes the proxy once and keeps
    the answer in [alive].  An engine that refers to the monitor routes by
    it from its first call: through its proxies when the probe connected,
    directly when it did not, before any monitoring thread has run. *)
Theorem new_monitor_decides_routing (loc : nat) (url : pystr) (force : bool)
  (check_interval : Z) (o : probe_outcome) (w : World) (otp : pystr) :
  proxy_monitor (w_engine w) = Some loc ->
  let w1 := snd (new_monitor loc url force check_interval o w) in
  let connected := match o with ProbeConnected => true | _ => false end in
  fst (new_monitor loc url force check_interval o w) = Ok tt /\
  w_monitors w1 !! loc
  = Some {| proxy_url := url; force := force;
            check_interval := check_interval; running := true;
            alive := connected |} /\
  w_events w1 = w_events w ++ [EvProbe url connected] /\
  req_proxies (verify_request otp w1)
  = (if connected then proxies (w_engine w) else None).
Proof.
  intros Hp. cbv zeta.
  assert (E : exists w1,
            new_monitor loc url force check_interval o w = (Ok tt, w1) /\
            w_monitors w1
            = <[loc := {| proxy_url := url; force := force;
                          check_interval := check_interval; running := true;
                          alive := match o with
                                   | ProbeConnected => true
                                   | _ => false
                                   end |}]> (w_monitors w) /\
            w_events w1
            = w_events w ++ [EvProbe url match o with
                                         | ProbeConnected => true
                                         | _ => false
                                         end] /\
            w_engine w1 = w_engine w).
  { destruct o; eexists; (split; [reflexivity |]); repeat split. }
  destruct E as (w1 & -> & Hm & Hev & He). cbn [fst snd].
  assert (Hl : w_monitors w1 !! loc
               = Some {| proxy_url := url; force := force;
                         check_interval := check_interval; running := true;
                         alive := match o with
                                  | ProbeConnected => true
                                  | _ => false
                                  end |})
    by (rewrite Hm; apply lookup_insert_eq).
  split; [reflexivity |]. split; [exact Hl |]. split; [exact Hev |].
  unfold verify_request, proxy_down. cbn [req_proxies].
  rewrite He, Hp, Hl. cbn [alive].
  now destruct o.
Qed.

(** X23.  In force mode, a monitor that observes a failed probe stores
    [alive = False], logs the critical record and ends the process with
    the exit code 1, right after that probe: before it there are only
    probes that found the proxy and sleeps, and it never leaves the loop by
    the [break] of the fallback. *)
Theorem monitor_force_exits (loc : nat) (env : list tick) (w : World)
  (m : ProxyMonitor) (evs : list monitor_event) :
  w_monitors w !! loc = Some m ->
  force m = true ->
  w_events (snd (_monitor loc env w)) = w_events w ++ evs ->
  (exists url, EvProbe url false ∈ evs) ->
  (exists pre,
     evs = pre ++ [EvProbe (proxy_url m) false; EvStoreAlive loc false;
                   EvExit 1] /\
     Forall quiet pre) /\
  fst (_monitor loc env w) = Exited 1 /\
  last (w_log (snd (_monitor loc env w)))
  = Some (run_harpy_logger, CRITICAL, MsgWentDownAbort (proxy_url m)).
Proof.
  intros Hm Hforce Hev (url & Hin).
  destruct (monitor_run_force loc env w m Hm Hforce) as (evs' & Hev' & Hc).
  assert (evs' = evs) as ->
    by (rewrite Hev in Hev'; now apply app_inv_head in Hev').
  destruct Hc as [(Hq & _) | Hc]; [| exact Hc].
  exfalso. rewrite Forall_forall in Hq. exact (Hq _ Hin).
Qed.

(** X24.  The monitor thread never sets [alive] back to [True]: after
    any run, a monitor that was not alive is not alive, whatever its probes
    found, and an engine that refers to it still sends its requests with
    no proxies. *)
Theorem monitor_never_revives (loc : nat) (env : list tick) (w : World)
  (m : ProxyMonitor) (otp : pystr) :
  w_monitors w !! loc = Some m ->
  alive m = false ->
  let w' := snd (_monitor loc env w) in
  (exists m', w_monitors w' !! loc = Some m' /\ alive m' = false) /\
  (proxy_monitor (w_engine w) = Some loc ->
   req_proxies (verify_request otp w') = None).
Proof.
  intros Hm Ha w'. subst w'.
  destruct (monitor_run_object loc env w m Hm)
    as (m' & Hm' & Ha' & _ & _ & _ & He').
  assert (Hdead : alive m' = false).
  { destruct (alive m') eqn:E; [| reflexivity].
    rewrite Ha' in Ha by reflexivity. discriminate. }
  split; [now exists m' |].
  intros Hp. eapply verify_request_direct; [| exact Hm' | exact Hdead].
  now rewrite He'.
Qed.

(** X25.  After [stop], the loop of the monitor ends at its next turn
    without a probe: no event is added.  [stop] itself leaves [alive] as
    it was. *)
Theorem stop_ends_monitoring (loc : nat) (w : World) (m : ProxyMonitor)
  (t : tick) (env : list tick) :
  w_monitors w !! loc = Some m ->
  let w1 := snd (stop loc w) in
  fst (stop loc w) = Ok tt /\
  (exists m1,
     w_monitors w1 !! loc = Some m1 /\
     running m1 = false /\ alive m1 = alive m) /\
  fst (_monitor loc (t :: env) w1) = Stopped /\
  w_events (snd (_monitor loc (t :: env) w1)) = w_events w.
Proof.
  intros Hm. cbv zeta.
  assert (E : exists w1 m1,
            stop loc w = (Ok tt, w1) /\ w_monitors w1 !! loc = Some m1 /\
            running m1 = false /\ alive m1 = alive m /\
            w_events w1 = w_events w).
  { unfold stop, bind. rewrite Hm. cbn.
    eexists _, _. split; [reflexivity |]. cbn.
    split; [apply lookup_insert_eq |]. repeat split. }
  destruct E as (w1 & m1 & -> & Hm1 & Hr1 & Ha1 & Hev1). cbn [fst snd].
  split; [reflexivity |]. split; [now exists m1 |].
  cbn [_monitor].
  destruct (stop_called t).
  - destruct (stop_spec loc w1 m1 Hm1) as (m2 & Hm2 & Hr2 & _ & _ & Hev2).
    rewrite Hm2, Hr2. cbn [negb fst snd].
    split; [reflexivity | now rewrite Hev2].
  - rewrite Hm1, Hr1. cbn. split; [reflexivity | exact Hev1].
Qed.

End MonitorProperties.

(* --------------------------------------------------------------------- *)
(** ** [detect_proxy_type] and [visualize] *)

Section DiagnosticsFacts.
Context `{PyFloat} `{!Forest}.

Lemma zap_probe_sent (urlparse : pystr -> result (pystr * pystr))
  (get : list get_request -> get_request -> get_outcome)
  (proxy_url : pystr) (sent : list get_request) :
  exists more,
    snd (zap_probe urlparse get proxy_url sent) = sent ++ more /\
    (length more <= 1)%nat /\
    Forall (fun rq => get_proxies rq = (proxy_url, proxy_url) /\
                      get_verify rq = false) more.
Proof.
  unfold zap_probe. destruct (urlparse proxy_url) as [[scheme netloc] | e].
  - eexists [_]. cbn [snd].
    split; [reflexivity | split; [cbn; lia | repeat constructor]].
  - exists []. cbn [snd]. rewrite app_nil_r.
    split; [reflexivity | split; [cbn; lia | constructor]].
Qed.

Lemma column_records (key : pystr) (f : AttemptRecord -> pyval)
  (recs : list AttemptRecord) :
  (forall r, subscript (dict_of_record r) key = Ok (f r)) ->
  column key (map dict_of_record recs) = Ok (map f recs).
Proof.
  intros Hf. induction recs as [|r recs IH]; [reflexivity |].
  cbn [map column]. now rewrite Hf, IH.
Qed.

Lemma column_lacks_time (l : list pyval) :
  Forall is_dict l -> Exists lacks_time l ->
  column (py "time") l = Raise KeyError.
Proof.
  intros Hall Hex. induction Hex as [h l Hh | h l Hex IH].
  - destruct h; try contradiction. cbn [column subscript].
    unfold lacks_time in Hh. now rewrite Hh.
  - apply Forall_cons in Hall as [Hd Hall]. specialize (IH Hall).
    destruct h as [ | | | | | | | |d]; try contradiction.
    cbn [column subscript]. rewrite IH.
    now destruct (dict_get d (py "time")).
Qed.

End DiagnosticsFacts.

Section DiagnosticsProperties.
Context `{PyFloat} `{!Forest}.

(** X26.  [detect_proxy_type] never raises, whatever [requests] and
    [urlparse] do: it answers with one of its four strings.  It makes one
    or two calls, the first to [http://example.com] with a timeout of three
    seconds, each through the proxy and without verification of
    certificates. *)
Theorem detect_proxy_type_never_raises
  (urlparse : pystr -> result (pystr * pystr))
  (get : list get_request -> get_request -> get_outcome)
  (proxy_url : pystr) (w : World) :
  let r := detect_proxy_type urlparse get proxy_url w in
  (exists kind, fst (fst r) = Ok kind /\ kind ∈ proxy_kinds) /\
  (exists more,
     snd (fst r) = example_probe proxy_url :: more /\
     (length more <= 1)%nat) /\
  Forall (fun rq => get_proxies rq = (proxy_url, proxy_url) /\
                    get_verify rq = false) (snd (fst r)).
Proof.
  cbv zeta. unfold detect_proxy_type, detect_proxy_type_body.
  fold (example_probe proxy_url).
  assert (Hfirst : Forall (fun rq => get_proxies rq = (proxy_url, proxy_url)
                                     /\ get_verify rq = false)
                     [example_probe proxy_url]) by (repeat constructor).
  unfold proxy_kinds.
  destruct (get [] (example_probe proxy_url)) as [r1 | e].
  2: { cbn [fst snd]. split; [| split; [| exact Hfirst]].
       - eexists. split; [reflexivity |]. set_solver.
       - exists []. split; [reflexivity | cbn; lia]. }
  destruct (_ || _).
  { cbn [fst snd]. split; [| split; [| exact Hfirst]].
    - eexists. split; [reflexivity |]. set_solver.
    - exists []. split; [reflexivity | cbn; lia]. }
  destruct (zap_probe_sent urlparse get proxy_url [example_probe proxy_url])
    as (more & Hs & Hl & Hall).
  destruct (zap_probe urlparse get proxy_url [example_probe proxy_url])
    as [[[|] | e] sent]; cbn [fst snd] in *; subst sent;
    (split; [eexists; split; [reflexivity | set_solver] |]);
    (split; [exists more; split; [reflexivity | exact Hl] |]);
    apply Forall_app; split; assumption.
Qed.

(** X27.  [detect_proxy_type] answers [OWASP ZAP] only when the first
    call got a response without the marks of Burp, and the call to the
    version endpoint of the proxy got a response with status 200 whose
    body is JSON that holds [version]: as a key of an object, an element
    of an array, or a part of a string. *)
Theorem detect_zap_sound (urlparse : pystr -> result (pystr * pystr))
  (get : list get_request -> get_request -> get_outcome)
  (proxy_url : pystr) (w : World) :
  fst (fst (detect_proxy_type urlparse get proxy_url w)) = Ok (py "OWASP ZAP") ->
  exists r1 scheme netloc r2 v,
    get [] (example_probe proxy_url) = GetResponds r1 /\
    burp_marks r1 = false /\
    urlparse proxy_url = Ok (scheme, netloc) /\
    get [example_probe proxy_url] (zap_version_probe proxy_url scheme netloc)
    = GetResponds r2 /\
    r_status_code r2 = 200%Z /\
    Json.loads (r_text r2) = Some v /\
    contains_version v = Ok true.
Proof.
  unfold detect_proxy_type, detect_proxy_type_body.
  fold (example_probe proxy_url).
  destruct (get [] (example_probe proxy_url)) as [r1 | e] eqn:E1;
    [| intros [=]].
  fold (burp_marks r1). destruct (burp_marks r1) eqn:Eb; [intros [=] |].
  unfold zap_probe.
  destruct (urlparse proxy_url) as [[scheme netloc] | e] eqn:Eu;
    [| intros [=]].
  fold (zap_version_probe proxy_url scheme netloc).
  destruct (get [example_probe proxy_url]
              (zap_version_probe proxy_url scheme netloc))
    as [r2 | e] eqn:E2.
  2: { destruct (zap_probe_caught e); intros [=]. }
  destruct (Z.eqb_spec (r_status_code r2) 200) as [Hst | _]; [| intros [=]].
  unfold response_json.
  destruct (Json.loads (r_text r2)) as [v |] eqn:Ev; [| intros [=]].
  destruct (contains_version v) as [[|] | e] eqn:Ec.
  - intros _. exists r1, scheme, netloc, r2, v. repeat split; assumption.
  - intros [=].
  - destruct (zap_probe_caught e); intros [=].
Qed.

(** X28.  When the version endpoint answers 200 with a body that is JSON
    but neither an object, an array nor a string (a number, [true],
    [null]), the test for [version] raises a [TypeError] that the inner
    [try] does not catch: [detect_proxy_type] logs an error and answers
    [Unreachable] for a proxy that answered both calls. *)
Theorem detect_scalar_version_unreachable
  (urlparse : pystr -> result (pystr * pystr))
  (get : list get_request -> get_request -> get_outcome)
  (proxy_url : pystr) (w : World) (r1 r2 : response)
  (scheme netloc : pystr) (v : pyval) :
  get [] (example_probe proxy_url) = GetResponds r1 ->
  burp_marks r1 = false ->
  urlparse proxy_url = Ok (scheme, netloc) ->
  get [example_probe proxy_url] (zap_version_probe proxy_url scheme netloc)
  = GetResponds r2 ->
  r_status_code r2 = 200%Z ->
  Json.loads (r_text r2) = Some v ->
  match v with PDict _ | PList _ | PStr _ => False | _ => True end ->
  detect_proxy_type urlparse get proxy_url w
  = (Ok (py "Unreachable"),
     [example_probe proxy_url; zap_version_probe proxy_url scheme netloc],
     [(run_harpy_logger, ERROR, MsgDetectUnexpected proxy_url)]).
Proof.
  intros E1 Eb Eu E2 Hst Ev Hv.
  unfold detect_proxy_type, detect_proxy_type_body.
  fold (example_probe proxy_url). rewrite E1.
  fold (burp_marks r1). rewrite Eb.
  unfold zap_probe. rewrite Eu.
  fold (zap_version_probe proxy_url scheme netloc). rewrite E2, Hst.
  unfold response_json. rewrite Ev.
  destruct v; try contradiction; reflexivity.
Qed.

(** X29.  [visualize] on a history of records never raises, whatever
    [matplotlib] does.  With no record it plots nothing and logs a
    warning.  Otherwise it draws one point per record, in the order of the
    history: the position of the record, its time, and its status for the
    colour; when the drawing raises, nothing is displayed and the error is
    logged. *)
Theorem visualize_plots_history (plt : scatter -> result unit) (w : World)
  (recs : list AttemptRecord) :
  history (w_engine w) = history_of recs ->
  let figure :=
    {| sc_x := seq 0 (length recs); sc_y := map time recs;
       sc_c := map (fun r => PInt (status r)) recs |} in
  visualize plt w
  = match recs with
    | [] => (Ok tt, emit harpy_ai_otp_logger WARNING MsgNoHistory w, None)
    | _ =>
        match plt figure with
        | Ok _ =>
            (Ok tt, emit harpy_ai_otp_logger INFO MsgDisplayed w, Some figure)
        | Raise _ =>
            (Ok tt, emit harpy_ai_otp_logger ERROR MsgVisualizeError w, None)
        end
    end.
Proof.
  intros Hh. cbv zeta. unfold visualize. rewrite Hh. unfold history_of.
  destruct recs as [|r recs]; [reflexivity |].
  cbn [truthy map length]. rewrite bool_decide_eq_false_2 by discriminate.
  cbn [negb iterate].
  change (dict_of_record r :: map dict_of_record recs)
    with (map dict_of_record (r :: recs)).
  rewrite (column_records (py "time") time) by (now intros []).
  rewrite (column_records (py "status") (fun r => PInt (status r)))
    by (now intros []).
  now rewrite length_map.
Qed.

(** X30.  The lists of times and statuses are built before the [try] of
    [visualize]: when the entries of the history are dicts and one of them
    has no [time], the [KeyError] leaves [visualize]; nothing is drawn and
    nothing is logged. *)
Theorem visualize_missing_time (plt : scatter -> result unit) (w : World)
  (l : list pyval) :
  history (w_engine w) = PList l ->
  Forall is_dict l ->
  Exists lacks_time l ->
  visualize plt w = (Raise KeyError, [], None).
Proof.
  intros Hh Hall Hex. unfold visualize. rewrite Hh.
  destruct l as [|h l]; [now apply Exists_nil in Hex |].
  cbn [truthy length]. rewrite bool_decide_eq_false_2 by discriminate.
  cbn [negb iterate]. now rewrite (column_lacks_time _ Hall Hex).
Qed.

End DiagnosticsProperties.

(* --------------------------------------------------------------------- *)
(** ** The properties on the scenarios *)

Module Runs.
Import Examples Scenarios.

Lemma always_never_hits : never_hits (always 400 "Bad OTP").
Proof.
  intros sent req. exists 400%Z, (py "Bad OTP"), (3 : N).
  split; [reflexivity | vm_compute; reflexivity].
Qed.

Lemma always_responds_always st body : always_responds (always st body).
Proof. intros sent req. now exists st, (py body), (3 : N). Qed.

Lemma accepting_hits_exactly (secret : string) :
  hits_exactly (accepting secret) (py secret).
Proof.
  intros sent req. unfold accepting. case_bool_decide.
  - exists 200%Z, (py "OK"), (3 : N). split; reflexivity.
  - exists 400%Z, (py "Bad OTP"), (3 : N).
    split; [reflexivity | vm_compute; reflexivity].
Qed.

(** The space of two digits. *)
Lemma candidates_space_witness :
  (1 <= 2)%nat /\
  length (candidates 2) = (10 ^ 2)%nat /\
  NoDup (candidates 2) /\
  forall otp, otp ∈ candidates 2 -> length otp = 2%nat /\ digit_str otp.
Proof.
  assert (Hd : (1 <= 2)%nat) by lia.
  split; [exact Hd | exact (candidates_space 2 Hd)].
Defined.

(** A second engine with [debug=True] after a first with [debug=False]. *)
Lemma debug_engine_after_quiet_one_witness :
  let w := second_engine in
  w_net w (w_sent w) (verify_request (py "000") w)
  = Responds 400 (py "Bad OTP") (3 : N) /\
  debug (w_engine w) = true /\
  w_logger_level w = Some WARNING /\
  w_log (snd (verify (py "000") w)) = w_log w.
Proof.
  intros w.
  assert (Hnet : w_net w (w_sent w) (verify_request (py "000") w)
                 = Responds 400 (py "Bad OTP") (3 : N)) by reflexivity.
  split; [exact Hnet |].
  exact (debug_engine_after_quiet_one
           (py "https://t.test") (py "/auth/verify-otp") (py "u2")
           (py "https://t.test") (py "/auth/verify-otp") (py "u1")
           None None None None (py "000")
           (fresh_world (always 400 "Bad OTP")) 400 (py "Bad OTP") (3 : N)
           Hnet).
Defined.

(** A state file that holds an empty object. *)
Lemma verify_after_foreign_state_witness :
  let w := with_file "{}" (fresh_world (always 400 "Bad OTP")) in
  let otp := py "000" in
  let w1 := snd (load_state w) in
  (w_files w !! state_file (w_engine w) = Some (py "{}") /\
   Json.loads (py "{}") = Some (PDict []) /\
   (forall l, PDict [] <> PList l) /\
   w_net w (w_sent w) (verify_request otp w)
   = Responds 400 (py "Bad OTP") (3 : N)) /\
  fst (load_state w) = Ok tt /\
  history (w_engine w1) = PDict [] /\
  fst (verify otp w1) = Raise AttributeError /\
  w_sent (snd (verify otp w1)) = w_sent w ++ [verify_request otp w] /\
  history (w_engine (snd (verify otp w1))) = PDict [].
Proof.
  intros w otp w1.
  assert (H1 : w_files w !! state_file (w_engine w) = Some (py "{}"))
    by (vm_compute; reflexivity).
  assert (H2 : Json.loads (py "{}") = Some (PDict []))
    by (vm_compute; reflexivity).
  assert (H3 : forall l, PDict [] <> PList l) by discriminate.
  assert (H4 : w_net w (w_sent w) (verify_request otp w)
               = Responds 400 (py "Bad OTP") (3 : N)) by reflexivity.
  split; [repeat split; assumption |].
  exact (verify_after_foreign_state otp w (py "{}") (PDict []) 400
           (py "Bad OTP") (3 : N) H1 H2 H3 H4).
Defined.

(** The state file of the engine that made one attempt. *)
Lemma save_state_writes_ascii_witness :
  let w := after_one_attempt in
  w_writable w (state_file (w_engine w)) = true /\
  exists content,
    w_files (snd (save_state w)) !! state_file (w_engine w) = Some content /\
    ascii_text content.
Proof.
  intros w.
  assert (Hw : w_writable w (state_file (w_engine w)) = true) by reflexivity.
  split; [exact Hw | exact (save_state_writes_ascii w Hw)].
Defined.

(** Training on a failure and a success. *)
Lemma train_model_refits_encoder_first_witness :
  let w := after_two_attempts in
  let recs := two_attempts in
  let w' := snd (train_model w) in
  (recs <> [] /\
   Forall (fun r => ascii_head (otp r)) recs /\
   history (w_engine w) = history_of recs) /\
  fst (train_model w) = Ok tt /\
  encoder_classes (w_engine w') = Some (classes_of recs) /\
  classifier (w_engine w') =
    match forest_fit (map features_of recs) (encoded_labels recs) with
    | Ok fitted => Some fitted
    | Raise _ => classifier (w_engine w)
    end /\
  history (w_engine w') = history (w_engine w) /\
  w_sent w' = w_sent w.
Proof.
  intros w recs w'.
  assert (H1 : recs <> []) by discriminate.
  assert (H2 : Forall (fun r => ascii_head (otp r)) recs)
    by (repeat constructor).
  assert (H3 : history (w_engine w) = history_of recs)
    by (vm_compute; reflexivity).
  split; [repeat split; assumption |].
  exact (train_model_refits_encoder_first w recs H1 H2 H3).
Defined.

(** A prediction of an engine that never trained. *)
Lemma predict_likelihood_never_raises_witness :
  let w := fresh_world (always 400 "Bad OTP") in
  let otp := py "123" in
  ascii_head otp /\
  exists p,
    fst (predict_likelihood otp w) = Ok p /\
    same_but_log w (snd (predict_likelihood otp w)) /\
    (classifier (w_engine w) = None -> p = float_zero) /\
    (encoder_classes (w_engine w) = None -> p = float_zero).
Proof.
  intros w otp.
  assert (H1 : ascii_head otp) by (vm_compute; reflexivity).
  split; [exact H1 | exact (predict_likelihood_never_raises otp w H1)].
Defined.

(** The likelihood of a candidate after that training: one half. *)
Lemma predict_after_training_witness :
  let w := after_two_attempts in
  let recs := two_attempts in
  let cand := py "123" in
  (ascii_head cand /\
   Forall (fun r => ascii_head (otp r)) recs /\
   history (w_engine w) = history_of recs /\
   existsb succeeded recs = true /\
   forest_fit (map features_of recs) (encoded_labels recs)
   = Ok [0%nat; 1%nat] /\
   forest_predict_proba [0%nat; 1%nat] (candidate_features cand)
   = Ok [5; 5] /\
   [5; 5] !! success_index recs = Some 5) /\
  fst (predict_likelihood cand (snd (train_model w))) = Ok (5 : N).
Proof.
  intros w recs cand.
  assert (H0 : ascii_head cand) by (vm_compute; reflexivity).
  assert (H0' : Forall (fun r => ascii_head (otp r)) recs)
    by (repeat constructor).
  assert (H1 : history (w_engine w) = history_of recs)
    by (vm_compute; reflexivity).
  assert (H2 : existsb succeeded recs = true) by (vm_compute; reflexivity).
  assert (H3 : forest_fit (map features_of recs) (encoded_labels recs)
               = Ok [0%nat; 1%nat]) by (vm_compute; reflexivity).
  assert (H4 : forest_predict_proba [0%nat; 1%nat] (candidate_features cand)
               = Ok [5; 5]) by (vm_compute; reflexivity).
  assert (H5 : [5; 5] !! success_index recs = Some 5)
    by (vm_compute; reflexivity).
  split; [repeat split; assumption |].
  exact (predict_after_training w recs [0%nat; 1%nat] cand [5; 5] 5
           H0 H0' H1 H2 H3 H4 H5).
Defined.

(** Twelve attempts on a space of one digit. *)
Lemma adaptive_attack_candidates_witness :
  let w := fresh_world (always 400 "Bad OTP") in
  ((1 <= 1)%nat /\ never_hits (w_net w) /\ history (w_engine w) = PList []) /\
  exists tried,
    sent_otps (snd (adaptive_attack 12 1 w)) = sent_otps w ++ tried /\
    length tried = Z.to_nat 12 /\
    NoDup tried /\
    take (10 ^ 1) tried = take (Z.to_nat 12) (candidates 1) /\
    Forall (fun otp => (1 < length otp)%nat) (drop (10 ^ 1) tried).
Proof.
  intros w.
  assert (H1 : (1 <= 1)%nat) by lia.
  assert (H2 : never_hits (w_net w)) by exact always_never_hits.
  assert (H3 : history (w_engine w) = PList []) by reflexivity.
  split; [repeat split; assumption |].
  exact (adaptive_attack_candidates 12 1 w [] H1 H2 H3).
Defined.

(** The server accepts [001]; five attempts of three digits. *)
Lemma adaptive_attack_stops_at_hit_witness :
  let w := fresh_world (accepting "001") in
  let r := adaptive_attack 5 3 w in
  (hits_exactly (w_net w) (numeral 3 1) /\
   (1 < Z.to_nat 5)%nat /\
   history (w_engine w) = PList []) /\
  fst r = Raise (NameError "Fore") /\
  sent_otps (snd r) = sent_otps w ++ map (numeral 3) (seq 0 2) /\
  exists recs st tx el,
    history (w_engine (snd r))
    = PList ([] ++ recs ++ [make_record (numeral 3 1) st
                              (lower (strip tx)) (PFloat el)]) /\
    length recs = 1%nat /\
    is_success (lower (strip tx)) st = true.
Proof.
  intros w r.
  assert (H1 : hits_exactly (w_net w) (numeral 3 1))
    by exact (accepting_hits_exactly "001").
  assert (H2 : (1 < Z.to_nat 5)%nat) by (vm_compute; lia).
  assert (H3 : history (w_engine w) = PList []) by reflexivity.
  split; [repeat split; assumption |].
  exact (adaptive_attack_stops_at_hit 5 3 1 w [] H1 H2 H3).
Defined.

(** The server accepts [07]; the space of two digits. *)
Lemma brute_force_until_hit_witness :
  let w := fresh_world (accepting "07") in
  let r := brute_force the_attacker 2 true w in
  (product (py "0123456789") 2 !! 7%nat = Some (py "07") /\
   hits_exactly (w_net w) (py "07")) /\
  fst r = Ok tt /\
  sent_otps (snd r)
  = sent_otps w ++ take 8 (product (py "0123456789") 2) /\
  w_engine (snd r) = w_engine w.
Proof.
  intros w r.
  assert (H1 : product (py "0123456789") 2 !! 7%nat = Some (py "07"))
    by (vm_compute; reflexivity).
  assert (H2 : hits_exactly (w_net w) (py "07"))
    by exact (accepting_hits_exactly "07").
  split; [split; assumption |].
  exact (brute_force_until_hit the_attacker 2 7 (py "07") true w H1 H2).
Defined.

(** A network on which every call fails to connect. *)
Lemma attacker_failure_propagates_witness :
  let e := Requests ConnectionError in
  let w := fresh_world (failing e) in
  (forall sent req, w_net w sent req = Fails e) /\
  fst (brute_force the_attacker 2 true w) = Raise e /\
  sent_otps (snd (brute_force the_attacker 2 true w))
  = sent_otps w ++ [repeat Char.zero 2] /\
  fst (replay_attack the_attacker (py "123456") w) = Raise e /\
  sent_otps (snd (replay_attack the_attacker (py "123456") w))
  = sent_otps w ++ [py "123456"].
Proof.
  intros e w.
  assert (H1 : forall sent req, w_net w sent req = Fails e)
    by (intros sent req; reflexivity).
  split; [exact H1 |].
  exact (attacker_failure_propagates the_attacker 2 true (py "123456") e w H1).
Defined.

(** Three replays of a known candidate. *)
Lemma replay_attack_three_calls_witness :
  let w := fresh_world (always 200 "OK") in
  let req := verify_otp_request the_attacker (py "123456") in
  always_responds (w_net w) /\
  exists st1 tx1 el1 st2 tx2 el2 st3 tx3 el3,
    w_net w (w_sent w) req = Responds st1 tx1 el1 /\
    w_net w (w_sent w ++ [req]) req = Responds st2 tx2 el2 /\
    w_net w (w_sent w ++ [req; req]) req = Responds st3 tx3 el3 /\
    fst (replay_attack the_attacker (py "123456") w)
    = Ok [(st1, tx1); (st2, tx2); (st3, tx3)] /\
    w_sent (snd (replay_attack the_attacker (py "123456") w))
    = w_sent w ++ [req; req; req].
Proof.
  intros w req.
  assert (H1 : always_responds (w_net w))
    by exact (always_responds_always 200 "OK").
  split; [exact H1 |].
  exact (replay_attack_three_calls the_attacker (py "123456") w H1).
Defined.

(** Two random guesses. *)
Lemma random_bypass_submits_six_digits_witness :
  let w := fresh_world (always 400 "Bad OTP") in
  let r := random_bypass the_attacker 2 counting w in
  let tried := map (random_otp counting) (seq 0 (Z.to_nat 2)) in
  always_responds (w_net w) /\
  fst r = Ok tt /\
  sent_otps (snd r) = sent_otps w ++ tried /\
  Forall (fun otp => length otp = 6%nat /\ digit_str otp) tried /\
  w_engine (snd r) = w_engine w.
Proof.
  intros w r tried.
  assert (H1 : always_responds (w_net w))
    by exact (always_responds_always 400 "Bad OTP").
  split; [exact H1 |].
  exact (random_bypass_submits_six_digits the_attacker 2 counting w H1).
Defined.

(** A monitor built while the proxy refuses the connection. *)
Lemma new_monitor_decides_routing_witness :
  let w := unmonitored_world in
  let w1 := snd (new_monitor 0 burp false 5 ProbeSocketError w) in
  proxy_monitor (w_engine w) = Some 0%nat /\
  fst (new_monitor 0 burp false 5 ProbeSocketError w) = Ok tt /\
  w_monitors w1 !! 0%nat
  = Some {| proxy_url := burp; force := false; check_interval := 5;
            running := true; alive := false |} /\
  w_events w1 = w_events w ++ [EvProbe burp false] /\
  req_proxies (verify_request (py "000") w1) = None.
Proof.
  intros w w1.
  assert (H1 : proxy_monitor (w_engine w) = Some 0%nat) by reflexivity.
  split; [exact H1 |].
  exact (new_monitor_decides_routing 0 burp false 5 ProbeSocketError w
           (py "000") H1).
Defined.

(** A monitor in force mode that finds the proxy once and then loses
    it. *)
Lemma monitor_force_exits_witness :
  let w := forced_world in
  let env := [up; down; up] in
  let evs := [EvProbe burp true; EvSleep 5; EvProbe burp false;
              EvStoreAlive 0 false; EvExit 1] in
  (w_monitors w !! 0%nat = Some forced_monitor /\
   force forced_monitor = true /\
   w_events (snd (_monitor 0 env w)) = w_events w ++ evs /\
   (exists url, EvProbe url false ∈ evs)) /\
  (exists pre,
     evs = pre ++ [EvProbe (proxy_url forced_monitor) false;
                   EvStoreAlive 0 false; EvExit 1] /\
     Forall quiet pre) /\
  fst (_monitor 0 env w) = Exited 1 /\
  last (w_log (snd (_monitor 0 env w)))
  = Some (run_harpy_logger, CRITICAL,
          MsgWentDownAbort (proxy_url forced_monitor)).
Proof.
  intros w env evs.
  assert (H1 : w_monitors w !! 0%nat = Some forced_monitor)
    by (vm_compute; reflexivity).
  assert (H2 : force forced_monitor = true) by reflexivity.
  assert (H3 : w_events (snd (_monitor 0 env w)) = w_events w ++ evs)
    by (vm_compute; reflexivity).
  assert (H4 : exists url, EvProbe url false ∈ evs).
  { exists burp. unfold evs. rewrite !elem_of_cons.
    do 2 right. left. reflexivity. }
  split; [repeat split; assumption |].
  exact (monitor_force_exits 0 env w forced_monitor evs H1 H2 H3 H4).
Defined.

(** A monitor that was built while the proxy was down, and then finds
    it twice. *)
Lemma monitor_never_revives_witness :
  let w := down_world in
  let w' := snd (_monitor 0 [up; up] w) in
  (w_monitors w !! 0%nat = Some down_monitor /\
   alive down_monitor = false) /\
  (exists m', w_monitors w' !! 0%nat = Some m' /\ alive m' = false) /\
  (proxy_monitor (w_engine w) = Some 0%nat ->
   req_proxies (verify_request (py "000") w') = None).
Proof.
  intros w w'.
  assert (H1 : w_monitors w !! 0%nat = Some down_monitor)
    by (vm_compute; reflexivity).
  assert (H2 : alive down_monitor = false) by reflexivity.
  split; [split; assumption |].
  exact (monitor_never_revives 0 [up; up] w down_monitor (py "000") H1 H2).
Defined.

(** [stop] on the monitor of the monitored engine. *)
Lemma stop_ends_monitoring_witness :
  let w := monitored_world in
  let w1 := snd (stop 0 w) in
  w_monitors w !! 0%nat = Some the_monitor /\
  fst (stop 0 w) = Ok tt /\
  (exists m1,
     w_monitors w1 !! 0%nat = Some m1 /\
     running m1 = false /\ alive m1 = alive the_monitor) /\
  fst (_monitor 0 (up :: [up]) w1) = Stopped /\
  w_events (snd (_monitor 0 (up :: [up]) w1)) = w_events w.
Proof.
  intros w w1.
  assert (H1 : w_monitors w !! 0%nat = Some the_monitor)
    by (vm_compute; reflexivity).
  split; [exact H1 |].
  exact (stop_ends_monitoring 0 w the_monitor up [up] H1).
Defined.

(** A proxy whose version endpoint answers as ZAP does. *)
Lemma detect_zap_sound_witness :
  let get := version_endpoint zap_body in
  let w := fresh_world (always 400 "Bad OTP") in
  fst (fst (detect_proxy_type urlparse_burp get burp w))
  = Ok (py "OWASP ZAP") /\
  exists r1 scheme netloc r2 v,
    get [] (example_probe burp) = GetResponds r1 /\
    burp_marks r1 = false /\
    urlparse_burp burp = Ok (scheme, netloc) /\
    get [example_probe burp] (zap_version_probe burp scheme netloc)
    = GetResponds r2 /\
    r_status_code r2 = 200%Z /\
    Json.loads (r_text r2) = Some v /\
    contains_version v = Ok true.
Proof.
  intros get w.
  assert (H1 : fst (fst (detect_proxy_type urlparse_burp get burp w))
               = Ok (py "OWASP ZAP")) by (vm_compute; reflexivity).
  split; [exact H1 |].
  exact (detect_zap_sound urlparse_burp get burp w H1).
Defined.

(** A proxy whose version endpoint answers with the number 1. *)
Lemma detect_scalar_version_unreachable_witness :
  let get := version_endpoint (py "1") in
  let w := fresh_world (always 400 "Bad OTP") in
  let r1 := {| r_status_code := 200; r_text := py "Example Domain";
               r_server := Some (py "ECS") |} in
  let r2 := {| r_status_code := 200; r_text := py "1"; r_server := None |} in
  (get [] (example_probe burp) = GetResponds r1 /\
   burp_marks r1 = false /\
   urlparse_burp burp = Ok (py "http", py "127.0.0.1:8080") /\
   get [example_probe burp]
     (zap_version_probe burp (py "http") (py "127.0.0.1:8080"))
   = GetResponds r2 /\
   r_status_code r2 = 200%Z /\
   Json.loads (r_text r2) = Some (PInt 1) /\
   True) /\
  detect_proxy_type urlparse_burp get burp w
  = (Ok (py "Unreachable"),
     [example_probe burp;
      zap_version_probe burp (py "http") (py "127.0.0.1:8080")],
     [(run_harpy_logger, ERROR, MsgDetectUnexpected burp)]).
Proof.
  intros get w r1 r2.
  assert (H1 : get [] (example_probe burp) = GetResponds r1) by reflexivity.
  assert (H2 : burp_marks r1 = false) by (vm_compute; reflexivity).
  assert (H3 : urlparse_burp burp = Ok (py "http", py "127.0.0.1:8080"))
    by reflexivity.
  assert (H4 : get [example_probe burp]
                 (zap_version_probe burp (py "http") (py "127.0.0.1:8080"))
               = GetResponds r2) by reflexivity.
  assert (H5 : r_status_code r2 = 200%Z) by reflexivity.
  assert (H6 : Json.loads (r_text r2) = Some (PInt 1))
    by (vm_compute; reflexivity).
  split; [repeat split; assumption |].
  exact (detect_scalar_version_unreachable urlparse_burp get burp w r1 r2
           (py "http") (py "127.0.0.1:8080") (PInt 1) H1 H2 H3 H4 H5 H6 I).
Defined.

(** The figure of the two attempts. *)
Lemma visualize_plots_history_witness :
  let w := after_two_attempts in
  let recs := two_attempts in
  let figure :=
    {| sc_x := seq 0 (length recs); sc_y := map time recs;
       sc_c := map (fun r => PInt (status r)) recs |} in
  history (w_engine w) = history_of recs /\
  visualize display_ok w
  = (Ok tt, emit harpy_ai_otp_logger INFO MsgDisplayed w, Some figure).
Proof.
  intros w recs figure.
  assert (H1 : history (w_engine w) = history_of recs)
    by (vm_compute; reflexivity).
  split; [exact H1 |].
  exact (visualize_plots_history display_ok w recs H1).
Defined.

(** An engine that loaded a state file with one empty object. *)
Lemma visualize_missing_time_witness :
  let w := snd (load_state
                  (with_file "[{}]" (fresh_world (always 400 "Bad OTP")))) in
  (history (w_engine w) = PList [PDict []] /\
   Forall is_dict [PDict []] /\
   Exists lacks_time [PDict []]) /\
  visualize display_ok w = (Raise KeyError, [], None).
Proof.
  intros w.
  assert (H1 : history (w_engine w) = PList [PDict []])
    by (vm_compute; reflexivity).
  assert (H2 : Forall is_dict [PDict []]) by (repeat constructor).
  assert (H3 : Exists lacks_time [PDict []]) by (constructor; reflexivity).
  split; [repeat split; assumption |].
  exact (visualize_missing_time display_ok w [PDict []] H1 H2 H3).
Defined.

End Runs.
